(** * The Expense Exterminator: statement-file extraction pipeline

    A shallow embedding of the TypeScript extraction code of the
    expense tracker front end (the generic [fileProcessor] utilities and the
    per-app processors) together with the JavaScript primitives it relies on.

    Conventions of the embedding:
    - a JavaScript string is the list of its UTF-16 code units ([jsstring]);
      literals are written as Rocq strings and decoded by [js];
    - a JavaScript number is [Number]: NaN, the two infinities, or a signed
      finite binary64 value, held as the decimal [m * 10^e] that
      [Number::toString] prints for it (the shortest one that rounds to the
      value); a decimal literal is rounded to the nearest binary64 value, ties
      to even, with overflow to Infinity and underflow to the subnormals and
      to zero;
    - integer results of [parseInt] are [option Z] ([None] is NaN);
    - a [Date] object is its time value in milliseconds since the epoch
      ([None] is an Invalid Date); the host's local time zone is the
      parameter [tz], in minutes east of UTC, taken constant (no daylight
      saving time);
    - the libraries the code calls (Papa Parse, SheetJS, [FileReader]) are
      represented by what they hand to the callbacks of the code;
    - exceptions are explicit: [Completion] for synchronous code and
      [Promise] for the asynchronous entry points. *)

From Stdlib Require Import String Ascii DecimalString ZArith NArith Bool Lia List.
From Stdlib Require DecimalN.
Import ListNotations.

Set Implicit Arguments.

(* ================================================================== *)
(** * JavaScript primitives *)
(* ================================================================== *)

Module JS.

(** ** Strings as UTF-16 code units *)

Definition jsstring := list N.

Fixpoint bytes_of_string (s : string) : list N :=
  match s with
  | EmptyString => []
  | String c r => N_of_ascii c :: bytes_of_string r
  end.

(** UTF-8 decoding of a literal into UTF-16 code units (surrogate pairs above
    the basic plane). *)
Fixpoint utf16_of_utf8 (bs : list N) : jsstring :=
  match bs with
  | [] => []
  | b0 :: r0 =>
    if (b0 <? 128)%N then b0 :: utf16_of_utf8 r0
    else match r0 with
    | [] => [b0]
    | b1 :: r1 =>
      if (b0 <? 224)%N
      then ((b0 mod 32) * 64 + b1 mod 64)%N :: utf16_of_utf8 r1
      else match r1 with
      | [] => [b0; b1]
      | b2 :: r2 =>
        if (b0 <? 240)%N
        then ((b0 mod 16) * 4096 + (b1 mod 64) * 64 + b2 mod 64)%N
               :: utf16_of_utf8 r2
        else match r2 with
        | [] => [b0; b1; b2]
        | b3 :: r3 =>
          let cp := ((b0 mod 8) * 262144 + (b1 mod 64) * 4096
                     + (b2 mod 64) * 64 + b3 mod 64)%N in
          let v := (cp - 65536)%N in
          (55296 + v / 1024)%N :: (56320 + v mod 1024)%N :: utf16_of_utf8 r3
        end
      end
    end
  end.

Definition js (s : string) : jsstring := utf16_of_utf8 (bytes_of_string s).

Definition cu (c : ascii) : N := N_of_ascii c.

Fixpoint str_eqb (a b : jsstring) : bool :=
  match a, b with
  | [], [] => true
  | x :: a', y :: b' => (x =? y)%N && str_eqb a' b'
  | _, _ => false
  end.

(** ** Character classes *)

(** [\s] of regular expressions, which is also the set removed by [trim] and
    skipped by [parseInt] and [parseFloat]: WhiteSpace and LineTerminator. *)
Definition is_space (c : N) : bool :=
  ((9 <=? c) && (c <=? 13) || (c =? 32) || (c =? 160) || (c =? 5760)
   || (8192 <=? c) && (c <=? 8202) || (c =? 8232) || (c =? 8233)
   || (c =? 8239) || (c =? 8287) || (c =? 12288) || (c =? 65279))%N.

(** [\d] *)
Definition is_digit (c : N) : bool := ((48 <=? c) && (c <=? 57))%N.

Definition is_upper (c : N) : bool := ((65 <=? c) && (c <=? 90))%N.
Definition is_lower (c : N) : bool := ((97 <=? c) && (c <=? 122))%N.

(** [[A-Za-z]] *)
Definition is_alpha (c : N) : bool := is_upper c || is_lower c.

(** [\w] *)
Definition is_word (c : N) : bool := is_alpha c || is_digit c || (c =? 95)%N.

(** [[\s\S]] *)
Definition any_cu (c : N) : bool := true.

(** [String.prototype.toLowerCase] on one code unit.  The capitals of ASCII
    and of Latin-1 go to their small letters.  Beyond Latin-1 the two code
    units are followed whose small form has an ASCII letter: KELVIN SIGN
    (U+212A), which becomes [k], and LATIN CAPITAL LETTER I WITH DOT ABOVE
    (U+0130), which becomes [i] and a combining dot (U+0307).  The others are
    left as they are: Unicode turns each of them into code units that are
    outside ASCII too, and this program compares a text in lower case with
    ASCII texts only (keywords, column names, file extensions, month
    names). *)
Definition lower_cu (c : N) : jsstring :=
  if is_upper c then [(c + 32)%N]
  else if ((192 <=? c) && (c <=? 222) && negb (c =? 215))%N then [(c + 32)%N]
  else if (c =? 8490)%N then [107%N]
  else if (c =? 304)%N then [105%N; 775%N]
  else [c].

Definition toLowerCase (s : jsstring) : jsstring := flat_map lower_cu s.

(** Equality of a subject code unit and a pattern code unit under the [i]
    flag (the patterns of this program only have ASCII letters, whose
    canonical forms are shared by no code unit outside ASCII). *)
Definition ci_eqb (c p : N) : bool :=
  ((if is_upper c then c + 32 else c) =? (if is_upper p then p + 32 else p))%N.

(** ** String methods *)

Fixpoint startsWith_by (eqb : N -> N -> bool) (s p : jsstring) : option jsstring :=
  match p with
  | [] => Some s
  | x :: p' =>
    match s with
    | [] => None
    | c :: s' => if eqb c x then startsWith_by eqb s' p' else None
    end
  end.

Definition startsWith (s p : jsstring) : bool :=
  match startsWith_by N.eqb s p with Some _ => true | None => false end.

Definition endsWith (s p : jsstring) : bool := startsWith (rev s) (rev p).

Fixpoint includes (s p : jsstring) : bool :=
  startsWith s p || match s with [] => false | _ :: s' => includes s' p end.

Fixpoint dropWhile (p : N -> bool) (s : jsstring) : jsstring :=
  match s with
  | [] => []
  | c :: r => if p c then dropWhile p r else s
  end.

Definition trim (s : jsstring) : jsstring :=
  rev (dropWhile is_space (rev (dropWhile is_space s))).

(** [s.split(sep)] for a separator of one code unit: never empty, the empty
    string splits into one empty piece. *)
Fixpoint split (sep : N) (s : jsstring) : list jsstring :=
  match s with
  | [] => [[]]
  | c :: r =>
    if (c =? sep)%N then [] :: split sep r
    else match split sep r with
         | [] => [[c]]
         | p :: ps => (c :: p) :: ps
         end
  end.

(** ** Regular expressions

    A pattern is a backtracking matcher: applied to the rest of the subject it
    lists every way it can match there, as (captured value, remaining input),
    in the order a backtracking engine tries them.  The head of the list is
    the match JavaScript reports. *)

Definition re (A : Type) := jsstring -> list (A * jsstring).

Definition re_ret {A} (a : A) : re A := fun s => [(a, s)].

Definition re_bind {A B} (p : re A) (f : A -> re B) : re B :=
  fun s => flat_map (fun '(a, r) => f a r) (p s).

Notation "x <- p ;; q" := (re_bind p (fun x => q))
  (at level 61, p at next level, right associativity).
Notation "p ;; q" := (re_bind p (fun _ => q))
  (at level 61, right associativity).

(** [p|q]: the alternatives of [p] are tried before those of [q]. *)
Definition re_alt {A} (p q : re A) : re A := fun s => p s ++ q s.

Fixpoint re_alts {A} (ps : list (re A)) : re A :=
  match ps with
  | [] => fun _ => []
  | p :: ps' => re_alt p (re_alts ps')
  end.

(** A literal, returning the text it matched. *)
Definition re_lit_by (eqb : N -> N -> bool) (p : jsstring) : re jsstring :=
  fun s => match startsWith_by eqb s p with
           | Some r => [(firstn (length p) s, r)]
           | None => []
           end.

Definition lit (p : jsstring) : re jsstring := re_lit_by N.eqb p.
Definition lit_i (p : jsstring) : re jsstring := re_lit_by ci_eqb p.

(** [$] without the [m] flag. *)
Definition re_end : re unit :=
  fun s => match s with [] => [(tt, [])] | _ => [] end.

(** Every split of the subject after a run of code units of the class, the
    shortest run first. *)
Fixpoint spans (p : N -> bool) (s : jsstring) : list (jsstring * jsstring) :=
  ([], s) ::
  match s with
  | c :: r => if p c then map (fun '(a, b) => (c :: a, b)) (spans p r) else []
  | [] => []
  end.

Definition within (lo : nat) (hi : option nat) (x : jsstring * jsstring) : bool :=
  Nat.leb lo (length (fst x))
  && match hi with Some h => Nat.leb (length (fst x)) h | None => true end.

(** [[class]{lo,hi}?], lazy: short runs first. *)
Definition rep_lazy (p : N -> bool) (lo : nat) (hi : option nat) : re jsstring :=
  fun s => filter (within lo hi) (spans p s).

(** [[class]{lo,hi}], greedy: long runs first. *)
Definition rep (p : N -> bool) (lo : nat) (hi : option nat) : re jsstring :=
  fun s => rev (rep_lazy p lo hi s).

Definition star (p : N -> bool) : re jsstring := rep p 0 None.
Definition plus (p : N -> bool) : re jsstring := rep p 1 None.

(** [(?:p)?], greedy: [p] is tried before the empty match. *)
Definition re_opt {A} (p : re A) (dflt : A) : re A := re_alt p (re_ret dflt).

Definition first_match {A} (l : list (A * jsstring)) : option (A * jsstring) :=
  match l with
  | [] => None
  | x :: _ => Some x
  end.

(** The leftmost match: the text before it, the captures, the text after. *)
Fixpoint search_from {A} (p : re A) (before : jsstring) (s : jsstring)
  : option (jsstring * A * jsstring) :=
  match first_match (p s) with
  | Some (a, r) => Some (rev before, a, r)
  | None =>
    match s with
    | [] => None
    | c :: t => search_from p (c :: before) t
    end
  end.

Definition search {A} (p : re A) (s : jsstring) := search_from p [] s.

(** [s.replace(/p/, by)] without the [g] flag ([by] has no [$] pattern). *)
Definition replace {A} (p : re A) (by_ : jsstring) (s : jsstring) : jsstring :=
  match search p s with
  | Some (before, _, after) => before ++ by_ ++ after
  | None => s
  end.

(** A pattern anchored by [^] matches at the start of the subject only. *)
Definition replace_anchored {A} (p : re A) (by_ : jsstring) (s : jsstring) : jsstring :=
  match first_match (p s) with
  | Some (_, after) => by_ ++ after
  | None => s
  end.

(** The matches of a [g] pattern, left to right: [skip] counts the code units
    of the subject still covered by the previous match.  An empty match lets
    the scan advance by one code unit. *)
Fixpoint scan {A} (p : re A) (skip : nat) (s : jsstring)
  : list (A + N) :=
  match skip with
  | S k => match s with [] => [] | _ :: t => scan p k t end
  | O =>
    match first_match (p s) with
    | Some (a, r) =>
      inl a ::
      match s with
      | [] => []
      | c :: t =>
        match length s - length r with
        | O => inr c :: scan p 0 t
        | S k => scan p k t
        end
      end
    | None =>
      match s with
      | [] => []
      | c :: t => inr c :: scan p 0 t
      end
    end
  end.

(** [s.replace(/p/g, by)] *)
Definition replace_all {A} (p : re A) (by_ : jsstring) (s : jsstring) : jsstring :=
  flat_map (fun x => match x with inl _ => by_ | inr c => [c] end) (scan p 0 s).

(** The captures of the successive [p.exec(s)] calls of a [g] pattern. *)
Definition exec_all {A} (p : re A) (s : jsstring) : list A :=
  flat_map (fun x => match x with inl a => [a] | inr _ => [] end) (scan p 0 s).

(** A capturing group around [p]: the text that [p] consumed. *)
Definition capture {A} (p : re A) : re jsstring :=
  fun s => map (fun '(_, r) => (firstn (length s - length r) s, r)) (p s).

(** One code unit of a class. *)
Definition one (p : N -> bool) : re jsstring := rep p 1 (Some 1%nat).

Definition in_set (l : jsstring) (c : N) : bool := existsb (N.eqb c) l.

(** ** Numbers *)

(** [Fin neg m e] is the finite binary64 value that prints as
    [(-1)^neg * m * 10^e]; a zero is [Fin neg 0 0], so the two zeros of
    JavaScript are kept apart. *)
Inductive Number :=
| NaN
| Inf (neg : bool)
| Fin (neg : bool) (m : N) (e : Z).

Definition isNaN (n : Number) : bool :=
  match n with NaN => true | _ => false end.

Definition isFinite (n : Number) : bool :=
  match n with Fin _ _ _ => true | _ => false end.

Definition is_zero (n : Number) : bool :=
  match n with Fin _ m _ => (m =? 0)%N | _ => false end.

(** [Math.abs] *)
Definition Math_abs (n : Number) : Number :=
  match n with
  | NaN => NaN
  | Inf _ => Inf false
  | Fin _ m e => Fin false m e
  end.

(** Unary minus. *)
Definition neg_num (n : Number) : Number :=
  match n with
  | NaN => NaN
  | Inf s => Inf (negb s)
  | Fin s m e => Fin (negb s) m e
  end.

(** ToBoolean of a number: NaN and the zeros are falsy. *)
Definition num_truthy (n : Number) : bool := negb (isNaN n || is_zero n).

Definition digits_to_N (ds : jsstring) : N :=
  fold_left (fun acc c => (acc * 10 + (c - 48))%N) ds 0%N.

Definition N_to_digits (n : N) : jsstring :=
  bytes_of_string (NilZero.string_of_uint (N.to_uint n)).

(** Removes up to [fuel] trailing zeros of the mantissa. *)
Fixpoint strip_zeros (fuel : nat) (m : N) (e : Z) : N * Z :=
  match fuel with
  | O => (m, e)
  | S k => if (m mod 10 =? 0)%N then strip_zeros k (m / 10)%N (e + 1)%Z
           else (m, e)
  end.

(** The binary64 value nearest to the positive rational [num / den], ties
    to even, as the pair [(q, k)] that stands for [q * 2^k]: [q] has 53 bits
    ([2^52 <= q < 2^53]) for a normal value, and fewer with [k = -1074] for a
    subnormal one.  The quotient must lie below the overflow boundary. *)
Definition binary64 (num den : Z) : Z * Z :=
  let lg0 := (Z.log2 num - Z.log2 den)%Z in
  let below :=
    if (0 <=? lg0)%Z then (num <? den * 2 ^ lg0)%Z
    else (num * 2 ^ (- lg0) <? den)%Z in
  let lg := if below then (lg0 - 1)%Z else lg0 in
  let k := Z.max (lg - 52) (-1074) in
  let n := (num * 2 ^ Z.max (- k) 0)%Z in
  let d := (den * 2 ^ Z.max k 0)%Z in
  let q := (n / d)%Z in
  let r := (n mod d)%Z in
  let q' := if (d <? 2 * r)%Z || ((d =? 2 * r)%Z && Z.odd q)
            then (q + 1)%Z else q in
  if (q' =? 2 ^ 53)%Z then (2 ^ 52, k + 1)%Z else (q', k).

(** The decimal [s * 10^j] against the binary64 value [q * 2^k]: in units
    of [2^(k-2) / scale_bin k j] the decimal is [s * scale_dec k j], the
    value [4 * q * scale_bin k j], and the points half way to the neighbours
    of the value lie [gap_below q k * scale_bin k j] under it and
    [2 * scale_bin k j] over it (the neighbour under a power of two is at
    half the distance). *)
Definition scale_dec (k j : Z) : Z := (10 ^ Z.max j 0 * 2 ^ Z.max (2 - k) 0)%Z.
Definition scale_bin (k j : Z) : Z := (10 ^ Z.max (- j) 0 * 2 ^ Z.max (k - 2) 0)%Z.

Definition gap_below (q k : Z) : Z :=
  if (q =? 2 ^ 52)%Z && (-1074 <? k)%Z then 1%Z else 2%Z.

(** Whether the decimal [s * 10^j] rounds to the value [q * 2^k]: it lies
    between the two half-way points, which count when [q] is even. *)
Definition rounds_to (q k s j : Z) : bool :=
  let lo := ((4 * q - gap_below q k) * scale_bin k j)%Z in
  let hi := ((4 * q + 2) * scale_bin k j)%Z in
  let x := (s * scale_dec k j)%Z in
  if Z.even q then (lo <=? x)%Z && (x <=? hi)%Z
  else (lo <? x)%Z && (x <? hi)%Z.

(** Of [s * 10^j] and [(s + 1) * 10^j], the one nearer to the value, the
    even one when they are as near. *)
Definition nearer (q k s j : Z) : Z :=
  let v := (4 * q * scale_bin k j)%Z in
  let under := (v - s * scale_dec k j)%Z in
  let over := ((s + 1) * scale_dec k j - v)%Z in
  if (under <? over)%Z then s
  else if (over <? under)%Z then (s + 1)%Z
  else if Z.even s then s else (s + 1)%Z.

(** The digits of Number::toString for the binary64 value [q * 2^k]: the
    decimal [s * 10^j] with the fewest digits that rounds to the value, and
    among those the nearest to it.  The multiples of [10^j] on either side of
    the value are tried for decreasing [j]; were the fuel to run out, the
    exact decimal expansion of the value is the answer. *)
Fixpoint shortest_from (fuel : nat) (q k j : Z) : Z * Z :=
  match fuel with
  | O => if (0 <=? k)%Z then (q * 2 ^ k, 0)%Z else (q * 5 ^ (- k), k)%Z
  | S fuel' =>
    let s := (4 * q * scale_bin k j / scale_dec k j)%Z in
    match rounds_to q k s j, rounds_to q k (s + 1) j with
    | true, true => (nearer q k s j, j)
    | true, false => (s, j)
    | false, true => ((s + 1)%Z, j)
    | false, false => shortest_from fuel' q k (j - 1)%Z
    end
  end.

(** The search starts above the decimal exponent of the value, which
    [log2] bounds, and ends at 17 digits at the latest. *)
Definition shortest (q k : Z) : Z * Z :=
  shortest_from 40 q k ((Z.log2 q + k + 1) * 30103 / 100000 + 2)%Z.

(** The number denoted by the decimal literal [m * 10^e]: Infinity from the
    rounding boundary [2^1024 - 2^970] on, zero up to [2^-1075], otherwise
    the nearest binary64 value, written with exponent 0 when it is an integer
    and with no trailing zero after the decimal point when it is not.  The
    first two tests only keep the powers below small: they decide the
    literals that are far beyond either boundary from the size of [m], with
    a bound under and a bound over the decimal exponent of the literal. *)
Definition decimal (neg : bool) (m : N) (e : Z) : Number :=
  if (m =? 0)%N then Fin neg 0 0
  else
    let under := (e + Z.log2 (Z.of_N m) * 30102 / 100000)%Z in
    let over := (e + (Z.log2 (Z.of_N m) + 1) * 30103 / 100000 + 1)%Z in
    if (310 <? under)%Z then Inf neg
    else if (over <? -330)%Z then Fin neg 0 0
    else
      let num := (Z.of_N m * 10 ^ Z.max e 0)%Z in
      let den := (10 ^ Z.max (- e) 0)%Z in
      if ((2 ^ 1024 - 2 ^ 970) * den <=? num)%Z then Inf neg
      else if (num * 2 ^ 1075 <=? den)%Z then Fin neg 0 0
      else
        let (q, k) := binary64 num den in
        let (s, j) := shortest q k in
        if (0 <=? j)%Z then Fin neg (Z.to_N (s * 10 ^ j)) 0
        else let (m', e') := strip_zeros (Z.to_nat (- j)) (Z.to_N s) j in
             Fin neg m' e'.

Definition num_of_Z (z : Z) : Number := decimal (z <? 0)%Z (Z.abs_N z) 0.

Definition take_sign (s : jsstring) : bool * jsstring :=
  match s with
  | c :: r => if (c =? 45)%N then (true, r)
              else if (c =? 43)%N then (false, r) else (false, s)
  | [] => (false, [])
  end.

Fixpoint span (p : N -> bool) (s : jsstring) : jsstring * jsstring :=
  match s with
  | c :: r => if p c then let (a, b) := span p r in (c :: a, b) else ([], s)
  | [] => ([], [])
  end.

(** [parseFloat]: the longest prefix, after leading white space, that is a
    decimal literal; NaN when there is none. *)
Definition parseFloat (s : jsstring) : Number :=
  let s0 := dropWhile is_space s in
  let (neg, s1) := take_sign s0 in
  if startsWith s1 (js "Infinity") then Inf neg
  else
    let (ip, s2) := span is_digit s1 in
    let (fp, s3) :=
      match s2 with
      | c :: r => if (c =? 46)%N then span is_digit r else ([], s2)
      | [] => ([], s2)
      end in
    match ip ++ fp with
    | [] => NaN
    | ds =>
      let ex :=
        match s3 with
        | c :: r =>
          if ((c =? 101) || (c =? 69))%N then
            let (eneg, r1) := take_sign r in
            let (ed, _) := span is_digit r1 in
            match ed with
            | [] => 0%Z
            | _ => if eneg then (- Z.of_N (digits_to_N ed))%Z
                   else Z.of_N (digits_to_N ed)
            end
          else 0%Z
        | [] => 0%Z
        end in
      decimal neg (digits_to_N ds) (ex - Z.of_nat (length fp))
    end.

Definition is_hex (c : N) : bool :=
  (is_digit c || (65 <=? c) && (c <=? 70) || (97 <=? c) && (c <=? 102))%N.

Definition hex_to_N (ds : jsstring) : N :=
  fold_left (fun acc c =>
    (acc * 16 + (if is_digit c then c - 48
                 else if (c <=? 70) then c - 55 else c - 87))%N) ds 0%N.

(** [parseInt] without a radix: leading white space, a sign, a [0x] prefix
    for base 16, then the digits; NaN ([None]) when there is no digit.  The
    value is kept exact. *)
Definition parseInt (s : jsstring) : option Z :=
  let s0 := dropWhile is_space s in
  let (neg, s1) := take_sign s0 in
  let sign := fun v : N => if neg then (- Z.of_N v)%Z else Z.of_N v in
  match s1 with
  | a :: b :: r =>
    if ((a =? 48) && ((b =? 120) || (b =? 88)))%N then
      match fst (span is_hex r) with
      | [] => None
      | ds => Some (sign (hex_to_N ds))
      end
    else
      match fst (span is_digit s1) with
      | [] => None
      | ds => Some (sign (digits_to_N ds))
      end
  | _ =>
    match fst (span is_digit s1) with
    | [] => None
    | ds => Some (sign (digits_to_N ds))
    end
  end.

Definition Z_to_digits (z : Z) : jsstring :=
  (if (z <? 0)%Z then js "-" else []) ++ N_to_digits (Z.abs_N z).

(** Number::toString in base 10, on the digits [ds] of the mantissa and the
    position [n] of the decimal point. *)
Definition num_toString (x : Number) : jsstring :=
  match x with
  | NaN => js "NaN"
  | Inf neg => (if neg then js "-" else []) ++ js "Infinity"
  | Fin neg m e =>
    if (m =? 0)%N then js "0"
    else
      let (m', e') := strip_zeros (length (N_to_digits m)) m e in
      let ds := N_to_digits m' in
      let k := Z.of_nat (length ds) in
      let n := (e' + k)%Z in
      (if neg then js "-" else []) ++
      if ((k <=? n) && (n <=? 21))%Z then
        ds ++ repeat 48%N (Z.to_nat (n - k))
      else if ((0 <? n) && (n <=? 21))%Z then
        firstn (Z.to_nat n) ds ++ js "." ++ skipn (Z.to_nat n) ds
      else if ((-6 <? n) && (n <=? 0))%Z then
        js "0." ++ repeat 48%N (Z.to_nat (- n)) ++ ds
      else
        let ex := (if (n - 1 <? 0)%Z then js "-" else js "+")
                  ++ N_to_digits (Z.abs_N (n - 1)) in
        match ds with
        | [d] => [d] ++ js "e" ++ ex
        | d :: rest => [d] ++ js "." ++ rest ++ js "e" ++ ex
        | [] => []
        end
  end.

(** ** Values *)

Inductive JSValue :=
| VUndefined
| VNull
| VBool (b : bool)
| VNum (n : Number)
| VStr (s : jsstring).

(** ToBoolean *)
Definition truthy (v : JSValue) : bool :=
  match v with
  | VUndefined | VNull => false
  | VBool b => b
  | VNum n => num_truthy n
  | VStr s => match s with [] => false | _ => true end
  end.

(** ToString, as applied by template literals and by [+] with a string. *)
Definition ToString (v : JSValue) : jsstring :=
  match v with
  | VUndefined => js "undefined"
  | VNull => js "null"
  | VBool true => js "true"
  | VBool false => js "false"
  | VNum n => num_toString n
  | VStr s => s
  end.

(** ** Exceptions and promises *)

(** What a [throw] statement carries: an [Error] object, given by its [name]
    and its [message], or a value that is not an object. *)
Inductive Exn :=
| ErrorObject (name message : jsstring)
| Thrown (v : JSValue).

(** [`${error}`] in a template literal.  [Error.prototype.toString] gives
    the name alone when the message is empty, the message alone when the name
    is empty, and otherwise both with a colon between them; a value that is
    not an object is printed by ToString. *)
Definition Exn_toString (e : Exn) : jsstring :=
  match e with
  | ErrorObject name message =>
    match name, message with
    | [], _ => message
    | _, [] => name
    | _, _ => name ++ js ": " ++ message
    end
  | Thrown v => ToString v
  end.

Inductive Completion (A : Type) :=
| Normal (a : A)
| Throw (e : Exn).
Arguments Normal {A} a.
Arguments Throw {A} e.

(** The settled state of a promise. *)
Inductive Promise (A : Type) :=
| Resolved (a : A)
| Rejected (e : Exn).
Arguments Resolved {A} a.
Arguments Rejected {A} e.

(** ** Dates *)

Local Open Scope Z_scope.

Definition msPerDay : Z := 86400000.

(** Day number (days since 1 January 1970) of a date of the proleptic
    Gregorian calendar, [m] from 1 to 12. *)
Definition days_from_civil (y m d : Z) : Z :=
  let y' := if m <=? 2 then y - 1 else y in
  let era := y' / 400 in
  let yoe := y' - era * 400 in
  let doy := (153 * (if 2 <? m then m - 3 else m + 9) + 2) / 5 + d - 1 in
  let doe := yoe * 365 + yoe / 4 - yoe / 100 + doy in
  era * 146097 + doe - 719468.

(** Year within the 400-year era, month (1 to 12) and day of the month of the
    day [doe] of the era, which starts on a 1 March. *)
Definition civil_of_doe (doe : Z) : Z * Z * Z :=
  let yoe := (doe - doe / 1460 + doe / 36524 - doe / 146096) / 365 in
  let doy := doe - (365 * yoe + yoe / 4 - yoe / 100) in
  let mp := (5 * doy + 2) / 153 in
  let d := doy - (153 * mp + 2) / 5 + 1 in
  let m := if mp <? 10 then mp + 3 else mp - 9 in
  (yoe + (if m <=? 2 then 1 else 0), m, d).

(** Year, month (1 to 12) and day of the month of a day number. *)
Definition civil_from_days (z : Z) : Z * Z * Z :=
  let z' := z + 719468 in
  let era := z' / 146097 in
  let '(y, m, d) := civil_of_doe (z' - era * 146097) in
  (y + era * 400, m, d).

(** MakeDay: the month is counted from 0 and, like the day, may lie outside
    its range; both carry over. *)
Definition MakeDay (year month date : Z) : Z :=
  days_from_civil (year + month / 12) (month mod 12 + 1) 1 + date - 1.

(** TimeClip *)
Definition TimeClip (t : Z) : option Z :=
  if Z.abs t <=? 8640000000000000 then Some t else None.

Section LocalTime.

(** Offset of local time from UTC, in minutes (330 for India). *)
Variable tz : Z.

(** [new Date(year, month, day)]: local midnight of that day; years 0 to 99
    stand for 1900 to 1999. *)
Definition Date_of_fields (year month date : option Z) : option Z :=
  match year, month, date with
  | Some y, Some m, Some d =>
    let yr := if (0 <=? y) && (y <=? 99) then 1900 + y else y in
    TimeClip (MakeDay yr m d * msPerDay - tz * 60000)
  | _, _, _ => None
  end.

Definition local_day (t : Z) : Z := (t + tz * 60000) / msPerDay.

Definition getFullYear (t : Z) : Z := fst (fst (civil_from_days (local_day t))).
Definition getMonth (t : Z) : Z := snd (fst (civil_from_days (local_day t))) - 1.
Definition getDate (t : Z) : Z := snd (civil_from_days (local_day t)).

End LocalTime.

Definition pad (width : nat) (z : Z) : jsstring :=
  let ds := N_to_digits (Z.abs_N z) in
  repeat 48%N (width - length ds)%nat ++ ds.

(** The date part of the ISO format: four digits for the years 0 to 9999,
    a sign and six digits for the others. *)
Definition iso_date (y m d : Z) : jsstring :=
  (if (0 <=? y) && (y <=? 9999) then pad 4 y
   else (if y <? 0 then js "-" else js "+") ++ pad 6 y)
  ++ js "-" ++ pad 2 m ++ js "-" ++ pad 2 d.

(** [toISOString] of a valid time value: the fields are those of UTC. *)
Definition toISOString (t : Z) : jsstring :=
  let '(y, m, d) := civil_from_days (t / msPerDay) in
  let ms := t mod msPerDay in
  iso_date y m d
  ++ js "T" ++ pad 2 (ms / 3600000) ++ js ":" ++ pad 2 (ms / 60000 mod 60)
  ++ js ":" ++ pad 2 (ms / 1000 mod 60) ++ js "." ++ pad 3 (ms mod 1000)
  ++ js "Z".

(** [x.split('T')[0]] *)
Definition before_T (s : jsstring) : jsstring := hd [] (split (cu "T") s).

Definition monthNames : list jsstring :=
  map js ["jan"; "feb"; "mar"; "apr"; "may"; "jun";
          "jul"; "aug"; "sep"; "oct"; "nov"; "dec"]%string.

(** [arr.findIndex(f)], [None] for -1. *)
Fixpoint findIndex {A} (f : A -> bool) (l : list A) : option nat :=
  match l with
  | [] => None
  | x :: r => if f x then Some O
              else match findIndex f r with Some i => Some (S i) | None => None end
  end.

(** The month-name form of the legacy date parser that V8, SpiderMonkey and
    JavaScriptCore share: [Mon D, YYYY] is local midnight of that day.  The
    language leaves the parsing of such strings to the host, so the code
    below takes the host's [Date.parse] as a parameter; this instance is used
    where a statement is evaluated on a month-name date, and answers NaN on
    every other string. *)
Definition Date_parse_month_name (tz : Z) (s : jsstring) : option Z :=
  let p : re (jsstring * jsstring * jsstring) :=
    mon <- rep is_alpha 3 None ;; plus is_space ;;
    day <- rep is_digit 1 (Some 2%nat) ;; re_opt (lit (js ",")) [] ;;
    plus is_space ;;
    year <- rep is_digit 4 (Some 4%nat) ;; re_end ;;
    re_ret (mon, day, year) in
  match first_match (p (trim s)) with
  | Some ((mon, day, year), _) =>
    match findIndex (fun m => startsWith (toLowerCase mon) m) monthNames with
    | Some i =>
      let d := Z.of_N (digits_to_N day) in
      if (1 <=? d) && (d <=? 31)
      then Date_of_fields tz (Some (Z.of_N (digits_to_N year)))
                          (Some (Z.of_nat i)) (Some d)
      else None
    | None => None
    end
  | None => None
  end.

End JS.

(* ================================================================== *)
(** * utils/fileProcessor: the generic CSV / Excel / PDF pipeline *)
(* ================================================================== *)

(** The chain of keyword tests that the categorizers of this repository
    share: each test is [text.includes(k1) || text.includes(k2) || ...] and
    returns its category; the tests are tried in order. *)
Module Keywords.
Import JS.

Definition any_of (text : jsstring) (keywords : list string) : bool :=
  existsb (fun k => includes text (js k)) keywords.

Definition Rule := (list string * string)%type.

Fixpoint first_rule (text : jsstring) (rules : list Rule) (fallback : string)
  : jsstring :=
  match rules with
  | [] => js fallback
  | (keywords, cat) :: rest =>
    if any_of text keywords then js cat else first_rule text rest fallback
  end.

Definition food : list string :=
  ["swiggy"; "zomato"; "restaurant"; "food"; "cafe"; "hotel"; "mcdonalds";
   "starbucks"; "dominos"]%string.
Definition travel : list string :=
  ["uber"; "ola"; "railway"; "flight"; "bus"; "metro"; "petrol"; "fuel";
   "parking"]%string.
Definition shopping : list string :=
  ["amazon"; "flipkart"; "shopping"; "mall"; "store"; "market"]%string.
Definition bills : list string :=
  ["electricity"; "water"; "gas"; "airtel"; "jio"; "bill"; "recharge";
   "mobile"]%string.
Definition entertainment : list string :=
  ["movie"; "cinema"; "netflix"; "spotify"; "game"; "concert"]%string.
Definition health : list string :=
  ["pharmacy"; "hospital"; "doctor"; "medical"; "health"]%string.
Definition education : list string :=
  ["course"; "book"; "education"; "training"; "class"]%string.
Definition investment : list string :=
  ["investment"; "sip"; "mutual"; "stock"; "fd"; "deposit"]%string.

(** The tests of [fileProcessor], of the PhonePe, Google Pay and SuperMoney
    processors. *)
Definition keyword_rules : list Rule :=
  [(food, "Food"); (travel, "Travel"); (shopping, "Shopping");
   (bills, "Bills"); (entertainment, "Entertainment"); (health, "Health");
   (education, "Education"); (investment, "Investment")]%string.

(** The [Category] type of [types/index.ts]. *)
Definition Category : list jsstring :=
  map js ["Food"; "Travel"; "Shopping"; "Bills"; "Entertainment"; "Health";
          "Education"; "Investment"; "Miscellaneous"]%string.

Definition is_Category (c : jsstring) : bool := existsb (str_eqb c) Category.

End Keywords.

Module FileProcessor.
Import JS Keywords.
Local Open Scope Z_scope.

Record ProcessedTransaction := mkTransaction {
  date : jsstring;
  amount : Number;
  description : jsstring;
  category : jsstring;
  paymentMode : jsstring;
  merchant : jsstring
}.

(** The three arrays of a result; the processing loops push onto them. *)
Record ProcessingResult := mkResult {
  transactions : list ProcessedTransaction;
  errors : list jsstring;
  warnings : list jsstring
}.

Definition DATE_FORMATS : list jsstring :=
  map js ["dd/MM/yyyy"; "dd-MM-yyyy"; "dd.MM.yyyy"; "MM/dd/yyyy"; "MM-dd-yyyy";
          "yyyy-MM-dd"; "yyyy/MM/dd"; "dd/MM/yy"; "dd-MM-yy"; "MM/dd/yy";
          "MM-dd-yy"; "yy-MM-dd"; "yy/MM/dd"; "MMM dd, yyyy"; "dd MMM yyyy";
          "yyyy MMM dd"]%string.

Definition dateColumns : list jsstring :=
  map js ["date"; "dt"; "transaction_date"; "date_time"; "time"]%string.
Definition amountColumns : list jsstring :=
  map js ["amount"; "amt"; "debit"; "credit"; "transaction_amount"; "balance"]%string.
Definition descColumns : list jsstring :=
  map js ["description"; "desc"; "narration"; "remarks"; "particulars";
          "transaction_details"]%string.

(** [/^(Date|Dt|D):\s*/i] *)
Definition re_date_label : re jsstring :=
  re_alts [lit_i (js "Date"); lit_i (js "Dt"); lit_i (js "D")] ;;
  lit (js ":") ;; star is_space.

(** [/[\/\-\.]/g] *)
Definition re_date_separator : re jsstring := one (in_set (js "/-.")).

(** [/[₹$€£,]/g] *)
Definition re_currency : re jsstring := one (in_set (js "₹$€£,")).

(** [/\s+/g] *)
Definition re_spaces : re jsstring := plus is_space.

(** [/[()DrCr]/g] *)
Definition re_markers : re jsstring := one (in_set (js "()DrCr")).

Definition lt_50 (n : option Z) : bool :=
  match n with Some v => v <? 50 | None => false end.

Section Host.

(** Offset of the host's local time from UTC in minutes, and the host's
    [Date.parse] on a string ([None] for NaN). *)
Variable tz : Z.
Variable Date_parse : jsstring -> option Z.

(** The body of the loop of [parseDate] for one entry of [DATE_FORMATS];
    [None] when the iteration falls through to the next entry.  No statement
    of the body can throw, so its [try] is not rendered. *)
Definition try_format (cleanDateStr format : jsstring) : option jsstring :=
  let normalizedStr := replace_all re_date_separator (js "/") cleanDateStr in
  match split (cu "/") normalizedStr with
  | [p0; p1; p2] =>
    let '(day, month, year) :=
      if startsWith format (js "dd") then (p0, p1, p2)
      else if startsWith format (js "MM") then (p1, p0, p2)
      else (p2, p1, p0) in
    let year :=
      if (length year =? 2)%nat
      then (if lt_50 (parseInt year) then js "20" ++ year else js "19" ++ year)
      else year in
    let parsedDate :=
      Date_of_fields tz (parseInt year)
                     (option_map (fun m => m - 1) (parseInt month))
                     (parseInt day) in
    match parsedDate, parseInt year with
    | Some t, Some y =>
      if getFullYear tz t =? y then Some (before_T (toISOString t)) else None
    | _, _ => None
    end
  | _ => None
  end.

Fixpoint try_formats (cleanDateStr : jsstring) (formats : list jsstring)
  : option jsstring :=
  match formats with
  | [] => None
  | format :: rest =>
    match try_format cleanDateStr format with
    | Some d => Some d
    | None => try_formats cleanDateStr rest
    end
  end.

(** [parseDate]: [None] is [null]. *)
Definition parseDate (dateStr : JSValue) : option jsstring :=
  match dateStr with
  | VStr ((_ :: _) as s) =>
    let cleanDateStr := replace_anchored re_date_label [] (trim s) in
    match try_formats cleanDateStr DATE_FORMATS with
    | Some d => Some d
    | None =>
      match Date_parse cleanDateStr with
      | Some t => Some (before_T (toISOString t))
      | None => None
      end
    end
  | _ => None
  end.

(** [parseAmount]: [None] is [null]. *)
Definition parseAmount (amountStr : JSValue) : option Number :=
  match amountStr with
  | VStr ((_ :: _) as s) =>
    let cleanAmount :=
      trim (replace_all re_spaces [] (replace_all re_currency [] s)) in
    let isNegative :=
      includes cleanAmount (js "-") || includes cleanAmount (js "(")
      || includes cleanAmount (js "Dr") in
    let numericAmount := parseFloat (replace_all re_markers [] cleanAmount) in
    if isNaN numericAmount then None
    else Some (if isNegative then neg_num (Math_abs numericAmount)
               else Math_abs numericAmount)
  | _ => None
  end.

(** [a || b] *)
Definition or_else (a b : JSValue) : JSValue := if truthy a then a else b.

Definition categorizeTransaction (description merchant : JSValue) : jsstring :=
  let text :=
    toLowerCase (ToString description ++ js " "
                 ++ ToString (or_else merchant (VStr []))) in
  first_rule text keyword_rules "Miscellaneous".

(** ToBoolean of the results of the two parsers. *)
Definition date_ok (d : option jsstring) : bool :=
  match d with Some (_ :: _) => true | _ => false end.

Definition amount_ok (a : option Number) : bool :=
  match a with Some n => num_truthy n | None => false end.

Definition TypeError (message : string) : Exn :=
  ErrorObject (js "TypeError") (js message).

(** [description.split(' ')[0]]: only strings have a [split] method. *)
Definition split_first (description : JSValue) : Completion jsstring :=
  match description with
  | VStr s => Normal (hd [] (split (cu " ") s))
  | VUndefined =>
    Throw (TypeError "Cannot read properties of undefined (reading 'split')")
  | VNull =>
    Throw (TypeError "Cannot read properties of null (reading 'split')")
  | _ => Throw (TypeError "description.split is not a function")
  end.

(** ["${v}"] inside a template literal: the value between double quotes. *)
Definition quoted (v : JSValue) : jsstring := [34%N] ++ ToString v ++ [34%N].

Definition row_label (n : nat) : jsstring :=
  js "Row " ++ N_to_digits (N.of_nat n).

Definition push {A} (l : list A) (x : A) : list A := l ++ [x].

(** The statements that [processCSV] and [processExcel] run on the three
    cells of a row inside their [try] block, from the calls of the parsers to
    the push of the transaction; [n] is the number printed for the row.  The
    result is the state of the three arrays when the block is left, and the
    exception if it is left by one. *)
Definition processRow (n : nat) (dateStr amountStr description : JSValue)
                      (acc : ProcessingResult) : ProcessingResult * option Exn :=
  let date := parseDate dateStr in
  let amount := parseAmount amountStr in
  let acc :=
    if date_ok date then acc
    else mkResult (transactions acc) (errors acc)
           (push (warnings acc)
              (row_label n ++ js ": Could not parse date " ++ quoted dateStr)) in
  let acc :=
    if amount_ok amount then acc
    else mkResult (transactions acc) (errors acc)
           (push (warnings acc)
              (row_label n ++ js ": Could not parse amount "
               ++ quoted amountStr)) in
  match date, amount with
  | Some d, Some a =>
    if date_ok date && amount_ok amount then
      match split_first description with
      | Normal first =>
        (mkResult
           (push (transactions acc)
              (mkTransaction d a
                 (ToString (or_else description (VStr (js "Unknown transaction"))))
                 (categorizeTransaction description VUndefined)
                 (js "UPI")
                 (match first with [] => js "Unknown" | _ => first end)))
           (errors acc) (warnings acc), None)
      | Throw e => (acc, Some e)
      end
    else (acc, None)
  | _, _ => (acc, None)
  end.

(** [catch (error) { errors.push(`Row ${n}: ${error}`) }] *)
Definition catch_row (n : nat) (r : ProcessingResult * option Exn)
  : ProcessingResult :=
  match r with
  | (acc, None) => acc
  | (acc, Some e) =>
    mkResult (transactions acc)
             (push (errors acc) (row_label n ++ js ": " ++ Exn_toString e))
             (warnings acc)
  end.

(** *** processCSV *)

(** A row object made by Papa Parse with [header: true]: the header names
    as written in the file, each with the cell of the row. *)
Definition Row := list (jsstring * JSValue).

(** [row[col]] *)
Definition get (row : Row) (col : jsstring) : JSValue :=
  match find (fun kv => str_eqb (fst kv) col) row with
  | Some kv => snd kv
  | None => VUndefined
  end.

(** [for (const col of cols) { if (row[col]) { x = row[col]; break; } }],
    with [x] initially the empty string. *)
Fixpoint first_present (row : Row) (cols : list jsstring) : JSValue :=
  match cols with
  | [] => VStr []
  | col :: rest =>
    if truthy (get row col) then get row col else first_present row rest
  end.

(** The callback given to [results.data.forEach]. *)
Definition csv_row (acc : ProcessingResult) (row : Row) (index : nat)
  : ProcessingResult :=
  let dateStr := first_present row dateColumns in
  let amountStr := first_present row amountColumns in
  let description := first_present row descColumns in
  catch_row (index + 1) (processRow (index + 1) dateStr amountStr description acc).

Fixpoint forEach {A B} (f : B -> A -> nat -> B) (l : list A) (index : nat)
                 (acc : B) : B :=
  match l with
  | [] => acc
  | x :: rest => forEach f rest (S index) (f acc x index)
  end.

(** The [complete] callback. *)
Definition csv_complete (data : list Row) : ProcessingResult :=
  forEach csv_row data 0%nat (mkResult [] [] []).

(** What Papa Parse does with the file: it calls [complete] with the rows,
    calls [error], or throws while the promise's executor runs. *)
Inductive PapaOutcome :=
| PapaComplete (data : list Row)
| PapaError (message : jsstring)
| PapaThrows (e : Exn).

Definition processCSV (o : PapaOutcome) : Promise ProcessingResult :=
  match o with
  | PapaComplete data => Resolved (csv_complete data)
  | PapaError message =>
    Resolved (mkResult [] [js "CSV parsing error: " ++ message] [])
  | PapaThrows e => Rejected e
  end.

(** Papa Parse with [header: true] and [skipEmptyLines: true] on a text
    without quotes: the first non-empty line gives the field names, each later
    non-empty line becomes an object with one property per field it has. *)
Definition csv_lines (text : jsstring) : list jsstring :=
  filter (fun l => match l with [] => false | _ => true end)
         (map (fun l => rev (dropWhile (N.eqb 13) (rev l))) (split 10 text)).

Definition papa_unquoted (text : jsstring) : PapaOutcome :=
  match csv_lines text with
  | [] => PapaComplete []
  | header :: records =>
    PapaComplete
      (map (fun l => combine (split (cu ",") header)
                             (map VStr (split (cu ",") l)))
           records)
  end.

(** *** processExcel *)

(** [h && cols.some(c => h.toLowerCase().includes(c))] *)
Definition header_matches (cols : list jsstring) (h : JSValue) : Completion bool :=
  if truthy h then
    match h with
    | VStr s => Normal (existsb (fun c => includes (toLowerCase s) c) cols)
    | _ => Throw (TypeError "h.toLowerCase is not a function")
    end
  else Normal false.

(** [headers.findIndex(...)]; [None] is -1. *)
Fixpoint findColumn (cols : list jsstring) (headers : list JSValue)
  : Completion (option nat) :=
  match headers with
  | [] => Normal None
  | h :: rest =>
    match header_matches cols h with
    | Throw e => Throw e
    | Normal true => Normal (Some O)
    | Normal false =>
      match findColumn cols rest with
      | Normal (Some i) => Normal (Some (S i))
      | other => other
      end
    end
  end.

(** [ix >= 0 ? row[ix] : ''] *)
Definition cell (ix : option nat) (row : list JSValue) : JSValue :=
  match ix with
  | Some i => nth i row VUndefined
  | None => VStr []
  end.

Definition warn_missing (ix : option nat) (what : string) (acc : ProcessingResult)
  : ProcessingResult :=
  match ix with
  | Some _ => acc
  | None =>
    mkResult (transactions acc) (errors acc)
             (push (warnings acc) (js "Could not find " ++ js what ++ js " column"))
  end.

(** The body of the loop over the data rows; [i] is the index in [jsonData]. *)
Definition excel_row (dateColIndex amountColIndex descColIndex : option nat)
           (acc : ProcessingResult) (row : list JSValue) (i : nat)
  : ProcessingResult :=
  match row with
  | [] => acc
  | _ =>
    catch_row (i + 1)
      (processRow (i + 1) (cell dateColIndex row) (cell amountColIndex row)
                  (cell descColIndex row) acc)
  end.

(** What the spreadsheet library does with the bytes: it throws, or
    [sheet_to_json] with [header: 1] gives the rows as arrays of cells. *)
Inductive SheetOutcome :=
| SheetThrows (e : Exn)
| SheetRows (jsonData : list (list JSValue)).

(** The [try] block of [reader.onload]. *)
Definition excel_onload (o : SheetOutcome) : Completion ProcessingResult :=
  match o with
  | SheetThrows e => Throw e
  | SheetRows jsonData =>
    match jsonData with
    | headers :: ((_ :: _) as rows) =>
      match findColumn dateColumns headers with
      | Throw e => Throw e
      | Normal dateColIndex =>
        match findColumn amountColumns headers with
        | Throw e => Throw e
        | Normal amountColIndex =>
          match findColumn descColumns headers with
          | Throw e => Throw e
          | Normal descColIndex =>
            let acc := mkResult [] [] [] in
            let acc := warn_missing dateColIndex "date" acc in
            let acc := warn_missing amountColIndex "amount" acc in
            let acc := warn_missing descColIndex "description" acc in
            Normal (forEach (excel_row dateColIndex amountColIndex descColIndex)
                            rows 1%nat acc)
          end
        end
      end
    | _ =>
      Normal (mkResult []
        [js "Excel file must have at least a header row and one data row"] [])
    end
  end.

(** What the [FileReader] does: [onerror], or [onload] with the bytes, on
    which the spreadsheet library then runs. *)
Inductive ReaderOutcome :=
| ReaderError
| ReaderLoad (sheet : SheetOutcome).

Definition processExcel (o : ReaderOutcome) : Promise ProcessingResult :=
  match o with
  | ReaderError => Resolved (mkResult [] [js "Failed to read Excel file"] [])
  | ReaderLoad sheet =>
    match excel_onload sheet with
    | Normal r => Resolved r
    | Throw e =>
      Resolved (mkResult [] [js "Excel processing error: " ++ Exn_toString e] [])
    end
  end.

(** *** processPDF *)

Definition processPDF : Promise ProcessingResult :=
  Resolved (mkResult []
    [js "PDF processing requires Python backend setup"]
    [js "Please use the dedicated PhonePe Processor or set up the Python backend as described in BACKEND_INTEGRATION.md"]).

(** *** processFile *)

(** A [File]: its name and media type, and what the two readers make of its
    content. *)
Record File := mkFile {
  name : jsstring;
  type : jsstring;
  papa : PapaOutcome;
  reader : ReaderOutcome
}.

Inductive Route := RouteCSV | RouteExcel | RoutePDF | RouteUnsupported.

Definition route (file : File) : Route :=
  let fileType := type file in
  let fileName := toLowerCase (name file) in
  if str_eqb fileType (js "text/csv") || endsWith fileName (js ".csv")
  then RouteCSV
  else if includes fileType (js "excel") || includes fileType (js "spreadsheet")
          || endsWith fileName (js ".xlsx") || endsWith fileName (js ".xls")
  then RouteExcel
  else if str_eqb fileType (js "application/pdf") || endsWith fileName (js ".pdf")
  then RoutePDF
  else RouteUnsupported.

(** [try { return await p } catch (error) { return failed }] *)
Definition try_await {A} (p : Promise A) (handler : Exn -> A) : Promise A :=
  match p with
  | Resolved a => Resolved a
  | Rejected e => Resolved (handler e)
  end.

Definition processFile (file : File) : Promise ProcessingResult :=
  try_await
    match route file with
    | RouteCSV => processCSV (papa file)
    | RouteExcel => processExcel (reader file)
    | RoutePDF => processPDF
    | RouteUnsupported =>
      Resolved (mkResult [] [js "Unsupported file type: " ++ type file] [])
    end
    (fun error =>
       mkResult [] [js "File processing failed: " ++ Exn_toString error] []).

End Host.
End FileProcessor.


(* ================================================================== *)
(** * components/FileUpload/PhonePeProcessor *)
(* ================================================================== *)

Module PhonePe.
Import JS Keywords.
Local Open Scope Z_scope.

Record PhonePeTransaction := mkPhonePe {
  date : jsstring;
  merchant : jsstring;
  type : jsstring;
  amount : jsstring
}.

(** [/([A-Za-z]{3}\s+\d{1,2},\s+\d{4})\s+Paid to\s+([\s\S]*?)\s+(DEBIT|CREDIT)\s+₹(\d+(?:\.\d{1,2})?)/g] *)
Definition pattern : re PhonePeTransaction :=
  date <- capture (rep is_alpha 3 (Some 3%nat) ;; plus is_space ;;
                   rep is_digit 1 (Some 2%nat) ;; lit (js ",") ;;
                   plus is_space ;; rep is_digit 4 (Some 4%nat)) ;;
  plus is_space ;; lit (js "Paid to") ;; plus is_space ;;
  merchant <- rep_lazy any_cu 0 None ;;
  plus is_space ;;
  type <- re_alt (lit (js "DEBIT")) (lit (js "CREDIT")) ;;
  plus is_space ;; lit (js "₹") ;;
  amount <- capture (plus is_digit ;;
                     re_opt (lit (js ".") ;; rep is_digit 1 (Some 2%nat)) []) ;;
  re_ret (mkPhonePe date merchant type amount).

Definition parsePhonePeTransactions (text : jsstring) : list PhonePeTransaction :=
  map (fun m =>
         mkPhonePe (trim (date m))
                   (trim (replace_all (plus is_space) (js " ") (merchant m)))
                   (type m)
                   (trim (amount m)))
      (exec_all pattern text).

Definition categorizeTransaction (merchant : jsstring) : jsstring :=
  first_rule (toLowerCase merchant) keyword_rules "Miscellaneous".

Section Host.

Variable Date_parse : jsstring -> option Z.

(** [new Date(dateStr)], then the date part of [toISOString]. *)
Definition parseDate (dateStr : jsstring) : option jsstring :=
  match Date_parse dateStr with
  | Some t => Some (before_T (toISOString t))
  | None => None
  end.

(** The function mapped over the matches in [processPhonePePDFClientSide]. *)
Definition toProcessed (tx : PhonePeTransaction) : FileProcessor.ProcessedTransaction :=
  FileProcessor.mkTransaction
    (match parseDate (date tx) with
     | Some ((_ :: _) as d) => d
     | _ => date tx
     end)
    (if str_eqb (type tx) (js "DEBIT") then neg_num (parseFloat (amount tx))
     else parseFloat (amount tx))
    (js "PhonePe " ++ type tx ++ js " to " ++ merchant tx)
    (categorizeTransaction (merchant tx))
    (js "UPI")
    (merchant tx).

(** What the [FileReader] does with the file: [onerror], or [onload] with the
    bytes, which are then decoded as UTF-8 text.  The calls of the React state
    setters are left out. *)
Inductive PdfRead :=
| PdfReadError
| PdfText (text : jsstring).

Definition processPhonePePDFClientSide (o : PdfRead)
  : Promise FileProcessor.ProcessingResult :=
  match o with
  | PdfReadError =>
    Resolved (FileProcessor.mkResult [] [js "Failed to read PDF file"] [])
  | PdfText text =>
    let transactions := parsePhonePeTransactions text in
    Resolved (FileProcessor.mkResult
      (map toProcessed transactions)
      []
      [js "Client-side processing used (limited accuracy)";
       js "For better results, set up the Python backend service";
       js "Found " ++ N_to_digits (N.of_nat (length transactions))
          ++ js " potential transactions"])
  end.

End Host.
End PhonePe.

(* ================================================================== *)
(** * The categorizers of the other per-app processors *)
(* ================================================================== *)

(** What the Google Pay, Paytm and SuperMoney processors have in common. *)
Module Apps.
Import JS.
Local Open Scope Z_scope.

(** [GPayTransaction], [PaytmTransaction], [SuperMoneyTransaction]: the four
    fields of a match, as text. *)
Record AppTransaction := mkApp {
  date : jsstring;
  merchant : jsstring;
  type : jsstring;
  amount : jsstring
}.

(** The [ProcessedTransaction] of the per-app processors, which carries the
    name of the app. *)
Record ProcessedTransaction := mkProcessed {
  p_date : jsstring;
  p_amount : Number;
  p_description : jsstring;
  p_category : jsstring;
  p_paymentMode : jsstring;
  p_merchant : jsstring;
  p_app : jsstring
}.

(** [s.replace(x, by)] with a search string of one code unit: the first
    occurrence only. *)
Fixpoint replace_first (x : N) (by_ : jsstring) (s : jsstring) : jsstring :=
  match s with
  | [] => []
  | c :: r => if (c =? x)%N then by_ ++ r else c :: replace_first x by_ r
  end.

(** The statements the three processors run on a [DD/MM/YYYY] text once it
    is split: [new Date(parseInt(year), parseInt(month) - 1, parseInt(day))]
    on the three pieces, and the date part of [toISOString] unless the time
    value is NaN. *)
Definition date_of_parts (tz : Z) (parts : list jsstring) : option jsstring :=
  match parts with
  | [day; month; year] =>
    match Date_of_fields tz (parseInt year)
                         (option_map (fun m => m - 1) (parseInt month))
                         (parseInt day) with
    | Some t => Some (before_T (toISOString t))
    | None => None
    end
  | _ => None
  end.

(** [toUpperCase] on a text of ASCII letters, which is all that the type
    group of a pattern can capture; other code units are left as they
    are. *)
Definition toUpperCase (s : jsstring) : jsstring :=
  map (fun c => if is_lower c then (c - 32)%N else c) s.

(** [[\d,]] *)
Definition digit_or_comma (c : N) : bool := is_digit c || (c =? 44)%N.

(** [([\d,]+(?:\.\d{1,2})?)] *)
Definition re_amount : re jsstring :=
  capture (plus digit_or_comma ;;
           re_opt (lit (js ".") ;; rep is_digit 1 (Some 2%nat)) []).

(** [\d{1,2}<sep>\d{1,2}<sep>\d{4}] *)
Definition re_numeric_date (sep : string) : re jsstring :=
  rep is_digit 1 (Some 2%nat) ;; lit (js sep) ;;
  rep is_digit 1 (Some 2%nat) ;; lit (js sep) ;;
  rep is_digit 4 (Some 4%nat).

(** [merchant.replace(/\s+/g, ' ').trim()] *)
Definition one_line (merchant : jsstring) : jsstring :=
  trim (replace_all (plus is_space) (js " ") merchant).

(** [parsedDate || tx.date] *)
Definition date_or_raw (parsedDate : option jsstring) (raw : jsstring) : jsstring :=
  match parsedDate with
  | Some ((_ :: _) as d) => d
  | _ => raw
  end.

(** [tx.type === 'DEBIT' ? -parseFloat(a) : parseFloat(a)] *)
Definition signed_amount (type a : jsstring) : Number :=
  if str_eqb type (js "DEBIT") then neg_num (parseFloat a) else parseFloat a.

End Apps.

Module GPay.
Import JS Keywords.

Definition categorizeTransaction (merchant : jsstring) : jsstring :=
  first_rule (toLowerCase merchant) keyword_rules "Other".

(** [/^([A-Za-z]{3})\s+(\d{1,2}),?\s+(\d{4})$/i] *)
Definition re_month_date : re (jsstring * jsstring * jsstring) :=
  monthStr <- rep is_alpha 3 (Some 3%nat) ;; plus is_space ;;
  day <- rep is_digit 1 (Some 2%nat) ;; re_opt (lit (js ",")) [] ;;
  plus is_space ;;
  year <- rep is_digit 4 (Some 4%nat) ;; re_end ;;
  re_ret (monthStr, day, year).

Section Host.

Variable tz : Z.

(** The month-name branch of [parseDate]; [None] when it falls through to
    the [DD/MM/YYYY] branch. *)
Definition month_date (dateStr : jsstring) : option jsstring :=
  match first_match (re_month_date dateStr) with
  | Some ((monthStr, day, year), _) =>
    match findIndex (fun m => startsWith (toLowerCase monthStr) m) monthNames with
    | Some monthIndex =>
      match Date_of_fields tz (parseInt year) (Some (Z.of_nat monthIndex))
                           (parseInt day) with
      | Some t => Some (before_T (toISOString t))
      | None => None
      end
    | None => None
    end
  | None => None
  end.

Definition parseDate (dateStr : jsstring) : option jsstring :=
  match month_date dateStr with
  | Some d => Some d
  | None => Apps.date_of_parts tz (split (cu "/") dateStr)
  end.

(** The function mapped over the matches: commas and rupee signs are taken
    out of the amount before [parseFloat]. *)
Definition toProcessed (tx : Apps.AppTransaction) : Apps.ProcessedTransaction :=
  let cleanAmount := replace_all (one (in_set (js ",₹"))) [] (Apps.amount tx) in
  Apps.mkProcessed
    (Apps.date_or_raw (parseDate (Apps.date tx)) (Apps.date tx))
    (Apps.signed_amount (Apps.type tx) cleanAmount)
    (Apps.merchant tx)
    (categorizeTransaction (Apps.merchant tx))
    (js "UPI")
    (Apps.merchant tx)
    (js "Google Pay").

End Host.

(** [/([A-Za-z]{3}\s+\d{1,2},\s+\d{4})\s+You\s+(paid|received)\s+([\s\S]*?)\s+₹([\d,]+(?:\.\d{1,2})?)/gi]:
    the date, the action, the merchant and the amount. *)
Definition pattern1 : re (jsstring * jsstring * jsstring * jsstring) :=
  date <- capture (rep is_alpha 3 (Some 3%nat) ;; plus is_space ;;
                   rep is_digit 1 (Some 2%nat) ;; lit (js ",") ;;
                   plus is_space ;; rep is_digit 4 (Some 4%nat)) ;;
  plus is_space ;; lit_i (js "You") ;; plus is_space ;;
  action <- re_alt (lit_i (js "paid")) (lit_i (js "received")) ;;
  plus is_space ;;
  merchant <- rep_lazy any_cu 0 None ;;
  plus is_space ;; lit (js "₹") ;;
  amount <- Apps.re_amount ;;
  re_ret (date, action, merchant, amount).

(** [/(\d{1,2}\/\d{1,2}\/\d{4})\s+(?:Sent to|Received from)\s+([\s\S]*?)\s+₹([\d,]+(?:\.\d{1,2})?)/gi]:
    the date, the merchant and the amount. *)
Definition pattern2 : re (jsstring * jsstring * jsstring) :=
  date <- capture (Apps.re_numeric_date "/") ;;
  plus is_space ;;
  re_alt (lit_i (js "Sent to")) (lit_i (js "Received from")) ;;
  plus is_space ;;
  merchant <- rep_lazy any_cu 0 None ;;
  plus is_space ;; lit (js "₹") ;;
  amount <- Apps.re_amount ;;
  re_ret (date, merchant, amount).

(** The matches of the first pattern, then those of the second, which are
    all taken as debits. *)
Definition parseGPayTransactions (text : jsstring) : list Apps.AppTransaction :=
  map (fun '(date, action, merchant, amount) =>
         Apps.mkApp (trim date) (Apps.one_line merchant)
                    (if str_eqb (toLowerCase action) (js "paid")
                     then js "DEBIT" else js "CREDIT")
                    (trim amount))
      (exec_all pattern1 text)
  ++ map (fun '(date, merchant, amount) =>
            Apps.mkApp (trim date) (Apps.one_line merchant) (js "DEBIT")
                       (trim amount))
         (exec_all pattern2 text).

End GPay.

Module SuperMoney.
Import JS Keywords.

Definition categorizeTransaction (merchant : jsstring) : jsstring :=
  first_rule (toLowerCase merchant) keyword_rules "Other".

Section Host.

Variable tz : Z.

(** [dateStr.replace('-', '/').split('/')]: a search string, so only the
    first dash is replaced. *)
Definition parseDate (dateStr : jsstring) : option jsstring :=
  Apps.date_of_parts tz
    (split (cu "/") (Apps.replace_first (cu "-") (js "/") dateStr)).

(** The function mapped over the matches. *)
Definition toProcessed (tx : Apps.AppTransaction) : Apps.ProcessedTransaction :=
  Apps.mkProcessed
    (Apps.date_or_raw (parseDate (Apps.date tx)) (Apps.date tx))
    (Apps.signed_amount (Apps.type tx) (Apps.amount tx))
    (Apps.merchant tx)
    (categorizeTransaction (Apps.merchant tx))
    (js "UPI")
    (Apps.merchant tx)
    (js "SuperMoney").

End Host.

(** The pattern, with the flags [gi]: the date
    [(\d{1,2}-\d{1,2}-\d{4}|\d{1,2}\/\d{1,2}\/\d{4})], [\s+], the merchant
    [([\s\S]*?)], [\s+], the type [(DR|CR|Debit|Credit)], [\s+], the
    currency (a rupee sign, or [Rs\.?], and white space if any) and the
    amount [([\d,]+(?:\.\d{1,2})?)]. *)
Definition pattern : re Apps.AppTransaction :=
  date <- capture (re_alt (Apps.re_numeric_date "-") (Apps.re_numeric_date "/")) ;;
  plus is_space ;;
  merchant <- rep_lazy any_cu 0 None ;;
  plus is_space ;;
  type <- re_alts [lit_i (js "DR"); lit_i (js "CR"); lit_i (js "Debit");
                   lit_i (js "Credit")] ;;
  plus is_space ;;
  re_alt (lit (js "₹") ;; star is_space)
         (lit_i (js "Rs") ;; re_opt (lit (js ".")) [] ;; star is_space) ;;
  amount <- Apps.re_amount ;;
  re_ret (Apps.mkApp date merchant type amount).

(** The type of a match in upper case, with [DR] and [CR] written out. *)
Definition normalizedType (type : jsstring) : jsstring :=
  let normalizedType := Apps.toUpperCase type in
  if str_eqb normalizedType (js "DR") || str_eqb normalizedType (js "DEBIT")
  then js "DEBIT"
  else if str_eqb normalizedType (js "CR") || str_eqb normalizedType (js "CREDIT")
  then js "CREDIT"
  else normalizedType.

Definition parseSuperMoneyTransactions (text : jsstring)
  : list Apps.AppTransaction :=
  map (fun m =>
         Apps.mkApp (trim (Apps.date m)) (Apps.one_line (Apps.merchant m))
                    (normalizedType (Apps.type m)) (trim (Apps.amount m)))
      (exec_all pattern text).

End SuperMoney.

Module Paytm.
Import JS Keywords.

(** As [keyword_rules], with one more keyword for Education. *)
Definition paytm_rules : list Rule :=
  [(food, "Food"); (travel, "Travel"); (shopping, "Shopping");
   (bills, "Bills"); (entertainment, "Entertainment"); (health, "Health");
   ((education ++ ["skverse"])%list, "Education");
   (investment, "Investment")]%string.

Definition categorizeTransaction (merchant : jsstring) : jsstring :=
  first_rule (toLowerCase merchant) paytm_rules "Other".

Section Host.

Variable tz : Z.
Variable Date_parse : jsstring -> option Z.

(** The [DD/MM/YYYY] branch when the text has a slash, the host's parser
    otherwise. *)
Definition parseDate (dateStr : jsstring) : option jsstring :=
  if includes dateStr (js "/") then
    Apps.date_of_parts tz (split (cu "/") dateStr)
  else
    match Date_parse dateStr with
    | Some t => Some (before_T (toISOString t))
    | None => None
    end.

(** The function mapped over the matches. *)
Definition toProcessed (tx : Apps.AppTransaction) : Apps.ProcessedTransaction :=
  Apps.mkProcessed
    (Apps.date_or_raw (parseDate (Apps.date tx)) (Apps.date tx))
    (Apps.signed_amount (Apps.type tx) (Apps.amount tx))
    (Apps.merchant tx ++ js " (Paytm)")
    (categorizeTransaction (Apps.merchant tx))
    (js "UPI")
    (Apps.merchant tx)
    (js "Paytm").

End Host.

(** The three code units that the source has in the place of the rupee sign
    (its UTF-8 bytes read in another encoding), under the [i] flag: U+201A,
    then U+00C7 or its lower case, then U+03C0 or another form of pi. *)
Definition re_garbled_rupee : re jsstring :=
  lit [8218%N] ;; one (in_set [199%N; 231%N]) ;;
  one (in_set [960%N; 928%N; 982%N]).

(** The pattern, with the flags [gi]: the date [(\d{1,2}\/\d{1,2}\/\d{4})],
    [\s+], the merchant [([\s\S]*?)], [\s+], the type
    [(Debit|Credit|DEBIT|CREDIT)], [\s+], the currency ([Rs\.?] or the three
    code units above, and white space if any) and the amount
    [([\d,]+(?:\.\d{1,2})?)]. *)
Definition pattern : re Apps.AppTransaction :=
  date <- capture (Apps.re_numeric_date "/") ;;
  plus is_space ;;
  merchant <- rep_lazy any_cu 0 None ;;
  plus is_space ;;
  type <- re_alts [lit_i (js "Debit"); lit_i (js "Credit"); lit_i (js "DEBIT");
                   lit_i (js "CREDIT")] ;;
  plus is_space ;;
  re_alt (lit_i (js "Rs") ;; re_opt (lit (js ".")) [] ;; star is_space)
         (re_garbled_rupee ;; star is_space) ;;
  amount <- Apps.re_amount ;;
  re_ret (Apps.mkApp date merchant type amount).

Definition parsePaytmTransactions (text : jsstring) : list Apps.AppTransaction :=
  map (fun m =>
         Apps.mkApp (trim (Apps.date m)) (Apps.one_line (Apps.merchant m))
                    (Apps.toUpperCase (Apps.type m)) (trim (Apps.amount m)))
      (exec_all pattern text).

End Paytm.

(* ================================================================== *)
(** * components/FileUpload/UniversalUPIProcessor: the field parsers *)
(* ================================================================== *)

Module Universal.
Import JS.
Local Open Scope Z_scope.

(** [/^(\w{3})\s+(\d{1,2}),?\s+(\d{4})$/i] *)
Definition re_month_first : re (jsstring * jsstring * jsstring) :=
  monthStr <- rep is_word 3 (Some 3%nat) ;; plus is_space ;;
  day <- rep is_digit 1 (Some 2%nat) ;; re_opt (lit (js ",")) [] ;;
  plus is_space ;;
  year <- rep is_digit 4 (Some 4%nat) ;; re_end ;;
  re_ret (monthStr, day, year).

(** [/^(\d{1,2})\s+(\w{3}),?\s+(\d{4})$/i] *)
Definition re_day_first : re (jsstring * jsstring * jsstring) :=
  day <- rep is_digit 1 (Some 2%nat) ;; plus is_space ;;
  monthStr <- rep is_word 3 (Some 3%nat) ;; re_opt (lit (js ",")) [] ;;
  plus is_space ;;
  year <- rep is_digit 4 (Some 4%nat) ;; re_end ;;
  re_ret (monthStr, day, year).

Definition formats : list jsstring :=
  map js ["dd/MM/yyyy"; "MM/dd/yyyy"; "yyyy-MM-dd"; "dd-MM-yyyy"]%string.

(** [/^(Amount|Amt|Debit|Credit):\s*/i] *)
Definition re_amount_label : re jsstring :=
  re_alts [lit_i (js "Amount"); lit_i (js "Amt"); lit_i (js "Debit");
           lit_i (js "Credit")] ;;
  lit (js ":") ;; star is_space.

(** [(rs\.?|inr|₹)] under the [i] flag *)
Definition re_currency_word : re jsstring :=
  re_alts [lit_i (js "rs") ;; re_opt (lit (js ".")) [];
           lit_i (js "inr"); lit (js "₹")].

(** [/^(rs\.?|inr|₹)\s*/i] *)
Definition re_currency_prefix : re jsstring := re_currency_word ;; star is_space.

(** [/\s*(rs\.?|inr|₹)$/i] *)
Definition re_currency_suffix : re unit :=
  star is_space ;; re_currency_word ;; re_end.

(** [/\s*cr\.?$/i] and [/\s*dr\.?$/i] *)
Definition re_suffix (word : string) : re unit :=
  star is_space ;; lit_i (js word) ;; re_opt (lit (js ".")) [] ;; re_end.

(** [/\s*(debit|credit|paid|received|balance|amount)$/i] *)
Definition re_word_suffix : re unit :=
  star is_space ;;
  re_alts (map (fun w => lit_i (js w))
               ["debit"; "credit"; "paid"; "received"; "balance"; "amount"]%string) ;;
  re_end.

(** [/dr|debit/gi] *)
Definition re_dr_debit : re jsstring := re_alt (lit_i (js "dr")) (lit_i (js "debit")).

Section Host.

Variable tz : Z.

(** The two month-name branches: the month is looked up by its first three
    letters and the date is returned when it is valid. *)
Definition month_name_date (m : option (jsstring * jsstring * jsstring * jsstring))
  : option jsstring :=
  match m with
  | Some (monthStr, day, year, _) =>
    match findIndex (fun m => startsWith (toLowerCase monthStr) m) monthNames with
    | Some monthIndex =>
      match Date_of_fields tz (parseInt year) (Some (Z.of_nat monthIndex))
                           (parseInt day) with
      | Some t => Some (before_T (toISOString t))
      | None => None
      end
    | None => None
    end
  | None => None
  end.

Definition eq_num (a : Z) (b : option Z) : bool :=
  match b with Some v => a =? v | None => false end.

(** The body of the loop over [formats]. *)
Definition try_format (cleanDateStr format : jsstring) : option jsstring :=
  let normalizedStr :=
    replace_all FileProcessor.re_date_separator (js "/") cleanDateStr in
  match split (cu "/") normalizedStr with
  | [p0; p1; p2] =>
    let '(day, month, year) :=
      if startsWith format (js "dd") then (p0, p1, p2)
      else if startsWith format (js "MM") then (p1, p0, p2)
      else (p2, p1, p0) in
    let year :=
      if (length year =? 2)%nat
      then (if FileProcessor.lt_50 (parseInt year) then js "20" ++ year
            else js "19" ++ year)
      else year in
    let month0 := option_map (fun m => m - 1) (parseInt month) in
    match Date_of_fields tz (parseInt year) month0 (parseInt day) with
    | Some t =>
      if eq_num (getFullYear tz t) (parseInt year)
         && eq_num (getMonth tz t) month0
         && eq_num (getDate tz t) (parseInt day)
      then Some (before_T (toISOString t))
      else None
    | None => None
    end
  | _ => None
  end.

Fixpoint try_formats (cleanDateStr : jsstring) (fs : list jsstring)
  : option jsstring :=
  match fs with
  | [] => None
  | format :: rest =>
    match try_format cleanDateStr format with
    | Some d => Some d
    | None => try_formats cleanDateStr rest
    end
  end.

Definition parseDate (dateStr : JSValue) : option jsstring :=
  match dateStr with
  | VStr ((_ :: _) as s) =>
    match replace_anchored FileProcessor.re_date_label [] (trim s) with
    | [] => None
    | cleanDateStr =>
      match month_name_date (first_match (re_month_first cleanDateStr)) with
      | Some d => Some d
      | None =>
        match month_name_date (first_match (re_day_first cleanDateStr)) with
        | Some d => Some d
        | None => try_formats cleanDateStr formats
        end
      end
    end
  | _ => None
  end.

End Host.

Definition parseAmount (amountStr : JSValue) : option Number :=
  match amountStr with
  | VStr ((_ :: _) as s) =>
    match replace_anchored re_amount_label [] (trim s) with
    | [] => None
    | cleanAmountStr =>
      let processedStr :=
        trim (replace re_word_suffix []
             (replace (re_suffix "dr") []
             (replace (re_suffix "cr") []
             (replace re_currency_suffix []
             (replace_anchored re_currency_prefix [] cleanAmountStr))))) in
      let isNegative :=
        includes processedStr (js "dr") || includes processedStr (js "debit")
        || includes processedStr (js "-") || includes processedStr (js "(") in
      let processedStr :=
        if isNegative
        then trim (replace_all re_dr_debit []
                     (replace_all (one (in_set (js "()"))) [] processedStr))
        else processedStr in
      let numericStr := replace_all (lit (js ",")) [] processedStr in
      let amount := parseFloat numericStr in
      if isNaN amount then None
      else Some (if isNegative then neg_num (Math_abs amount)
                 else Math_abs amount)
    end
  | _ => None
  end.

(** The tests of [categorizeTransaction], which has keyword lists of its
    own and no test for Education or Investment. *)
Definition universal_rules : list Keywords.Rule :=
  [(["swiggy"; "zomato"; "restaurant"; "food"; "cafe"; "mcdonalds"; "kfc";
     "domino"; "pizza"], "Food");
   (["uber"; "ola"; "metro"; "petrol"; "fuel"; "rapido"; "ride"; "taxi";
     "cab"], "Travel");
   (["amazon"; "flipkart"; "shopping"; "mall"; "store"; "clothes"], "Shopping");
   (["electricity"; "jio"; "airtel"; "recharge"; "bill"; "rent"; "water";
     "gas"], "Bills");
   (["hospital"; "clinic"; "pharma"; "medicine"; "doctor"; "medical"], "Health");
   (["movie"; "netflix"; "spotify"; "entertainment"; "game"],
    "Entertainment")]%string.

Definition categorizeTransaction (description merchant : JSValue) : jsstring :=
  let text :=
    toLowerCase (ToString description ++ js " "
                 ++ ToString (FileProcessor.or_else merchant (VStr []))) in
  Keywords.first_rule text universal_rules "Miscellaneous".

(** The column names of [processCSV]. *)
Definition dateColumns : list jsstring :=
  map js ["date"; "dt"; "transaction_date"; "date_time"; "time"]%string.
Definition amountColumns : list jsstring :=
  map js ["amount"; "amt"; "debit"; "credit"; "transaction_amount"]%string.
Definition descColumns : list jsstring :=
  map js ["description"; "desc"; "narration"; "remarks"; "particulars"]%string.

(** The statements of [processCSV] and [processExcel] from the test
    [date && amount !== null] to the push of the transaction: the state of
    the three arrays afterwards, and the exception if one is thrown. *)
Definition push_row (date : option jsstring) (amount : option Number)
                    (description : JSValue) (acc : FileProcessor.ProcessingResult)
  : FileProcessor.ProcessingResult * option Exn :=
  match date, amount with
  | Some ((_ :: _) as d), Some a =>
    match FileProcessor.split_first description with
    | Normal first =>
      (FileProcessor.mkResult
         (FileProcessor.push (FileProcessor.transactions acc)
            (FileProcessor.mkTransaction d a
               (ToString (FileProcessor.or_else description
                            (VStr (js "Unknown transaction"))))
               (categorizeTransaction description VUndefined)
               (js "UPI")
               (match first with [] => js "Unknown" | _ => first end)))
         (FileProcessor.errors acc) (FileProcessor.warnings acc), None)
    | Throw e => (acc, Some e)
    end
  | _, _ => (acc, None)
  end.

Section Files.

Variable tz : Z.

(** The callback given to [results.data.forEach]. *)
Definition csv_row (acc : FileProcessor.ProcessingResult) (row : FileProcessor.Row)
                   (index : nat) : FileProcessor.ProcessingResult :=
  let dateStr := FileProcessor.first_present row dateColumns in
  let amountStr := FileProcessor.first_present row amountColumns in
  let description := FileProcessor.first_present row descColumns in
  FileProcessor.catch_row (index + 1)
    (push_row (parseDate tz dateStr) (parseAmount amountStr) description acc).

(** The [complete] callback; [None] is a [results.data] that is missing or
    not an array. *)
Definition csv_complete (data : option (list FileProcessor.Row))
  : FileProcessor.ProcessingResult :=
  match data with
  | None => FileProcessor.mkResult [] [js "Invalid CSV format"] []
  | Some rows =>
    FileProcessor.forEach csv_row rows 0%nat (FileProcessor.mkResult [] [] [])
  end.

(** [headers[j]?.toString().toLowerCase()]; [None] is undefined. *)
Definition header_text (h : JSValue) : option jsstring :=
  match h with
  | VUndefined | VNull => None
  | _ => Some (toLowerCase (ToString h))
  end.

(** The body of the loop over the cells of a row, on the variables [date],
    [amount] and [description]. *)
Definition excel_cell (st : option jsstring * option Number * jsstring)
                      (h cellValue : JSValue)
  : option jsstring * option Number * jsstring :=
  let '(date, amount, description) := st in
  match header_text h with
  | Some ((_ :: _) as header) =>
    if truthy cellValue then
      let text := ToString cellValue in
      if includes header (js "date") || includes header (js "time")
      then (parseDate tz (VStr text), amount, description)
      else if includes header (js "amount") || includes header (js "debit")
              || includes header (js "credit")
      then (date, parseAmount (VStr text), description)
      else if includes header (js "description")
              || includes header (js "narration")
              || includes header (js "particular")
      then (date, amount, text)
      else st
    else st
  | _ => st
  end.

(** [for (let j = 0; j < headers.length && j < row.length; j++)] *)
Definition excel_cells (headers row : list JSValue)
  : option jsstring * option Number * jsstring :=
  fold_left (fun st hc => excel_cell st (fst hc) (snd hc))
            (combine headers row) (None, None, []).

(** The body of the loop over the data rows; [i] is the index in
    [jsonData]. *)
Definition excel_row (headers : list JSValue)
                     (acc : FileProcessor.ProcessingResult)
                     (row : list JSValue) (i : nat)
  : FileProcessor.ProcessingResult :=
  match row with
  | [] => acc
  | _ =>
    let '(date, amount, description) := excel_cells headers row in
    FileProcessor.catch_row (i + 1) (push_row date amount (VStr description) acc)
  end.

(** [reader.onload], with its [try] and [catch]. *)
Definition excel_onload (o : FileProcessor.SheetOutcome)
  : FileProcessor.ProcessingResult :=
  match o with
  | FileProcessor.SheetThrows e =>
    FileProcessor.mkResult []
      [js "Excel processing error: " ++ Exn_toString e] []
  | FileProcessor.SheetRows jsonData =>
    match jsonData with
    | headers :: ((_ :: _) as rows) =>
      FileProcessor.forEach (excel_row headers) rows 1%nat
                            (FileProcessor.mkResult [] [] [])
    | _ =>
      FileProcessor.mkResult []
        [js "Excel file must have header and data rows"] []
    end
  end.

End Files.

End Universal.

(* ================================================================== *)
(** * context/ExpenseContext: the store of transactions *)
(* ================================================================== *)

Module ExpenseContext.
Import JS.

(** The [Transaction] of [types/index.ts]; the two dates are time values. *)
Record Transaction := mkStored {
  type : jsstring;
  id : jsstring;
  userId : jsstring;
  date : jsstring;
  amount : Number;
  category : jsstring;
  merchant : jsstring;
  paymentMode : jsstring;
  notes : option jsstring;
  source : jsstring;
  createdAt : option Z;
  updatedAt : option Z
}.

(** [`${merchant}-${amount}-${date}-${paymentMode}`] *)
Definition key (t : Transaction) : jsstring :=
  merchant t ++ js "-" ++ num_toString (amount t) ++ js "-" ++ date t
  ++ js "-" ++ paymentMode t.

(** [seen.has(key)] on the keys added so far. *)
Definition has (seen : list jsstring) (k : jsstring) : bool :=
  existsb (str_eqb k) seen.

(** The [filter] of [removeDuplicates], whose callback reads and extends the
    set [seen]. *)
Fixpoint filter_seen (seen : list jsstring) (l : list Transaction)
  : list Transaction :=
  match l with
  | [] => []
  | t :: rest =>
    if has seen (key t) then filter_seen seen rest
    else t :: filter_seen (key t :: seen) rest
  end.

Definition removeDuplicates (transactions : list Transaction) : list Transaction :=
  filter_seen [] transactions.

Definition DEFAULT_CATEGORIES : list jsstring := Keywords.Category.

(** [addCustomCategory], called in a render in which the state
    [customCategories] has the value given first: the updater that the call
    hands to [setCustomCategories] ([prev => prev] for a call that returns
    early).  React applies the updaters of the calls of one event, in their
    order, to the state as it is then: the test reads the value of the
    render, the new entry goes behind the state at the time of the update.
    The state starts empty and is replaced by what local storage holds for
    it. *)
Definition addCustomCategory (customCategories : list jsstring) (cat : jsstring)
  : list jsstring -> list jsstring :=
  fun prev =>
    match cat with
    | [] => prev
    | _ =>
      if has customCategories cat || has DEFAULT_CATEGORIES cat
      then prev
      else prev ++ [cat]
    end.

Definition allCategories (customCategories : list jsstring) : list jsstring :=
  DEFAULT_CATEGORIES ++ customCategories.

End ExpenseContext.

(* ================================================================== *)
(** * Vocabulary of the statements *)
(* ================================================================== *)

Module Spec.
Import JS Keywords.
Local Open Scope Z_scope.

(** The host of the evaluated scenarios: a browser whose local time is UTC,
    and one in India (UTC+05:30). *)
Definition utc : Z := 0.
Definition ist : Z := 330.

Definition is_leap (y : Z) : bool :=
  (y mod 4 =? 0) && negb (y mod 100 =? 0) || (y mod 400 =? 0).

Definition days_in_month (y m : Z) : Z :=
  if m =? 2 then (if is_leap y then 29 else 28)
  else if (m =? 4) || (m =? 6) || (m =? 9) || (m =? 11) then 30
  else 31.

(** A day of the Gregorian calendar. *)
Definition valid_date (y m d : Z) : Prop :=
  1 <= m <= 12 /\ 1 <= d <= days_in_month y m.

(** A string that is the ISO form of a day of the calendar. *)
Definition real_calendar_date (s : jsstring) : Prop :=
  exists y m d, valid_date y m d /\ s = iso_date y m d.

(** A transaction as the data model wants it, less the finiteness of the
    amount: a real date and an amount that is neither NaN nor a zero. *)
Definition sound_transaction (t : FileProcessor.ProcessedTransaction) : Prop :=
  real_calendar_date (FileProcessor.date t)
  /\ num_truthy (FileProcessor.amount t) = true.

(** The first white-space-separated token of a text, in the words of the
    specification: the first maximal run of code units that are not white
    space. *)
Definition first_ws_token (s : jsstring) : jsstring :=
  fst (span (fun c => negb (is_space c)) (dropWhile is_space s)).

(** The text before the first space character (U+0020). *)
Definition before_first_space (s : jsstring) : jsstring :=
  fst (span (fun c => negb (c =? 32)%N) s).


Definition amount_warning (n : nat) (token : JSValue) : jsstring :=
  FileProcessor.row_label n ++ js ": Could not parse amount "
  ++ FileProcessor.quoted token.

Definition date_warning (n : nat) (token : JSValue) : jsstring :=
  FileProcessor.row_label n ++ js ": Could not parse date "
  ++ FileProcessor.quoted token.

Definition scenario_C_text : jsstring :=
  js "Feb 13, 2025 Paid to Swiggy DEBIT ₹250".

Definition scenario_C_warnings : list jsstring :=
  [js "Client-side processing used (limited accuracy)";
   js "For better results, set up the Python backend service";
   js "Found 1 potential transactions"].

Definition scenario_A_csv : jsstring :=
  js "Date,Amount,Description
15/02/2025,500,Swiggy Food Order".

Definition scenario_A_lowercase_csv : jsstring :=
  js "date,amount,description
15/02/2025,500,Swiggy Food Order".

(** Scenario B as a sheet of text cells, as a sheet whose amounts are numeric
    cells, and with the Debit column before the Credit column. *)
Definition scenario_B_text_cells : list (list JSValue) :=
  [[VStr (js "Date"); VStr (js "Narration"); VStr (js "Credit"); VStr (js "Debit")];
   [VStr (js "15/02/2025"); VStr (js "Swiggy"); VStr (js "0"); VStr (js "250")]].

Definition scenario_B_numeric_cells : list (list JSValue) :=
  [[VStr (js "Date"); VStr (js "Narration"); VStr (js "Credit"); VStr (js "Debit")];
   [VStr (js "15/02/2025"); VStr (js "Swiggy"); VNum (num_of_Z 0); VNum (num_of_Z 250)]].

Definition scenario_B_debit_first : list (list JSValue) :=
  [[VStr (js "Date"); VStr (js "Narration"); VStr (js "Debit"); VStr (js "Credit")];
   [VStr (js "15/02/2025"); VStr (js "Swiggy"); VStr (js "250"); VStr (js "0")]].

(** A CSV row whose amount cell reads [Infinity]. *)
Definition infinity_row : FileProcessor.Row :=
  [(js "date", VStr (js "15/02/2025")); (js "amount", VStr (js "Infinity"));
   (js "description", VStr (js "Opening balance"))].

(** A CSV row whose description starts with a space, as after [, ] in a
    file written with a space behind each comma. *)
Definition leading_space_row : FileProcessor.Row :=
  [(js "date", VStr (js "15/02/2025")); (js "amount", VStr (js "500"));
   (js "description", VStr (js " Swiggy Food Order"))].

(** The test that the date of the day [doe] of an era is a day of the
    calendar, and the test that a cell (year, month, day) of the grid of the
    years 0 to 399, when a day of the calendar, is found again from its day
    number. *)
Definition doe_ok (doe : Z) : bool :=
  let '(y, m, d) := civil_of_doe doe in
  (1 <=? m) && (m <=? 12) && (1 <=? d) && (d <=? days_in_month y m).

Definition grid_ok (k : Z) : bool :=
  let y := k / 372 in
  let m := k mod 372 / 31 + 1 in
  let d := k mod 31 + 1 in
  if d <=? days_in_month y m
  then (let '(y', m', d') := civil_from_days (days_from_civil y m d) in
        (y' =? y) && (m' =? m) && (d' =? d))
  else true.

(** The test that [n] printed on [w] digits has [w] code units and is read
    back by [parseInt]. *)
Definition pad_ok (w : nat) (n : Z) : bool :=
  (length (pad w n) =? w)%nat
  && match parseInt (pad w n) with Some v => v =? n | None => false end.

(** A date written day first, with one of the separators of [parseDate], and
    written month first. *)
Definition day_first_text (sep : N) (y m d : Z) : jsstring :=
  pad 2 d ++ [sep] ++ pad 2 m ++ [sep] ++ pad 4 y.

Definition month_first_text (y m d : Z) : jsstring :=
  pad 2 m ++ js "/" ++ pad 2 d ++ js "/" ++ pad 4 y.

(** A text that does not begin with white space. *)
Definition first_not_space (s : jsstring) : Prop :=
  match s with c :: _ => is_space c = false | [] => True end.

(** The text [parseDate] works on after [trim] and the removal of a label. *)
Definition clean_date (s : jsstring) : jsstring :=
  replace_anchored FileProcessor.re_date_label [] (trim s).

(** Every [n] from [z] up, [fuel] of them, passes the test. *)
Fixpoint all_from (fuel : nat) (z : Z) (f : Z -> bool) : bool :=
  match fuel with
  | O => true
  | S k => f z && all_from k (z + 1) f
  end.

(** ** What a result says of a file *)

(** A value that is not text: undefined, null, a boolean or a number. *)
Definition not_text (v : JSValue) : Prop := forall s, v <> VStr s.

(** The rows of a sheet that are not empty. *)
Definition data_rows (rows : list (list JSValue)) : list (list JSValue) :=
  filter (fun row => match row with [] => false | _ => true end) rows.

(** A result that has the transactions, warnings and errors of another one,
    in the same order, and possibly more behind them. *)
Definition extends (a b : FileProcessor.ProcessingResult) : Prop :=
  (exists t, FileProcessor.transactions b = FileProcessor.transactions a ++ t)
  /\ (exists w, FileProcessor.warnings b = FileProcessor.warnings a ++ w)
  /\ (exists e, FileProcessor.errors b = FileProcessor.errors a ++ e).

(** A result with one error and nothing else. *)
Definition one_error (message : jsstring) : FileProcessor.ProcessingResult :=
  FileProcessor.mkResult [] [message] [].

(** The date and the amount of the transaction that a row with these three
    cells gives, in a list that is empty when the row gives none: both
    parsers gave a value that counts as true, and the description has the
    [split] method of a text. *)
Definition accepted (tz : Z) (Date_parse : jsstring -> option Z)
           (dateStr amountStr description : JSValue) : list (jsstring * Number) :=
  match FileProcessor.parseDate tz Date_parse dateStr,
        FileProcessor.parseAmount amountStr, description with
  | Some d, Some a, VStr _ =>
    match d with
    | [] => []
    | _ => if num_truthy a then [(d, a)] else []
    end
  | _, _, _ => []
  end.

Definition date_and_amount (t : FileProcessor.ProcessedTransaction)
  : jsstring * Number :=
  (FileProcessor.date t, FileProcessor.amount t).

(** What a result says of the row printed as number [n]: the warning of the
    date with the cell in it when the date did not parse, the one of the
    amount when the amount did not, and, when both did and the description
    cell has no [split] method, the error of that row with the exception
    that the call of [split] throws. *)
Definition row_reported (tz : Z) (Date_parse : jsstring -> option Z) (n : nat)
           (dateStr amountStr description : JSValue)
           (r : FileProcessor.ProcessingResult) : Prop :=
  (FileProcessor.date_ok (FileProcessor.parseDate tz Date_parse dateStr) = false ->
   In (date_warning n dateStr) (FileProcessor.warnings r))
  /\ (FileProcessor.amount_ok (FileProcessor.parseAmount amountStr) = false ->
      In (amount_warning n amountStr) (FileProcessor.warnings r))
  /\ (FileProcessor.date_ok (FileProcessor.parseDate tz Date_parse dateStr) = true ->
      FileProcessor.amount_ok (FileProcessor.parseAmount amountStr) = true ->
      not_text description ->
      exists e, FileProcessor.split_first description = Throw e
                /\ In (FileProcessor.row_label n ++ js ": " ++ Exn_toString e)
                      (FileProcessor.errors r)).

(** The three cells that [processCSV] takes from a row object. *)
Definition csv_date (row : FileProcessor.Row) : JSValue :=
  FileProcessor.first_present row FileProcessor.dateColumns.
Definition csv_amount (row : FileProcessor.Row) : JSValue :=
  FileProcessor.first_present row FileProcessor.amountColumns.
Definition csv_description (row : FileProcessor.Row) : JSValue :=
  FileProcessor.first_present row FileProcessor.descColumns.

(** What the result of [processCSV] says of each failure. *)
Definition csv_reported (tz : Z) (Date_parse : jsstring -> option Z)
           (o : FileProcessor.PapaOutcome) (r : FileProcessor.ProcessingResult)
  : Prop :=
  match o with
  | FileProcessor.PapaThrows e =>
    r = one_error (js "File processing failed: " ++ Exn_toString e)
  | FileProcessor.PapaError message =>
    r = one_error (js "CSV parsing error: " ++ message)
  | FileProcessor.PapaComplete data =>
    forall (i : nat) (row : FileProcessor.Row),
      nth_error data i = Some row ->
      row_reported tz Date_parse (i + 1) (csv_date row) (csv_amount row)
                   (csv_description row) r
  end.

Definition missing_column (what : string) : jsstring :=
  js "Could not find " ++ js what ++ js " column".

(** What the result of [processExcel] says of the rows of a sheet whose
    three columns were searched without an exception: a warning for each
    column that was not found, and the report of each row that is not empty,
    printed with its index in the sheet plus one. *)
Definition rows_reported (tz : Z) (Date_parse : jsstring -> option Z)
           (jsonData : list (list JSValue)) (ixd ixa ixs : option nat)
           (r : FileProcessor.ProcessingResult) : Prop :=
  (ixd = None -> In (missing_column "date") (FileProcessor.warnings r))
  /\ (ixa = None -> In (missing_column "amount") (FileProcessor.warnings r))
  /\ (ixs = None -> In (missing_column "description") (FileProcessor.warnings r))
  /\ forall (i : nat) (row : list JSValue),
       nth_error jsonData i = Some row -> (1 <= i)%nat -> row <> [] ->
       row_reported tz Date_parse (i + 1) (FileProcessor.cell ixd row)
                    (FileProcessor.cell ixa row) (FileProcessor.cell ixs row) r.

(** What the result of [processExcel] says of each failure.  A heading that
    is not text and counts as true makes the search of a column throw, the
    first heading always, a later one when the search comes to it; the
    exception is the one of the call of [toLowerCase] on it. *)
Definition excel_reported (tz : Z) (Date_parse : jsstring -> option Z)
           (o : FileProcessor.ReaderOutcome) (r : FileProcessor.ProcessingResult)
  : Prop :=
  match o with
  | FileProcessor.ReaderError => r = one_error (js "Failed to read Excel file")
  | FileProcessor.ReaderLoad (FileProcessor.SheetThrows e) =>
    r = one_error (js "Excel processing error: " ++ Exn_toString e)
  | FileProcessor.ReaderLoad (FileProcessor.SheetRows jsonData) =>
    match jsonData with
    | headers :: _ :: _ =>
      (truthy (hd VUndefined headers) = true -> not_text (hd VUndefined headers) ->
       exists e,
         FileProcessor.header_matches FileProcessor.dateColumns
           (hd VUndefined headers) = Throw e
         /\ r = one_error (js "Excel processing error: " ++ Exn_toString e))
      /\ ((exists h e,
             In h headers /\ truthy h = true /\ not_text h
             /\ FileProcessor.header_matches FileProcessor.dateColumns h = Throw e
             /\ r = one_error (js "Excel processing error: " ++ Exn_toString e))
          \/ exists ixd ixa ixs,
               FileProcessor.findColumn FileProcessor.dateColumns headers
               = Normal ixd
               /\ FileProcessor.findColumn FileProcessor.amountColumns headers
                  = Normal ixa
               /\ FileProcessor.findColumn FileProcessor.descColumns headers
                  = Normal ixs
               /\ rows_reported tz Date_parse jsonData ixd ixa ixs r)
    | _ =>
      r = one_error
            (js "Excel file must have at least a header row and one data row")
    end
  end.

(** What the result of [processFile] says of each failure of a file. *)
Definition reported (tz : Z) (Date_parse : jsstring -> option Z)
           (file : FileProcessor.File) (r : FileProcessor.ProcessingResult)
  : Prop :=
  match FileProcessor.route file with
  | FileProcessor.RouteCSV => csv_reported tz Date_parse (FileProcessor.papa file) r
  | FileProcessor.RouteExcel =>
    excel_reported tz Date_parse (FileProcessor.reader file) r
  | FileProcessor.RoutePDF =>
    r = FileProcessor.mkResult []
          [js "PDF processing requires Python backend setup"]
          [js "Please use the dedicated PhonePe Processor or set up the Python backend as described in BACKEND_INTEGRATION.md"]
  | FileProcessor.RouteUnsupported =>
    r = one_error (js "Unsupported file type: " ++ FileProcessor.type file)
  end.

(** ** Dates in the forms of [parseDate] *)

(** The test that the date of the day [doe] of an era has [doe] as its day
    number. *)
Definition back_ok (doe : Z) : bool :=
  let '(y, m, d) := civil_of_doe doe in
  days_from_civil y m d =? doe - 719468.

(** Three fields with a separator between them. *)
Definition three_fields (sep : N) (f1 f2 f3 : jsstring) : jsstring :=
  f1 ++ [sep] ++ f2 ++ [sep] ++ f3.

(** The last two digits of a year, and the year that [parseDate] takes two
    digits for. *)
Definition short_year (y : Z) : jsstring := pad 2 (y mod 100).

Definition century (yy : Z) : Z := if yy <? 50 then 2000 + yy else 1900 + yy.

(** A date written year first with four digits, day first with two digits
    for the year, and month first with four and with two digits for the
    year. *)
Definition year_first_text (sep : N) (y m d : Z) : jsstring :=
  three_fields sep (pad 4 y) (pad 2 m) (pad 2 d).

Definition day_first_short_text (sep : N) (y m d : Z) : jsstring :=
  three_fields sep (pad 2 d) (pad 2 m) (short_year y).

Definition month_first_long_text (sep : N) (y m d : Z) : jsstring :=
  three_fields sep (pad 2 m) (pad 2 d) (pad 4 y).

Definition month_first_short_text (sep : N) (y m d : Z) : jsstring :=
  three_fields sep (pad 2 m) (pad 2 d) (short_year y).

(** The test that two digits behind [20] and behind [19] are read as a year
    of that century. *)
Definition century_ok (n : Z) : bool :=
  match parseInt (js "20" ++ pad 2 n), parseInt (js "19" ++ pad 2 n) with
  | Some a, Some b => (a =? 2000 + n) && (b =? 1900 + n)
  | _, _ => false
  end.

(** The time value of local midnight of a day. *)
Definition midnight (tz y m d : Z) : Z :=
  days_from_civil y m d * msPerDay - tz * 60000.

(** What [parseDate] makes of three numbers read as a year, a month and a
    day: the date is built from them and kept only when it lies in the year
    that was read. *)
Definition reading (tz y m d : Z) : option jsstring :=
  match Date_of_fields tz (Some y) (Some (m - 1)) (Some d) with
  | Some t =>
    if getFullYear tz t =? y then Some (before_T (toISOString t)) else None
  | None => None
  end.

(** The first answer of three readings. *)
Definition first_reading (a b c : option jsstring) : option jsstring :=
  match a with
  | Some x => Some x
  | None => match b with Some x => Some x | None => c end
  end.

(** A text without any of the separators of a numeric date. *)
Definition no_separator (s : jsstring) : Prop :=
  Forall (fun c => in_set (js "/-.") c = false) s.

(** A field that [parseDate] takes for a year of four digits or for one of
    two. *)
Definition year_field (f : jsstring) (y : Z) : Prop :=
  (length f = 4%nat /\ parseInt f = Some y)
  \/ exists yy, 0 <= yy <= 99 /\ f = pad 2 yy /\ y = century yy.

(** ** Vocabulary of the further properties *)

(** The number of messages of a result. *)
Definition messages (r : FileProcessor.ProcessingResult) : nat :=
  length (FileProcessor.warnings r) + length (FileProcessor.errors r).

(** The state of the three arrays after [k] rows: at most [k] transactions,
    and a message for each row that gave none. *)
Definition accounted (k : nat) (r : FileProcessor.ProcessingResult) : Prop :=
  (length (FileProcessor.transactions r) <= k
   /\ k <= length (FileProcessor.transactions r) + messages r)%nat.

(** The result of scenario B on text cells. *)
Definition scenario_B_result : FileProcessor.ProcessingResult :=
  FileProcessor.mkResult [] [] [amount_warning 2 (VStr (js "0"))].

(** An amount cell without the currency symbols, the commas and the white
    space. *)
Definition stripped (s : jsstring) : jsstring :=
  filter (fun c => negb (is_space c))
         (filter (fun c => negb (in_set (js "₹$€£,") c)) s).

(** The ISO form of a triple (year, month, day). *)
Definition iso_of (x : Z * Z * Z) : jsstring :=
  let '(y, m, d) := x in iso_date y m d.

(** The day before a date, and the day that lies [d - 1] days behind the
    first of a month. *)
Definition day_before (y m d : Z) : Z * Z * Z :=
  civil_from_days (days_from_civil y m d - 1).

Definition days_after_first (y m d : Z) : Z * Z * Z :=
  civil_from_days (days_from_civil y m 1 + d - 1).

Definition first_of_next_month (y m : Z) : Z * Z * Z :=
  if m =? 12 then (y + 1, 1, 1) else (y, m + 1, 1).

(** The test that the month [k mod 12 + 1] of the year [k / 12] ends the day
    before the first of the next month. *)
Definition month_ok (k : Z) : bool :=
  let y := k / 12 in
  let m := k mod 12 + 1 in
  let '(y', m', _) := first_of_next_month y m in
  days_from_civil y' m' 1 =? days_from_civil y m 1 + days_in_month y m.

(** The amount [n] with the sign that a transaction of the given type
    gets. *)
Definition signed (type : jsstring) (n : N) : Number :=
  if str_eqb type (js "DEBIT") then neg_num (num_of_Z (Z.of_N n))
  else num_of_Z (Z.of_N n).

(** A transaction of the per-app matchers, for the examples. *)
Definition swiggy_match (date amount : string) : Apps.AppTransaction :=
  Apps.mkApp (js date) (js "Swiggy") (js "DEBIT") (js amount).

(** A category with [Other] in the place of Miscellaneous. *)
Definition with_Other (category : jsstring) : jsstring :=
  if str_eqb category (js "Miscellaneous") then js "Other" else category.

(** The test that no keyword of the rules is empty or has a space. *)
Definition no_space (rules : list Rule) : bool :=
  forallb (fun r => forallb (fun k =>
     match js k with
     | [] => false
     | _ => forallb (fun c => negb (32 =? c)%N) (js k)
     end) (fst r)) rules.

(** A digit, a comma or a minus sign. *)
Definition is_plain (c : N) : bool := is_digit c || (c =? 44)%N || (c =? 45)%N.

(** A text of digits and commas, and a text without its commas. *)
Definition grouped (s : jsstring) : Prop :=
  Forall (fun c => is_digit c = true \/ c = 44%N) s.

Definition without_commas (s : jsstring) : jsstring :=
  filter (fun c => negb (c =? 44)%N) s.

(** A pattern that matches at no place of a text. *)
Definition nowhere {A} (p : re A) (s : jsstring) : Prop :=
  forall t, (exists b, s = b ++ t) -> p t = [].

(** A transaction with a day of the calendar as date and a number as
    amount. *)
Definition dated_number (t : FileProcessor.ProcessedTransaction) : Prop :=
  real_calendar_date (FileProcessor.date t)
  /\ isNaN (FileProcessor.amount t) = false.

(** A result that has such transactions and no warning; one that has no
    error either; and the number of rows that were kept or failed. *)
Definition quiet (r : FileProcessor.ProcessingResult) : Prop :=
  Forall dated_number (FileProcessor.transactions r)
  /\ FileProcessor.warnings r = [].

Definition silent (r : FileProcessor.ProcessingResult) : Prop :=
  quiet r /\ FileProcessor.errors r = [].

Definition kept_or_failed (r : FileProcessor.ProcessingResult) : nat :=
  length (FileProcessor.transactions r) + length (FileProcessor.errors r).

(** The sign of a number: true for the negative numbers and for -0. *)
Definition is_negative (x : Number) : bool :=
  match x with
  | NaN => false
  | Inf s => s
  | Fin s _ _ => s
  end.

(** A transaction as the PhonePe processor means to build it: the amount is
    a number, negative for a debit and positive for a credit, and the
    category is one of the [Category] type. *)
Definition phonepe_shaped (t : FileProcessor.ProcessedTransaction) : Prop :=
  isNaN (FileProcessor.amount t) = false
  /\ (is_negative (FileProcessor.amount t) = true
      /\ startsWith (FileProcessor.description t) (js "PhonePe DEBIT to ") = true
      \/ is_negative (FileProcessor.amount t) = false
         /\ startsWith (FileProcessor.description t) (js "PhonePe CREDIT to ")
            = true)
  /\ is_Category (FileProcessor.category t) = true
  /\ FileProcessor.paymentMode t = js "UPI".

(** A text on one line: its only white space is single spaces (U+0020)
    between other code units. *)
Definition single_spaced (s : jsstring) : Prop :=
  first_not_space s /\ first_not_space (rev s)
  /\ (forall c, In c s -> is_space c = true -> c = 32%N)
  /\ (forall a x y b, s = a ++ x :: y :: b ->
        is_space x = true -> is_space y = false).

Definition debit_or_credit (type : jsstring) : Prop :=
  type = js "DEBIT" \/ type = js "CREDIT".

(** A row of which the universal processor gets a date and an amount. *)
Definition parsed (tz : Z) (row : FileProcessor.Row) : bool :=
  match Universal.parseDate tz
          (FileProcessor.first_present row Universal.dateColumns),
        Universal.parseAmount
          (FileProcessor.first_present row Universal.amountColumns) with
  | Some (_ :: _), Some _ => true
  | _, _ => false
  end.

(** The state [customCategories] after a series of events in each of which
    [addCustomCategory] is called once, each in a render that has the state
    as the event before left it; [stored] is the state at the start. *)
Definition after_events (stored added : list jsstring) : list jsstring :=
  fold_left (fun cs cat => ExpenseContext.addCustomCategory cs cat cs)
            added stored.

(** A stored transaction, for the examples. *)
Definition stored (id : string) : ExpenseContext.Transaction :=
  ExpenseContext.mkStored (js "expense") (js id) (js "demo-user")
    (js "2025-02-15") (num_of_Z (-250)) (js "Food") (js "Swiggy") (js "UPI")
    None (js "csv") None None.

(** A row of scenario B with the amount as a number. *)
Definition numeric_amount_row : list JSValue :=
  [VStr (js "15/02/2025"); VStr (js "Swiggy"); VNum (num_of_Z 250)].

End Spec.

(** Linear arithmetic with division and remainder by constants. *)
Ltac dlia := Z.div_mod_to_equations; lia.

(* ================================================================== *)
(** * Properties *)
(* ================================================================== *)

Import JS Keywords Spec.
Local Open Scope Z_scope.
Unset Implicit Arguments.

(** ** The PhonePe scenario *)

(** On a host whose local time is UTC the PhonePe matcher returns the record
    of scenario C. *)
Lemma phonepe_scenario_C_utc :
  PhonePe.processPhonePePDFClientSide (Date_parse_month_name utc)
    (PhonePe.PdfText scenario_C_text)
  = Resolved (FileProcessor.mkResult
      [FileProcessor.mkTransaction (js "2025-02-13") (Fin true 250 0)
         (js "PhonePe DEBIT to Swiggy") (js "Food") (js "UPI") (js "Swiggy")]
      [] scenario_C_warnings).
Proof. vm_compute. reflexivity. Qed.

(** C3 (code defect): on a host in India the same text gives one transaction
    with merchant Swiggy, amount -250 and category Food, but dated 2025-02-12:
    [new Date("Feb 13, 2025")] is local midnight and [toISOString] prints the
    UTC day, which is the day before east of Greenwich. *)
Theorem phonepe_scenario_C_india :
  PhonePe.processPhonePePDFClientSide (Date_parse_month_name ist)
    (PhonePe.PdfText scenario_C_text)
  = Resolved (FileProcessor.mkResult
      [FileProcessor.mkTransaction (js "2025-02-12") (Fin true 250 0)
         (js "PhonePe DEBIT to Swiggy") (js "Food") (js "UPI") (js "Swiggy")]
      [] scenario_C_warnings).
Proof. vm_compute. reflexivity. Qed.

(** ** Credit and debit columns *)

(** C4 (code defect): [processExcel] has one amount column, the first header
    that contains a candidate name.  With Credit before Debit the row
    Credit=0, Debit=250 is dropped (a zero, or a numeric cell, is not an
    amount for [parseAmount]); with Debit before Credit it is accepted with
    amount +250.  No row gets credit minus debit. *)
Theorem excel_credit_debit_not_subtracted :
  FileProcessor.excel_onload utc (Date_parse_month_name utc)
    (FileProcessor.SheetRows scenario_B_text_cells)
  = Normal (FileProcessor.mkResult [] []
      [js "Row 2: Could not parse amount " ++ FileProcessor.quoted (VStr (js "0"))])
  /\
  FileProcessor.excel_onload utc (Date_parse_month_name utc)
    (FileProcessor.SheetRows scenario_B_numeric_cells)
  = Normal (FileProcessor.mkResult [] []
      [js "Row 2: Could not parse amount " ++ FileProcessor.quoted (VStr (js "0"))])
  /\
  FileProcessor.excel_onload utc (Date_parse_month_name utc)
    (FileProcessor.SheetRows scenario_B_debit_first)
  = Normal (FileProcessor.mkResult
      [FileProcessor.mkTransaction (js "2025-02-15") (Fin false 250 0)
         (js "Swiggy") (js "Food") (js "UPI") (js "Swiggy")]
      [] []).
Proof. repeat apply conj; vm_compute; reflexivity. Qed.

(** ** The CSV scenario *)

(** With the header in lower case, on a host whose local time is UTC,
    [processCSV] returns the transaction of scenario A. *)
Lemma csv_scenario_A_lowercase_utc :
  FileProcessor.processCSV utc (Date_parse_month_name utc)
    (FileProcessor.papa_unquoted scenario_A_lowercase_csv)
  = Resolved (FileProcessor.mkResult
      [FileProcessor.mkTransaction (js "2025-02-15") (Fin false 500 0)
         (js "Swiggy Food Order") (js "Food") (js "UPI") (js "Swiggy")]
      [] []).
Proof. vm_compute. reflexivity. Qed.

(** C5 (code defect): [processCSV] reads [row['date']], [row['amount']] and
    [row['description']]; the row objects have the header names as written,
    so under the header [Date,Amount,Description] every cell is missed and
    the row of scenario A is dropped with two warnings. *)
Theorem csv_scenario_A_capitalised_header :
  FileProcessor.processCSV utc (Date_parse_month_name utc)
    (FileProcessor.papa_unquoted scenario_A_csv)
  = Resolved (FileProcessor.mkResult [] []
      [js "Row 1: Could not parse date " ++ FileProcessor.quoted (VStr []);
       js "Row 1: Could not parse amount " ++ FileProcessor.quoted (VStr [])]).
Proof. vm_compute. reflexivity. Qed.

(** ** The amount of scenario E *)

(** C7 (code defect): [fileProcessor]'s [parseAmount] does not strip [Rs.] and
    answers null; the one of the universal processor strips the [Dr] suffix
    before it looks for a debit marker and answers +1234.5. *)
Theorem parseAmount_scenario_E :
  FileProcessor.parseAmount (VStr (js "Rs. 1,234.50 Dr")) = None
  /\ Universal.parseAmount (VStr (js "Rs. 1,234.50 Dr"))
     = Some (Fin false 12345 (-1)).
Proof. apply conj; vm_compute; reflexivity. Qed.

(** With the rupee sign instead of [Rs.], [fileProcessor] gives -1234.5. *)
Lemma parseAmount_rupee_sign :
  FileProcessor.parseAmount (VStr (js "₹ 1,234.50 Dr"))
  = Some (Fin true 12345 (-1)).
Proof. vm_compute. reflexivity. Qed.

(** ** The categorizers *)

Lemma first_rule_range (text : jsstring) (rules : list Rule) (fallback : string) :
  first_rule text rules fallback = js fallback
  \/ exists keywords cat,
       In (keywords, cat) rules /\ first_rule text rules fallback = js cat.
Proof.
  induction rules as [| [keywords cat] rest IH]; simpl.
  - left; reflexivity.
  - destruct (any_of text keywords).
    + right; exists keywords, cat; split; [left|]; reflexivity.
    + destruct IH as [H | (k & c & Hin & H)].
      * left; exact H.
      * right; exists k, c; split; [right|]; assumption.
Qed.

Lemma first_rule_no_match (text : jsstring) (rules : list Rule) (fallback : string) :
  forallb (fun r => negb (any_of text (fst r))) rules = true ->
  first_rule text rules fallback = js fallback.
Proof.
  induction rules as [| [keywords cat] rest IH]; simpl; intros H.
  - reflexivity.
  - apply andb_true_iff in H as [H1 H2].
    apply negb_true_iff in H1. rewrite H1. apply IH, H2.
Qed.

Lemma keyword_rules_in_Category (keywords : list string) (cat : string) :
  In (keywords, cat) keyword_rules -> is_Category (js cat) = true.
Proof.
  unfold keyword_rules; simpl; intros H.
  repeat (destruct H as [H | H]; [inversion H; subst; vm_compute; reflexivity|]).
  contradiction.
Qed.

(** The categorizer of [fileProcessor] is total into the [Category] type and
    falls back on Miscellaneous. *)
Lemma fileProcessor_categorize_total (description merchant : JSValue) :
  is_Category (FileProcessor.categorizeTransaction description merchant) = true.
Proof.
  unfold FileProcessor.categorizeTransaction.
  destruct (first_rule_range
              (toLowerCase (ToString description ++ js " "
                 ++ ToString (FileProcessor.or_else merchant (VStr []))))
              keyword_rules "Miscellaneous") as [H | (k & c & Hin & H)];
    rewrite H.
  - vm_compute; reflexivity.
  - eapply keyword_rules_in_Category, Hin.
Qed.

(** So is the one of the PhonePe processor. *)
Lemma phonepe_categorize_total (merchant : jsstring) :
  is_Category (PhonePe.categorizeTransaction merchant) = true.
Proof.
  unfold PhonePe.categorizeTransaction.
  destruct (first_rule_range (toLowerCase merchant) keyword_rules "Miscellaneous")
    as [H | (k & c & Hin & H)]; rewrite H.
  - vm_compute; reflexivity.
  - eapply keyword_rules_in_Category, Hin.
Qed.

(** C9 (code defect): the categorizers of the Google Pay, Paytm and
    SuperMoney processors fall back on [Other], which is not a member of the
    [Category] type; the empty merchant already shows it. *)
Theorem per_app_categorizers_return_Other :
  GPay.categorizeTransaction (js "") = js "Other"
  /\ Paytm.categorizeTransaction (js "") = js "Other"
  /\ SuperMoney.categorizeTransaction (js "") = js "Other"
  /\ is_Category (js "Other") = false.
Proof. repeat apply conj; vm_compute; reflexivity. Qed.

(** ** What the row loop does with the results of the parsers *)

Lemma app_one_neq {A} (l : list A) (x : A) : l <> l ++ [x].
Proof.
  intros H. apply (f_equal (@length A)) in H.
  rewrite length_app in H; simpl in H; lia.
Qed.

Lemma hd_split_space (s : jsstring) :
  hd [] (split (cu " ") s) = before_first_space s.
Proof.
  unfold before_first_space.
  induction s as [| c r IH]; simpl; [reflexivity|].
  change (cu " ") with 32%N.
  destruct (c =? 32)%N eqn:Hc; simpl; [reflexivity|].
  change (cu " ") with 32%N in IH.
  destruct (split 32 r) as [| p ps]; destruct (span _ r) as [a b];
    simpl in *; congruence.
Qed.


(** A row whose date is not a date for the loop is dropped and gets the date
    warning. *)
Lemma processRow_bad_date tz dp n dateStr amountStr description acc :
  FileProcessor.date_ok (FileProcessor.parseDate tz dp dateStr) = false ->
  FileProcessor.transactions
    (fst (FileProcessor.processRow tz dp n dateStr amountStr description acc))
  = FileProcessor.transactions acc
  /\ In (date_warning n dateStr)
        (FileProcessor.warnings
           (fst (FileProcessor.processRow tz dp n dateStr amountStr description acc))).
Proof.
  intros H. unfold FileProcessor.processRow. rewrite H. simpl.
  destruct (FileProcessor.parseDate tz dp dateStr) as [d |];
    destruct (FileProcessor.parseAmount amountStr) as [a |];
    destruct (FileProcessor.amount_ok _); simpl;
    (split; [reflexivity|]);
    unfold FileProcessor.push, date_warning;
    rewrite ?in_app_iff; simpl; auto 6.
Qed.

(** What a row that pushes a transaction looks like. *)
Lemma processRow_push tz dp n dateStr amountStr description acc t :
  FileProcessor.transactions
    (fst (FileProcessor.processRow tz dp n dateStr amountStr description acc))
  = FileProcessor.transactions acc ++ [t] ->
  exists s,
    description = VStr s
    /\ FileProcessor.parseDate tz dp dateStr = Some (FileProcessor.date t)
    /\ FileProcessor.parseAmount amountStr = Some (FileProcessor.amount t)
    /\ num_truthy (FileProcessor.amount t) = true
    /\ FileProcessor.merchant t
       = match before_first_space s with [] => js "Unknown" | p => p end.
Proof.
  unfold FileProcessor.processRow.
  destruct (FileProcessor.parseDate tz dp dateStr) as [d |] eqn:Hd;
    destruct (FileProcessor.parseAmount amountStr) as [a |] eqn:Ha.
  2-4: destruct (FileProcessor.date_ok _); destruct (FileProcessor.amount_ok _);
       simpl; intros H; apply app_one_neq in H; destruct H.
  destruct (FileProcessor.date_ok (Some d)) eqn:Hdo;
    destruct (FileProcessor.amount_ok (Some a)) eqn:Hao; simpl.
  2-4: intros H; apply app_one_neq in H; destruct H.
  destruct description as [| | b | x | s]; simpl;
    try (intros H; apply app_one_neq in H; destruct H).
  unfold FileProcessor.push; simpl. intros H.
  apply app_inv_head in H. inversion H; subst t; clear H. simpl.
  exists s. rewrite hd_split_space. simpl in Hao.
  repeat split; try assumption; try reflexivity.
  destruct (before_first_space s); reflexivity.
Qed.

(** A row either leaves the transactions as they are or pushes one more. *)
Lemma processRow_transactions tz dp n dateStr amountStr description acc :
  let out := fst (FileProcessor.processRow tz dp n dateStr amountStr description acc) in
  FileProcessor.transactions out = FileProcessor.transactions acc
  \/ exists t, FileProcessor.transactions out = FileProcessor.transactions acc ++ [t].
Proof.
  unfold FileProcessor.processRow.
  destruct (FileProcessor.parseDate tz dp dateStr) as [d |];
    destruct (FileProcessor.parseAmount amountStr) as [a |];
    destruct (FileProcessor.date_ok _); destruct (FileProcessor.amount_ok _);
    simpl; try (left; reflexivity).
  destruct (FileProcessor.split_first description); simpl.
  - right; eexists; reflexivity.
  - left; reflexivity.
Qed.

(** ** Zero amounts *)






(** ** The merchant of a tabular row *)

Lemma first_present_skip (cols : list jsstring) (k : jsstring) (v : JSValue)
      (row : FileProcessor.Row) :
  forallb (fun c => negb (str_eqb k c)) cols = true ->
  FileProcessor.first_present ((k, v) :: row) cols
  = FileProcessor.first_present row cols.
Proof.
  induction cols as [| c rest IH]; simpl; intros H; [reflexivity|].
  apply andb_true_iff in H as [H1 H2]. apply negb_true_iff in H1.
  unfold FileProcessor.get at 1 2; simpl. rewrite H1.
  fold (FileProcessor.get row c). rewrite (IH H2). reflexivity.
Qed.

(** C10 (counterexample): the description [ Swiggy Food Order], with the
    space that follows a comma, is not empty and its first token is Swiggy,
    but the merchant of the accepted row is Unknown. *)
Lemma merchant_of_leading_space_description :
  map FileProcessor.merchant
      (FileProcessor.transactions
         (FileProcessor.csv_complete utc (Date_parse_month_name utc)
            [leading_space_row]))
  = [js "Unknown"]
  /\ FileProcessor.get leading_space_row (js "description")
     = VStr (js " Swiggy Food Order")
  /\ first_ws_token (js " Swiggy Food Order") = js "Swiggy".
Proof. repeat apply conj; vm_compute; reflexivity. Qed.

(** C10 (amended): the merchant of an accepted row is the text of the
    description cell before its first space character (U+0020), or Unknown
    when that text is empty, which is so for an empty description and for one
    that begins with a space.  No merchant column is read: a [merchant]
    property of a CSV row changes nothing, and a [Merchant] header of a sheet
    is chosen for none of the three columns. *)
Theorem merchant_is_text_before_first_space :
  forall tz dp n dateStr amountStr description acc t,
    FileProcessor.transactions
      (fst (FileProcessor.processRow tz dp n dateStr amountStr description acc))
    = FileProcessor.transactions acc ++ [t] ->
    (exists s,
       description = VStr s
       /\ FileProcessor.merchant t
          = match before_first_space s with [] => js "Unknown" | p => p end)
    /\ (forall acc' row index v,
          FileProcessor.csv_row tz dp acc' ((js "merchant", v) :: row) index
          = FileProcessor.csv_row tz dp acc' row index)
    /\ (forall cols,
          In cols [FileProcessor.dateColumns; FileProcessor.amountColumns;
                   FileProcessor.descColumns] ->
          FileProcessor.header_matches cols (VStr (js "Merchant")) = Normal false).
Proof.
  intros tz dp n dateStr amountStr description acc t H.
  split; [| split].
  - destruct (@processRow_push tz dp n dateStr amountStr description acc t H) as (s & Hs & _ & _ & _ & Hm).
    exists s; split; assumption.
  - intros acc' row index v. unfold FileProcessor.csv_row.
    rewrite !first_present_skip by (vm_compute; reflexivity). reflexivity.
  - intros cols Hin. simpl in Hin.
    destruct Hin as [<- | [<- | [<- | []]]]; vm_compute; reflexivity.
Qed.

Lemma merchant_is_text_before_first_space_witness :
  (exists s,
     VStr (js "Swiggy Food Order") = VStr s
     /\ js "Swiggy" = match before_first_space s with [] => js "Unknown" | p => p end)
  /\ (forall acc' row index v,
        FileProcessor.csv_row utc (Date_parse_month_name utc) acc'
          ((js "merchant", v) :: row) index
        = FileProcessor.csv_row utc (Date_parse_month_name utc) acc' row index)
  /\ (forall cols,
        In cols [FileProcessor.dateColumns; FileProcessor.amountColumns;
                 FileProcessor.descColumns] ->
        FileProcessor.header_matches cols (VStr (js "Merchant")) = Normal false).
Proof.
  apply (@merchant_is_text_before_first_space utc (Date_parse_month_name utc) 1%nat
           (VStr (js "15/02/2025")) (VStr (js "500"))
           (VStr (js "Swiggy Food Order"))
           (FileProcessor.mkResult [] [] [])
           (FileProcessor.mkTransaction (js "2025-02-15") (Fin false 500 0)
              (js "Swiggy Food Order") (js "Food") (js "UPI") (js "Swiggy"))).
  vm_compute; reflexivity.
Defined.

(** ** Dates printed by [toISOString] are days of the calendar *)

Lemma all_from_spec (fuel : nat) (z : Z) (f : Z -> bool) :
  all_from fuel z f = true ->
  forall i, z <= i < z + Z.of_nat fuel -> f i = true.
Proof.
  revert z; induction fuel as [| k IH]; intros z H i Hi.
  - simpl in Hi; lia.
  - simpl in H. apply andb_true_iff in H as [H1 H2].
    destruct (Z.eq_dec i z) as [-> | Hne]; [exact H1|].
    apply (IH (z + 1) H2). lia.
Qed.

Lemma every_doe_ok : all_from (Z.to_nat 146097) 0 doe_ok = true.
Proof. vm_cast_no_check (eq_refl true). Qed.

Lemma is_leap_era (y k : Z) : is_leap (y + k * 400) = is_leap y.
Proof.
  unfold is_leap.
  replace ((y + k * 400) mod 4) with (y mod 4) by dlia.
  replace ((y + k * 400) mod 100) with (y mod 100) by dlia.
  replace ((y + k * 400) mod 400) with (y mod 400) by dlia.
  reflexivity.
Qed.

Lemma days_in_month_era (y k m : Z) :
  days_in_month (y + k * 400) m = days_in_month y m.
Proof. unfold days_in_month. rewrite is_leap_era. reflexivity. Qed.

Lemma civil_from_days_valid (z : Z) :
  let '(y, m, d) := civil_from_days z in valid_date y m d.
Proof.
  unfold civil_from_days.
  set (z' := z + 719468). set (era := z' / 146097).
  assert (Hdoe : 0 <= z' - era * 146097 < 0 + Z.of_nat (Z.to_nat 146097)).
  { subst era. rewrite Z2Nat.id by lia. dlia. }
  pose proof (all_from_spec _ _ _ every_doe_ok _ Hdoe) as Hok.
  unfold doe_ok in Hok.
  destruct (civil_of_doe (z' - era * 146097)) as [[y m] d].
  unfold valid_date. rewrite days_in_month_era. lia.
Qed.

Lemma string_of_uint_digits (d : Decimal.uint) :
  Forall (fun c => is_digit c = true)
         (bytes_of_string (NilEmpty.string_of_uint d)).
Proof. induction d; simpl; constructor; try reflexivity; assumption. Qed.

Lemma N_to_digits_digits (n : N) :
  Forall (fun c => is_digit c = true) (N_to_digits n).
Proof.
  unfold N_to_digits, NilZero.string_of_uint.
  destruct (N.to_uint n) eqn:E;
    try (rewrite <- E; apply string_of_uint_digits).
  simpl. constructor; [reflexivity | constructor].
Qed.

Lemma pad_digits (w : nat) (z : Z) :
  Forall (fun c => is_digit c = true) (pad w z).
Proof.
  unfold pad. apply Forall_app; split.
  - apply Forall_forall. intros c Hc. apply repeat_spec in Hc. subst c. reflexivity.
  - apply N_to_digits_digits.
Qed.

Lemma digit_not (sep : N) (l : jsstring) :
  is_digit sep = false ->
  Forall (fun c => is_digit c = true) l ->
  Forall (fun c => (c =? sep)%N = false) l.
Proof.
  intros Hsep H. eapply Forall_impl; [| exact H].
  intros c Hc. simpl in Hc. destruct (c =? sep)%N eqn:E; [|reflexivity].
  apply N.eqb_eq in E. subst c. congruence.
Qed.

Lemma split_app_sep (sep : N) (a b : jsstring) :
  Forall (fun c => (c =? sep)%N = false) a ->
  split sep (a ++ sep :: b) = a :: split sep b.
Proof.
  induction 1 as [| c a Hc Ha IH]; simpl.
  - rewrite N.eqb_refl. reflexivity.
  - rewrite Hc, IH. reflexivity.
Qed.

Lemma split_no_sep (sep : N) (a : jsstring) :
  Forall (fun c => (c =? sep)%N = false) a ->
  split sep a = [a].
Proof.
  induction 1 as [| c a Hc Ha IH]; simpl; [reflexivity|].
  rewrite Hc, IH. reflexivity.
Qed.

Lemma iso_date_no_T (y m d : Z) :
  Forall (fun c => (c =? cu "T")%N = false) (iso_date y m d).
Proof.
  assert (Hd : forall w z, Forall (fun c => (c =? cu "T")%N = false) (pad w z)).
  { intros w z. apply digit_not; [reflexivity | apply pad_digits]. }
  assert (Hs : forall l : string,
             forallb (fun c => negb (c =? cu "T")%N) (js l) = true ->
             Forall (fun c => (c =? cu "T")%N = false) (js l)).
  { intros l H. apply Forall_forall. intros c Hc.
    rewrite forallb_forall in H. apply negb_true_iff, H, Hc. }
  unfold iso_date.
  apply Forall_app; split;
    [| apply Forall_app; split;
       [| apply Forall_app; split; [| apply Forall_app; split]]];
    try apply Hd; try (apply Hs; reflexivity).
  destruct ((0 <=? y) && (y <=? 9999)); [apply Hd|].
  apply Forall_app; split; [|apply Hd].
  destruct (y <? 0); apply Hs; reflexivity.
Qed.

Lemma before_T_toISOString (t : Z) :
  before_T (toISOString t)
  = let '(y, m, d) := civil_from_days (t / msPerDay) in iso_date y m d.
Proof.
  unfold before_T, toISOString.
  destruct (civil_from_days (t / msPerDay)) as [[y m] d].
  change (js "T" ++ ?r) with (cu "T" :: r).
  rewrite split_app_sep by apply iso_date_no_T. reflexivity.
Qed.

Lemma toISOString_real (t : Z) : real_calendar_date (before_T (toISOString t)).
Proof.
  rewrite before_T_toISOString.
  pose proof (civil_from_days_valid (t / msPerDay)) as H.
  destruct (civil_from_days (t / msPerDay)) as [[y m] d].
  exists y, m, d. split; [exact H | reflexivity].
Qed.

Lemma try_format_real tz clean format d :
  FileProcessor.try_format tz clean format = Some d -> real_calendar_date d.
Proof.
  unfold FileProcessor.try_format.
  destruct (split _ _) as [| p0 [| p1 [| p2 [| p3 r]]]]; try discriminate.
  destruct (if startsWith format (js "dd") then _ else _) as [[day month] year].
  destruct (Date_of_fields _ _ _ _) as [t |]; [| discriminate].
  destruct (parseInt _) as [y |]; [| discriminate].
  destruct (getFullYear tz t =? y); [| discriminate].
  intros H; inversion H. apply toISOString_real.
Qed.

Lemma parseDate_real tz dp v d :
  FileProcessor.parseDate tz dp v = Some d -> real_calendar_date d.
Proof.
  unfold FileProcessor.parseDate.
  destruct v as [| | b | x | [| c s]]; try discriminate.
  set (clean := replace_anchored _ _ _).
  assert (Hf : forall fs d', FileProcessor.try_formats tz clean fs = Some d' ->
                             real_calendar_date d').
  { induction fs as [| f fs IH]; cbn [FileProcessor.try_formats];
      intros d' H; [discriminate|].
    destruct (FileProcessor.try_format tz clean f) eqn:E.
    - inversion H; subst. eapply try_format_real, E.
    - apply IH, H. }
  destruct (FileProcessor.try_formats tz clean FileProcessor.DATE_FORMATS) eqn:E.
  - intros H; inversion H; subst. eapply Hf, E.
  - destruct (dp clean) as [t |]; [| discriminate].
    intros H; inversion H. apply toISOString_real.
Qed.

(** ** Accepted rows *)

Lemma catch_row_transactions n (r : FileProcessor.ProcessingResult * option Exn) :
  FileProcessor.transactions (FileProcessor.catch_row n r)
  = FileProcessor.transactions (fst r).
Proof. destruct r as [acc [e |]]; reflexivity. Qed.

Lemma processRow_sound tz dp n dateStr amountStr description acc :
  Forall sound_transaction (FileProcessor.transactions acc) ->
  Forall sound_transaction
    (FileProcessor.transactions
       (FileProcessor.catch_row n
          (FileProcessor.processRow tz dp n dateStr amountStr description acc))).
Proof.
  intros Hacc. rewrite catch_row_transactions.
  destruct (processRow_transactions tz dp n dateStr amountStr description acc)
    as [E | [t E]]; rewrite E; [exact Hacc|].
  apply Forall_app; split; [exact Hacc|].
  constructor; [| constructor].
  destruct (processRow_push tz dp n dateStr amountStr description acc t E)
    as (s & _ & Hd & _ & Hn & _).
  split; [eapply parseDate_real, Hd | exact Hn].
Qed.

Lemma forEach_invariant {A B} (P : B -> Prop) (f : B -> A -> nat -> B) :
  (forall acc x i, P acc -> P (f acc x i)) ->
  forall l i acc, P acc -> P (FileProcessor.forEach f l i acc).
Proof.
  intros Hf l. induction l as [| x l IH]; simpl; intros i acc H; [exact H|].
  apply IH, Hf, H.
Qed.

Lemma csv_complete_sound tz dp data :
  Forall sound_transaction
    (FileProcessor.transactions (FileProcessor.csv_complete tz dp data)).
Proof.
  unfold FileProcessor.csv_complete.
  apply (forEach_invariant
           (fun acc => Forall sound_transaction (FileProcessor.transactions acc))).
  - intros acc row i H. apply processRow_sound, H.
  - constructor.
Qed.

Lemma excel_row_sound tz dp dateColIndex amountColIndex descColIndex acc row i :
  Forall sound_transaction (FileProcessor.transactions acc) ->
  Forall sound_transaction
    (FileProcessor.transactions
       (FileProcessor.excel_row tz dp dateColIndex amountColIndex descColIndex
          acc row i)).
Proof.
  intros Hacc. unfold FileProcessor.excel_row.
  destruct row; [exact Hacc | apply processRow_sound, Hacc].
Qed.

Lemma excel_onload_sound tz dp sheet r :
  FileProcessor.excel_onload tz dp sheet = Normal r ->
  Forall sound_transaction (FileProcessor.transactions r).
Proof.
  unfold FileProcessor.excel_onload.
  destruct sheet as [e | jsonData]; [discriminate|].
  destruct jsonData as [| headers [| row rows]];
    try (intros H; inversion H; constructor).
  destruct (FileProcessor.findColumn _ headers) as [dateColIndex | e];
    [| discriminate].
  destruct (FileProcessor.findColumn _ headers) as [amountColIndex | e];
    [| discriminate].
  destruct (FileProcessor.findColumn _ headers) as [descColIndex | e];
    [| discriminate].
  intros H; inversion H; subst r; clear H.
  apply (forEach_invariant
           (fun acc => Forall sound_transaction (FileProcessor.transactions acc))).
  - intros acc x i Hacc. apply excel_row_sound, Hacc.
  - apply excel_row_sound.
    destruct dateColIndex, amountColIndex, descColIndex; constructor.
Qed.

(** C2 (counterexample): a CSV row whose amount cell reads [Infinity] is
    accepted, and the amount of its transaction is not finite. *)
Lemma infinite_amount_accepted :
  map FileProcessor.amount
      (FileProcessor.transactions
         (FileProcessor.csv_complete utc (Date_parse_month_name utc)
            [infinity_row]))
  = [Inf false]
  /\ isFinite (Inf false) = false.
Proof. apply conj; vm_compute; reflexivity. Qed.

(** ** Rows are handled in order *)

Lemma extends_refl (a : FileProcessor.ProcessingResult) : extends a a.
Proof. repeat split; exists []; symmetry; apply app_nil_r. Qed.

Lemma extends_trans (a b c : FileProcessor.ProcessingResult) :
  extends a b -> extends b c -> extends a c.
Proof.
  intros ([t1 H1] & [w1 H2] & [e1 H3]) ([t2 H4] & [w2 H5] & [e2 H6]).
  repeat split; eexists.
  - rewrite H4, H1, <- app_assoc. reflexivity.
  - rewrite H5, H2, <- app_assoc. reflexivity.
  - rewrite H6, H3, <- app_assoc. reflexivity.
Qed.

Lemma row_extends tz dp n dateStr amountStr description acc :
  extends acc
    (FileProcessor.catch_row n
       (FileProcessor.processRow tz dp n dateStr amountStr description acc)).
Proof.
  unfold extends, FileProcessor.processRow, FileProcessor.catch_row,
    FileProcessor.push.
  destruct (FileProcessor.parseDate tz dp dateStr) as [d |];
    destruct (FileProcessor.parseAmount amountStr) as [a |];
    cbn [FileProcessor.date_ok FileProcessor.amount_ok];
    try destruct d as [| c d];
    try destruct (num_truthy a);
    cbn [andb];
    try destruct (FileProcessor.split_first description);
    cbn [FileProcessor.transactions FileProcessor.warnings FileProcessor.errors];
    repeat split; eexists;
    try (symmetry; apply app_nil_r);
    try reflexivity;
    try (rewrite <- app_assoc; reflexivity).
Qed.

Lemma forEach_app {A B} (f : B -> A -> nat -> B) (l1 l2 : list A) :
  forall i acc,
    FileProcessor.forEach f (l1 ++ l2) i acc
    = FileProcessor.forEach f l2 (i + length l1)
        (FileProcessor.forEach f l1 i acc).
Proof.
  induction l1 as [| x l1 IH]; intros i acc; cbn [app FileProcessor.forEach length].
  - rewrite Nat.add_0_r. reflexivity.
  - rewrite IH. f_equal. lia.
Qed.

Lemma forEach_extends {A} (f : FileProcessor.ProcessingResult -> A -> nat
                               -> FileProcessor.ProcessingResult) :
  (forall acc x i, extends acc (f acc x i)) ->
  forall l i acc, extends acc (FileProcessor.forEach f l i acc).
Proof.
  intros Hf l. induction l as [| x l IH]; intros i acc; cbn [FileProcessor.forEach].
  - apply extends_refl.
  - eapply extends_trans; [apply Hf | apply IH].
Qed.

(** ** What a result says of each row *)

Lemma extends_In (a b : FileProcessor.ProcessingResult) :
  extends a b ->
  (forall w, In w (FileProcessor.warnings a) -> In w (FileProcessor.warnings b))
  /\ (forall e, In e (FileProcessor.errors a) -> In e (FileProcessor.errors b)).
Proof.
  intros (_ & [w Hw] & [e He]). rewrite Hw, He.
  split; intros x Hx; apply in_or_app; left; exact Hx.
Qed.

Lemma row_reported_extends tz dp n dateStr amountStr description a b :
  extends a b ->
  row_reported tz dp n dateStr amountStr description a ->
  row_reported tz dp n dateStr amountStr description b.
Proof.
  intros Hab (H1 & H2 & H3). destruct (extends_In a b Hab) as [Hw He].
  repeat split.
  - intros H. apply Hw, H1, H.
  - intros H. apply Hw, H2, H.
  - intros Hd Ha Hn. destruct (H3 Hd Ha Hn) as (e & Hs & H). exists e.
    split; [exact Hs | apply He, H].
Qed.

(** The row that has just been handled is reported. *)
Lemma row_reported_now tz dp n dateStr amountStr description acc :
  row_reported tz dp n dateStr amountStr description
    (FileProcessor.catch_row n
       (FileProcessor.processRow tz dp n dateStr amountStr description acc)).
Proof.
  unfold row_reported, date_warning, amount_warning, FileProcessor.processRow,
    FileProcessor.catch_row, FileProcessor.push.
  destruct (FileProcessor.parseDate tz dp dateStr) as [d |];
    destruct (FileProcessor.parseAmount amountStr) as [a |];
    cbn [FileProcessor.date_ok FileProcessor.amount_ok];
    try destruct d as [| c d];
    try destruct (num_truthy a);
    cbn [andb];
    repeat split; try discriminate; intros;
    try (cbn [FileProcessor.warnings fst]; rewrite ?in_app_iff; cbn [In];
         now auto 6).
  destruct description as [| | b | x | s];
    try (exfalso; match goal with H : not_text _ |- _ => apply (H s) end;
         reflexivity);
    cbn [FileProcessor.split_first FileProcessor.errors];
    eexists; (split; [reflexivity|]); apply in_or_app; right; left; reflexivity.
Qed.

(** The element at place [i] of the list is handled with the index
    [start + i], on some state of the three arrays, and what it leaves stays
    in the final state. *)
Lemma forEach_nth {A} (f : FileProcessor.ProcessingResult -> A -> nat
                           -> FileProcessor.ProcessingResult) :
  (forall acc x i, extends acc (f acc x i)) ->
  forall l start acc i x,
    nth_error l i = Some x ->
    exists acc',
      extends acc acc'
      /\ extends (f acc' x (start + i)%nat) (FileProcessor.forEach f l start acc).
Proof.
  intros Hf l. induction l as [| y l IH]; intros start acc i x H.
  - destruct i; discriminate.
  - destruct i as [| i]; cbn [nth_error] in H; cbn [FileProcessor.forEach].
    + inversion H; subst y. exists acc. split; [apply extends_refl|].
      rewrite Nat.add_0_r. apply forEach_extends, Hf.
    + destruct (IH (S start) (f acc y start) i x H) as (acc' & H1 & H2).
      exists acc'. split.
      * eapply extends_trans; [apply Hf | exact H1].
      * replace (start + S i)%nat with (S start + i)%nat by lia. exact H2.
Qed.

Lemma csv_row_extends tz dp acc row i :
  extends acc (FileProcessor.csv_row tz dp acc row i).
Proof. apply row_extends. Qed.

Lemma excel_row_extends tz dp ixd ixa ixs acc row i :
  extends acc (FileProcessor.excel_row tz dp ixd ixa ixs acc row i).
Proof.
  unfold FileProcessor.excel_row. destruct row; [apply extends_refl|].
  apply row_extends.
Qed.

Lemma csv_complete_reported tz dp data i row :
  nth_error data i = Some row ->
  row_reported tz dp (i + 1) (csv_date row) (csv_amount row) (csv_description row)
    (FileProcessor.csv_complete tz dp data).
Proof.
  intros H. unfold FileProcessor.csv_complete.
  destruct (forEach_nth (FileProcessor.csv_row tz dp) (csv_row_extends tz dp)
              data 0%nat (FileProcessor.mkResult [] [] []) i row H)
    as (acc' & _ & H2).
  eapply row_reported_extends; [exact H2|].
  cbn [Nat.add]. apply row_reported_now.
Qed.

Lemma warn_missing_extends ix what acc :
  extends acc (FileProcessor.warn_missing ix what acc)
  /\ (ix = None ->
      In (missing_column what)
         (FileProcessor.warnings (FileProcessor.warn_missing ix what acc))).
Proof.
  destruct ix; cbn [FileProcessor.warn_missing].
  - split; [apply extends_refl | discriminate].
  - split.
    + repeat split; cbn [FileProcessor.transactions FileProcessor.warnings
                         FileProcessor.errors]; eexists;
        try (symmetry; apply app_nil_r); reflexivity.
    + intros _. cbn [FileProcessor.warnings]. unfold FileProcessor.push.
      apply in_or_app. right. left. reflexivity.
Qed.

Lemma excel_rows_reported tz dp headers row rows ixd ixa ixs :
  rows_reported tz dp (headers :: row :: rows) ixd ixa ixs
    (FileProcessor.forEach (FileProcessor.excel_row tz dp ixd ixa ixs)
       (row :: rows) 1%nat
       (FileProcessor.warn_missing ixs "description"
          (FileProcessor.warn_missing ixa "amount"
             (FileProcessor.warn_missing ixd "date"
                (FileProcessor.mkResult [] [] []))))).
Proof.
  set (a0 := FileProcessor.mkResult [] [] []).
  set (a1 := FileProcessor.warn_missing ixd "date" a0).
  set (a2 := FileProcessor.warn_missing ixa "amount" a1).
  set (a3 := FileProcessor.warn_missing ixs "description" a2).
  set (f := FileProcessor.excel_row tz dp ixd ixa ixs).
  assert (Hf : forall acc x i, extends acc (f acc x i))
    by (intros; apply excel_row_extends).
  destruct (warn_missing_extends ixd "date" a0) as [_ W1].
  destruct (warn_missing_extends ixa "amount" a1) as [E2 W2].
  destruct (warn_missing_extends ixs "description" a2) as [E3 W3].
  fold a1 in W1, E2. fold a2 in W2, E3. fold a3 in W3, E3.
  pose proof (forEach_extends f Hf (row :: rows) 1%nat a3) as E4.
  destruct (extends_In _ _ E4) as [In4 _].
  destruct (extends_In _ _ E3) as [In3 _].
  destruct (extends_In _ _ E2) as [In2 _].
  split; [| split; [| split]].
  - intros H. apply In4, In3, In2, W1, H.
  - intros H. apply In4, In3, W2, H.
  - intros H. apply In4, W3, H.
  - intros i r0 Hnth Hi Hne.
    destruct i as [| i]; [lia|]. cbn [nth_error] in Hnth.
    destruct (forEach_nth f Hf (row :: rows) 1%nat a3 i r0 Hnth)
      as (acc' & _ & H2).
    eapply row_reported_extends; [exact H2|].
    unfold f, FileProcessor.excel_row.
    destruct r0 as [| c r0]; [congruence|].
    replace (S i + 1)%nat with (1 + i + 1)%nat by lia.
    apply row_reported_now.
Qed.

(** ** The transactions of a result *)

Lemma row_transactions tz dp n dateStr amountStr description acc :
  map date_and_amount
    (FileProcessor.transactions
       (FileProcessor.catch_row n
          (FileProcessor.processRow tz dp n dateStr amountStr description acc)))
  = map date_and_amount (FileProcessor.transactions acc)
    ++ accepted tz dp dateStr amountStr description.
Proof.
  unfold accepted, FileProcessor.processRow, FileProcessor.catch_row,
    FileProcessor.push.
  destruct (FileProcessor.parseDate tz dp dateStr) as [d |];
    destruct (FileProcessor.parseAmount amountStr) as [a |];
    cbn [FileProcessor.date_ok FileProcessor.amount_ok];
    try destruct d as [| c d];
    try destruct (num_truthy a);
    cbn [andb];
    try destruct description as [| | b | x | s];
    cbn [FileProcessor.split_first FileProcessor.transactions];
    rewrite ?map_app, ?app_nil_r; reflexivity.
Qed.

Lemma csv_transactions tz dp data :
  forall i acc,
    map date_and_amount
      (FileProcessor.transactions
         (FileProcessor.forEach (FileProcessor.csv_row tz dp) data i acc))
    = map date_and_amount (FileProcessor.transactions acc)
      ++ flat_map (fun row => accepted tz dp (csv_date row) (csv_amount row)
                                 (csv_description row)) data.
Proof.
  induction data as [| row data IH]; intros i acc;
    cbn [FileProcessor.forEach flat_map].
  - rewrite app_nil_r. reflexivity.
  - rewrite IH. unfold FileProcessor.csv_row. rewrite row_transactions.
    rewrite <- app_assoc. reflexivity.
Qed.

Lemma excel_transactions tz dp ixd ixa ixs rows :
  forall i acc,
    map date_and_amount
      (FileProcessor.transactions
         (FileProcessor.forEach (FileProcessor.excel_row tz dp ixd ixa ixs)
            rows i acc))
    = map date_and_amount (FileProcessor.transactions acc)
      ++ flat_map (fun row => accepted tz dp (FileProcessor.cell ixd row)
                                 (FileProcessor.cell ixa row)
                                 (FileProcessor.cell ixs row))
           (data_rows rows).
Proof.
  induction rows as [| row rows IH]; intros i acc;
    cbn [FileProcessor.forEach data_rows filter].
  - rewrite app_nil_r. reflexivity.
  - rewrite IH. destruct row as [| c row].
    + reflexivity.
    + cbn [flat_map].
      change (FileProcessor.excel_row tz dp ixd ixa ixs acc (c :: row) i)
        with (FileProcessor.catch_row (i + 1)
                (FileProcessor.processRow tz dp (i + 1)
                   (FileProcessor.cell ixd (c :: row))
                   (FileProcessor.cell ixa (c :: row))
                   (FileProcessor.cell ixs (c :: row)) acc)).
      rewrite row_transactions, <- app_assoc. reflexivity.
Qed.

Lemma warn_missing_transactions ix what acc :
  FileProcessor.transactions (FileProcessor.warn_missing ix what acc)
  = FileProcessor.transactions acc.
Proof. destruct ix; reflexivity. Qed.

(** C2 (amended): in [processCSV] and [processExcel] the transactions of the
    result are, in order, those of the rows whose date and amount both
    parsed ([parseDate] gave a date, [parseAmount] an amount that is neither
    null, NaN nor zero), each with these two values; a row whose date or
    amount fails gives none and has, in the warnings of the result, the
    warning with its number (the index plus one) and the raw cell.  So every
    transaction has a date that is a day of the calendar and an amount that
    is not zero (and not NaN); the amount may be infinite. *)
Theorem rows_accepted_only_when_both_parse :
  forall (tz : Z) (Date_parse : jsstring -> option Z),
    (forall data : list FileProcessor.Row,
       let r := FileProcessor.csv_complete tz Date_parse data in
       map date_and_amount (FileProcessor.transactions r)
       = flat_map (fun row => accepted tz Date_parse (csv_date row)
                                (csv_amount row) (csv_description row)) data
       /\ Forall sound_transaction (FileProcessor.transactions r)
       /\ forall (i : nat) (row : FileProcessor.Row),
            nth_error data i = Some row ->
            (FileProcessor.date_ok
               (FileProcessor.parseDate tz Date_parse (csv_date row)) = false ->
             accepted tz Date_parse (csv_date row) (csv_amount row)
                      (csv_description row) = []
             /\ In (date_warning (i + 1) (csv_date row))
                   (FileProcessor.warnings r))
            /\ (FileProcessor.amount_ok
                  (FileProcessor.parseAmount (csv_amount row)) = false ->
                accepted tz Date_parse (csv_date row) (csv_amount row)
                         (csv_description row) = []
                /\ In (amount_warning (i + 1) (csv_amount row))
                      (FileProcessor.warnings r)))
    /\ (forall (headers row1 : list JSValue) (rows : list (list JSValue))
               (ixd ixa ixs : option nat),
          FileProcessor.findColumn FileProcessor.dateColumns headers = Normal ixd ->
          FileProcessor.findColumn FileProcessor.amountColumns headers = Normal ixa ->
          FileProcessor.findColumn FileProcessor.descColumns headers = Normal ixs ->
          exists r,
            FileProcessor.excel_onload tz Date_parse
              (FileProcessor.SheetRows (headers :: row1 :: rows)) = Normal r
            /\ map date_and_amount (FileProcessor.transactions r)
               = flat_map (fun row =>
                             accepted tz Date_parse (FileProcessor.cell ixd row)
                               (FileProcessor.cell ixa row)
                               (FileProcessor.cell ixs row))
                          (data_rows (row1 :: rows))
            /\ Forall sound_transaction (FileProcessor.transactions r)
            /\ forall (i : nat) (row : list JSValue),
                 nth_error (headers :: row1 :: rows) i = Some row ->
                 (1 <= i)%nat -> row <> [] ->
                 (FileProcessor.date_ok
                    (FileProcessor.parseDate tz Date_parse
                       (FileProcessor.cell ixd row)) = false ->
                  accepted tz Date_parse (FileProcessor.cell ixd row)
                    (FileProcessor.cell ixa row) (FileProcessor.cell ixs row) = []
                  /\ In (date_warning (i + 1) (FileProcessor.cell ixd row))
                        (FileProcessor.warnings r))
                 /\ (FileProcessor.amount_ok
                       (FileProcessor.parseAmount (FileProcessor.cell ixa row))
                     = false ->
                     accepted tz Date_parse (FileProcessor.cell ixd row)
                       (FileProcessor.cell ixa row) (FileProcessor.cell ixs row)
                     = []
                     /\ In (amount_warning (i + 1) (FileProcessor.cell ixa row))
                           (FileProcessor.warnings r))).
Proof.
  intros tz dp.
  assert (Hd : forall d a s,
             FileProcessor.date_ok (FileProcessor.parseDate tz dp d) = false ->
             accepted tz dp d a s = []).
  { intros d a s H. unfold accepted.
    destruct (FileProcessor.parseDate tz dp d) as [[| c t] |];
      [| discriminate |];
      destruct (FileProcessor.parseAmount a); try reflexivity;
      destruct s; reflexivity. }
  assert (Ha : forall d a s,
             FileProcessor.amount_ok (FileProcessor.parseAmount a) = false ->
             accepted tz dp d a s = []).
  { intros d a s H. unfold accepted.
    destruct (FileProcessor.parseDate tz dp d) as [[| c t] |];
      destruct (FileProcessor.parseAmount a) as [x |]; try reflexivity;
      destruct s; try reflexivity.
    cbn [FileProcessor.amount_ok] in H. rewrite H. reflexivity. }
  split.
  - intros data r. subst r. split; [| split].
    + unfold FileProcessor.csv_complete. rewrite csv_transactions. reflexivity.
    + apply csv_complete_sound.
    + intros i row Hnth.
      destruct (csv_complete_reported tz dp data i row Hnth) as (R1 & R2 & _).
      split; intros H; (split; [auto | auto]).
  - intros headers row1 rows ixd ixa ixs H1 H2 H3.
    cbn [FileProcessor.excel_onload]. rewrite H1, H2, H3.
    eexists. split; [reflexivity|].
    pose proof (excel_rows_reported tz dp headers row1 rows ixd ixa ixs)
      as (_ & _ & _ & R).
    split; [| split].
    + rewrite excel_transactions, !warn_missing_transactions. reflexivity.
    + apply (excel_onload_sound tz dp
               (FileProcessor.SheetRows (headers :: row1 :: rows))).
      cbn [FileProcessor.excel_onload]. rewrite H1, H2, H3. reflexivity.
    + intros i row Hnth Hi Hne.
      destruct (R i row Hnth Hi Hne) as (R1 & R2 & _).
      split; intros H; (split; [auto | auto]).
Qed.

(** ** processFile never throws *)

(** C1: for every host and every file, the promise of [processFile] is
    resolved with a result, never rejected, and the result reports each
    failure: an unsupported type, a PDF, a failure or an exception of the
    CSV reader, of the file reader or of the sheet decoder, a sheet of fewer
    than two rows and a heading that is not text each give their one error;
    a column that is not found gives its warning; and each row of a CSV file
    or of a sheet whose date or amount does not parse, or whose handling
    throws, has its warning or its error, with its number, in the result. *)
Theorem processFile_never_throws :
  forall (tz : Z) (Date_parse : jsstring -> option Z) (file : FileProcessor.File),
  exists r : FileProcessor.ProcessingResult,
    FileProcessor.processFile tz Date_parse file = Resolved r
    /\ reported tz Date_parse file r.
Proof.
  intros tz dp file.
  unfold FileProcessor.processFile, reported.
  destruct (FileProcessor.route file).
  - (* CSV *)
    unfold FileProcessor.processCSV, csv_reported.
    destruct (FileProcessor.papa file) as [data | message | e];
      cbn [FileProcessor.try_await]; eexists; (split; [reflexivity|]);
      try reflexivity.
    intros i row Hnth. apply csv_complete_reported, Hnth.
  - (* Excel *)
    unfold FileProcessor.processExcel, excel_reported.
    destruct (FileProcessor.reader file) as [| [e | jsonData]];
      cbn [FileProcessor.try_await FileProcessor.excel_onload];
      try (eexists; split; reflexivity).
    destruct jsonData as [| headers [| row rows]];
      cbn [FileProcessor.try_await];
      try (eexists; split; reflexivity).
    assert (Hthrow : forall cols e,
               FileProcessor.findColumn cols headers = Throw e ->
               exists h, In h headers /\ truthy h = true /\ not_text h
                         /\ FileProcessor.header_matches
                              FileProcessor.dateColumns h = Throw e).
    { intros cols e. induction headers as [| h hs IH];
        cbn [FileProcessor.findColumn]; [discriminate|].
      unfold FileProcessor.header_matches at 1.
      destruct (truthy h) eqn:Ht.
      - destruct h as [| | b | x | s];
          try (intros H; inversion H; subst e; eexists; split; [left; reflexivity|];
               split; [exact Ht|]; split; [intros s; discriminate|];
               unfold FileProcessor.header_matches; rewrite Ht; reflexivity).
        destruct (existsb _ _); [discriminate|].
        destruct (FileProcessor.findColumn cols hs) as [[j |] | e'];
          try discriminate.
        intros H. destruct (IH H) as (h' & Hin & Hh). exists h'.
        split; [right; exact Hin | exact Hh].
      - destruct (FileProcessor.findColumn cols hs) as [[j |] | e'];
          try discriminate.
        intros H. destruct (IH H) as (h' & Hin & Hh). exists h'.
        split; [right; exact Hin | exact Hh]. }
    assert (Hfirst : forall cols,
               truthy (hd VUndefined headers) = true ->
               not_text (hd VUndefined headers) ->
               exists e, FileProcessor.findColumn cols headers = Throw e
                         /\ FileProcessor.header_matches
                              FileProcessor.dateColumns (hd VUndefined headers)
                            = Throw e).
    { intros cols Ht Hn. destruct headers as [| h hs]; [discriminate|].
      cbn [hd] in Ht, Hn |- *. cbn [FileProcessor.findColumn].
      unfold FileProcessor.header_matches. rewrite Ht.
      destruct h as [| | b | x | s]; try (eexists; split; reflexivity).
      exfalso. apply (Hn s). reflexivity. }
    destruct (FileProcessor.findColumn FileProcessor.dateColumns headers)
      as [ixd | e] eqn:E1.
    2:{ eexists. split; [reflexivity|]. split.
        - intros Ht Hn.
          destruct (Hfirst FileProcessor.dateColumns Ht Hn) as (e' & E & Hm).
          assert (e' = e) by congruence. subst e'.
          exists e. split; [exact Hm | reflexivity].
        - left. destruct (Hthrow _ _ E1) as (h & Hin & Ht & Hn & Hh).
          exists h, e. repeat split; assumption. }
    destruct (FileProcessor.findColumn FileProcessor.amountColumns headers)
      as [ixa | e] eqn:E2.
    2:{ eexists. split; [reflexivity|]. split.
        - intros Ht Hn.
          destruct (Hfirst FileProcessor.dateColumns Ht Hn) as (e' & E & _).
          congruence.
        - left. destruct (Hthrow _ _ E2) as (h & Hin & Ht & Hn & Hh).
          exists h, e. repeat split; assumption. }
    destruct (FileProcessor.findColumn FileProcessor.descColumns headers)
      as [ixs | e] eqn:E3.
    2:{ eexists. split; [reflexivity|]. split.
        - intros Ht Hn.
          destruct (Hfirst FileProcessor.dateColumns Ht Hn) as (e' & E & _).
          congruence.
        - left. destruct (Hthrow _ _ E3) as (h & Hin & Ht & Hn & Hh).
          exists h, e. repeat split; assumption. }
    eexists. split; [reflexivity|]. split.
    + intros Ht Hn.
      destruct (Hfirst FileProcessor.dateColumns Ht Hn) as (e & He & _).
      congruence.
    + right. exists ixd, ixa, ixs.
      split; [reflexivity | split; [reflexivity | split; [reflexivity|]]].
      apply excel_rows_reported.
  - (* PDF *)
    cbn. eexists. split; reflexivity.
  - cbn. eexists. split; reflexivity.
Qed.

(** ** The calendar: a date is found again from its day number *)

Lemma every_grid_ok : all_from (Z.to_nat 148800) 0 grid_ok = true.
Proof. vm_cast_no_check (eq_refl true). Qed.

Lemma days_from_civil_era (y m d k : Z) :
  days_from_civil (y + k * 400) m d = days_from_civil y m d + k * 146097.
Proof.
  unfold days_from_civil.
  destruct (m <=? 2), (2 <? m); dlia.
Qed.

Lemma civil_from_days_era (z k : Z) :
  civil_from_days (z + k * 146097)
  = let '(y, m, d) := civil_from_days z in (y + k * 400, m, d).
Proof.
  unfold civil_from_days.
  replace ((z + k * 146097 + 719468) / 146097)
    with ((z + 719468) / 146097 + k) by dlia.
  replace (z + k * 146097 + 719468 - ((z + 719468) / 146097 + k) * 146097)
    with (z + 719468 - (z + 719468) / 146097 * 146097) by lia.
  destruct (civil_of_doe _) as [[y m] d].
  repeat (f_equal; try lia).
Qed.

Lemma civil_from_days_from_civil (y m d : Z) :
  valid_date y m d ->
  civil_from_days (days_from_civil y m d) = (y, m, d).
Proof.
  intros [Hm Hd].
  set (y0 := y mod 400). set (k := y / 400).
  assert (Hy : y = y0 + k * 400) by (subst y0 k; dlia).
  assert (Hy0 : 0 <= y0 < 400) by (subst y0; dlia).
  assert (Hdim : days_in_month y m = days_in_month y0 m).
  { rewrite Hy. apply days_in_month_era. }
  assert (Hd31 : d <= 31).
  { unfold days_in_month in Hd.
    destruct (m =? 2); [destruct (is_leap y)|];
      [lia | lia | destruct (_ || _); lia]. }
  set (g := y0 * 372 + (m - 1) * 31 + (d - 1)).
  assert (Hg : 0 <= g < 0 + Z.of_nat (Z.to_nat 148800)).
  { rewrite Z2Nat.id by lia. subst g. lia. }
  pose proof (all_from_spec _ _ _ every_grid_ok g Hg) as Hok.
  unfold grid_ok in Hok.
  replace (g / 372) with y0 in Hok by (subst g; dlia).
  replace (g mod 372 / 31 + 1) with m in Hok by (subst g; dlia).
  replace (g mod 31 + 1) with d in Hok by (subst g; dlia).
  rewrite <- Hdim in Hok.
  destruct (d <=? days_in_month y m) eqn:E; [| lia].
  rewrite Hy, days_from_civil_era, civil_from_days_era.
  destruct (civil_from_days (days_from_civil y0 m d)) as [[y' m'] d'].
  repeat (f_equal; try lia).
Qed.

Lemma MakeDay_valid (y m d : Z) :
  1 <= m <= 12 -> MakeDay y (m - 1) d = days_from_civil y m d.
Proof.
  intros Hm. unfold MakeDay.
  replace ((m - 1) / 12) with 0 by dlia.
  replace ((m - 1) mod 12 + 1) with m by dlia.
  rewrite Z.add_0_r. unfold days_from_civil.
  destruct (m <=? 2), (2 <? m); lia.
Qed.

Lemma days_from_civil_bound (y m d : Z) :
  0 <= y <= 9999 -> 1 <= m <= 12 -> 1 <= d <= 31 ->
  -800000 <= days_from_civil y m d <= 3000000.
Proof.
  intros Hy Hm Hd. unfold days_from_civil.
  destruct (m <=? 2) eqn:E1, (2 <? m) eqn:E2; dlia.
Qed.

(** ** Text with digits and separators *)

Lemma digit_cases (c : N) :
  is_digit c = true ->
  (c = 48 \/ c = 49 \/ c = 50 \/ c = 51 \/ c = 52 \/ c = 53 \/ c = 54
   \/ c = 55 \/ c = 56 \/ c = 57)%N.
Proof.
  unfold is_digit. intros H. apply andb_true_iff in H as [H1 H2].
  apply N.leb_le in H1, H2. lia.
Qed.

Lemma digit_facts (c : N) :
  is_digit c = true ->
  is_space c = false /\ ci_eqb c 68 = false
  /\ in_set (js "/-.") c = false.
Proof.
  intros H. apply digit_cases in H.
  repeat (destruct H as [-> | H]); try subst c;
    repeat apply conj; vm_compute; reflexivity.
Qed.

Lemma spans_shape (p : N -> bool) (s : jsstring) :
  exists rest,
    spans p s = ([], s) :: rest
    /\ Forall (fun x => (1 <= length (fst x))%nat) rest.
Proof.
  destruct s as [| c r]; simpl.
  - exists []. split; [reflexivity | constructor].
  - destruct (p c).
    + eexists; split; [reflexivity|].
      apply Forall_forall. intros x Hx. apply in_map_iff in Hx.
      destruct Hx as ([a b] & <- & _). simpl. lia.
    + exists []. split; [reflexivity | constructor].
Qed.

Lemma one_cons (p : N -> bool) (c : N) (t : jsstring) :
  one p (c :: t) = if p c then [([c], t)] else [].
Proof.
  unfold one, rep, rep_lazy. simpl spans.
  destruct (p c); [| reflexivity].
  destruct (spans_shape p t) as (rest & -> & Hrest).
  simpl. replace (filter _ (map _ rest)) with (@nil (jsstring * jsstring));
    [reflexivity|].
  symmetry. induction Hrest as [| [a b] rest Hab _ IH]; simpl; [reflexivity|].
  rewrite <- IH. simpl in Hab. unfold within; simpl.
  destruct (length a); [lia | reflexivity].
Qed.

Lemma scan_one (p : N -> bool) (s : jsstring) :
  scan (one p) 0 s = map (fun c => if p c then inl [c] else inr c) s.
Proof.
  induction s as [| c t IH]; [reflexivity|].
  cbn [scan map]. rewrite one_cons.
  destruct (p c); cbn [first_match]; [| rewrite IH; reflexivity].
  replace (length (c :: t) - length t)%nat with 1%nat by (cbn [length]; lia).
  rewrite IH. reflexivity.
Qed.

(** Replacing every code unit of a class by one code unit is a [map]. *)
Lemma replace_all_one (p : N -> bool) (x : N) (s : jsstring) :
  replace_all (one p) [x] s = map (fun c => if p c then x else c) s.
Proof.
  unfold replace_all. rewrite scan_one.
  induction s as [| c t IH]; simpl; [reflexivity|].
  rewrite IH. destruct (p c); reflexivity.
Qed.

Lemma normalise_digits (l : jsstring) :
  Forall (fun c => is_digit c = true) l ->
  map (fun c => if in_set (js "/-.") c then 47%N else c) l = l.
Proof.
  induction 1 as [| c l Hc _ IH]; cbn [map]; [reflexivity|].
  destruct (digit_facts c Hc) as (_ & _ & ->). rewrite IH. reflexivity.
Qed.

Lemma trim_id (s : jsstring) :
  first_not_space s -> first_not_space (rev s) -> trim s = s.
Proof.
  unfold trim. intros H1 H2.
  assert (E1 : dropWhile is_space s = s).
  { destruct s; simpl in *; [reflexivity | rewrite H1; reflexivity]. }
  rewrite E1.
  assert (E2 : dropWhile is_space (rev s) = rev s).
  { destruct (rev s); simpl in *; [reflexivity | rewrite H2; reflexivity]. }
  rewrite E2. apply rev_involutive.
Qed.

Lemma date_label_no_match (c : N) (s : jsstring) :
  ci_eqb c 68 = false ->
  replace_anchored FileProcessor.re_date_label [] (c :: s) = c :: s.
Proof.
  intros H. unfold replace_anchored, FileProcessor.re_date_label, re_bind,
    re_alts, re_alt, lit_i, re_lit_by.
  change (js "Date") with (68%N :: js "ate").
  change (js "Dt") with (68%N :: js "t").
  change (js "D") with [68%N].
  cbn [startsWith_by]. rewrite H. reflexivity.
Qed.

Lemma every_pad2_ok : all_from (Z.to_nat 100) 0 (pad_ok 2) = true.
Proof. vm_cast_no_check (eq_refl true). Qed.

Lemma every_pad4_ok : all_from (Z.to_nat 10000) 0 (pad_ok 4) = true.
Proof. vm_cast_no_check (eq_refl true). Qed.

Lemma pad_ok_spec (w : nat) (n : Z) :
  pad_ok w n = true -> length (pad w n) = w /\ parseInt (pad w n) = Some n.
Proof.
  unfold pad_ok. intros H. apply andb_true_iff in H as [H1 H2].
  apply Nat.eqb_eq in H1. split; [exact H1|].
  destruct (parseInt (pad w n)) as [v |]; [| discriminate].
  apply Z.eqb_eq in H2. congruence.
Qed.

Lemma pad2_spec (n : Z) :
  0 <= n <= 99 -> length (pad 2 n) = 2%nat /\ parseInt (pad 2 n) = Some n.
Proof.
  intros H. apply pad_ok_spec.
  apply (all_from_spec _ _ _ every_pad2_ok). rewrite Z2Nat.id; lia.
Qed.

Lemma pad4_spec (n : Z) :
  0 <= n <= 9999 -> length (pad 4 n) = 4%nat /\ parseInt (pad 4 n) = Some n.
Proof.
  intros H. apply pad_ok_spec.
  apply (all_from_spec _ _ _ every_pad4_ok). rewrite Z2Nat.id; lia.
Qed.

(** ** Day-first text is read back *)

Section DayFirst.

Variables (tz : Z) (sep : N) (y m d : Z).
Hypothesis Htz : -720 <= tz <= 0.
Hypothesis Hy : 100 <= y <= 9999.
Hypothesis Hvalid : valid_date y m d.
Hypothesis Hsep : In sep [cu "/"; cu "-"; cu "."].

Let Hm : 1 <= m <= 12 := proj1 Hvalid.

Lemma day_le_31 : 1 <= d <= 31.
Proof.
  pose proof Hvalid as [_ Hd]. unfold days_in_month in Hd.
  destruct (m =? 2); [destruct (is_leap y)|];
    [lia | lia | destruct (_ || _); lia].
Qed.

Lemma sep_facts :
  in_set (js "/-.") sep = true /\ is_space sep = false
  /\ is_word sep = false /\ is_digit sep = false.
Proof.
  pose proof Hsep as H. simpl in H.
  destruct H as [E | [E | [E | []]]]; rewrite <- E;
    repeat apply conj; vm_compute; reflexivity.
Qed.

Lemma normalised_day_first :
  replace_all FileProcessor.re_date_separator (js "/") (day_first_text sep y m d)
  = pad 2 d ++ cu "/" :: pad 2 m ++ cu "/" :: pad 4 y.
Proof.
  unfold FileProcessor.re_date_separator.
  change (js "/") with [47%N]. rewrite replace_all_one.
  unfold day_first_text. rewrite !map_app.
  rewrite (normalise_digits (pad 2 d)), (normalise_digits (pad 2 m)),
    (normalise_digits (pad 4 y)) by apply pad_digits.
  cbn [map app]. destruct sep_facts as (-> & _). reflexivity.
Qed.

Lemma split_day_first :
  split (cu "/") (pad 2 d ++ cu "/" :: pad 2 m ++ cu "/" :: pad 4 y)
  = [pad 2 d; pad 2 m; pad 4 y].
Proof.
  assert (H : forall w z, Forall (fun c => (c =? cu "/")%N = false) (pad w z)).
  { intros w z. apply digit_not; [reflexivity | apply pad_digits]. }
  rewrite !split_app_sep by apply H. rewrite split_no_sep by apply H.
  reflexivity.
Qed.

(** The time value of local midnight of the day, and the two days read from
    it: the local one and the one of UTC. *)
Lemma midnight_in_range :
  (Z.abs (days_from_civil y m d * msPerDay - tz * 60000) <=? 8640000000000000)
  = true.
Proof.
  pose proof (days_from_civil_bound y m d) as H.
  pose proof day_le_31. apply Z.leb_le. unfold msPerDay. lia.
Qed.

Lemma midnight_local_day :
  local_day tz (days_from_civil y m d * msPerDay - tz * 60000)
  = days_from_civil y m d.
Proof. unfold local_day, msPerDay. dlia. Qed.

Lemma midnight_utc_day :
  (days_from_civil y m d * msPerDay - tz * 60000) / msPerDay
  = days_from_civil y m d.
Proof. unfold msPerDay. dlia. Qed.

Lemma Date_of_day_first :
  Date_of_fields tz (parseInt (pad 4 y))
    (option_map (fun v => v - 1) (parseInt (pad 2 m))) (parseInt (pad 2 d))
  = Some (days_from_civil y m d * msPerDay - tz * 60000).
Proof.
  pose proof day_le_31 as Hd.
  destruct (pad4_spec y) as [_ ->]; [lia|].
  destruct (pad2_spec m) as [_ ->]; [lia|].
  destruct (pad2_spec d) as [_ ->]; [lia|].
  cbn [option_map Date_of_fields].
  replace ((0 <=? y) && (y <=? 99)) with false
    by (symmetry; apply andb_false_iff; right; apply Z.leb_gt; lia).
  rewrite MakeDay_valid by exact Hm.
  unfold TimeClip. rewrite midnight_in_range. reflexivity.
Qed.

Lemma try_format_day_first :
  FileProcessor.try_format tz (day_first_text sep y m d) (js "dd/MM/yyyy")
  = Some (iso_date y m d).
Proof.
  unfold FileProcessor.try_format.
  rewrite normalised_day_first, split_day_first.
  change (startsWith (js "dd/MM/yyyy") (js "dd")) with true. cbv iota beta.
  destruct (pad4_spec y) as [Hlen Hint]; [lia|].
  rewrite Hlen. change (4 =? 2)%nat with false. cbv iota.
  rewrite Date_of_day_first, Hint.
  unfold getFullYear. rewrite midnight_local_day.
  rewrite (civil_from_days_from_civil y m d Hvalid). cbn [fst].
  rewrite Z.eqb_refl.
  rewrite before_T_toISOString, midnight_utc_day.
  rewrite (civil_from_days_from_civil y m d Hvalid). reflexivity.
Qed.

Lemma day_first_text_shape :
  exists c s,
    day_first_text sep y m d = c :: s
    /\ is_digit c = true
    /\ first_not_space (rev (c :: s)).
Proof.
  pose proof day_le_31 as Hd.
  destruct (pad2_spec d) as [Hlen _]; [lia|].
  pose proof (pad_digits 2 d) as Hdig.
  destruct (pad4_spec y) as [Hlen4 _]; [lia|].
  pose proof (pad_digits 4 y) as Hdig4.
  assert (Hlast : first_not_space (rev (day_first_text sep y m d))).
  { unfold day_first_text. rewrite !app_assoc. rewrite rev_app_distr.
    destruct (rev (pad 4 y)) as [| x t] eqn:E.
    - apply (f_equal (@length N)) in E. rewrite length_rev, Hlen4 in E.
      discriminate.
    - simpl. assert (Hx : In x (pad 4 y)).
      { apply in_rev. rewrite E. left; reflexivity. }
      rewrite Forall_forall in Hdig4.
      apply (digit_facts x (Hdig4 x Hx)). }
  assert (Hfirst : exists c s, day_first_text sep y m d = c :: s
                               /\ is_digit c = true).
  { unfold day_first_text. destruct (pad 2 d) as [| c r]; [discriminate|].
    exists c. eexists. split; [reflexivity | inversion Hdig; assumption]. }
  destruct Hfirst as (c & s & E & Hc).
  exists c, s. rewrite <- E. repeat split; assumption.
Qed.

Lemma clean_day_first :
  clean_date (day_first_text sep y m d) = day_first_text sep y m d.
Proof.
  destruct day_first_text_shape as (c & s & E & Hc & Hlast).
  unfold clean_date. rewrite E.
  rewrite trim_id; [| apply (digit_facts c Hc) | exact Hlast].
  apply date_label_no_match, (digit_facts c Hc).
Qed.

Lemma fileProcessor_day_first (Date_parse : jsstring -> option Z) :
  FileProcessor.parseDate tz Date_parse (VStr (day_first_text sep y m d))
  = Some (iso_date y m d).
Proof.
  pose proof clean_day_first as Hclean. unfold clean_date in Hclean.
  destruct day_first_text_shape as (c & s & E & _).
  unfold FileProcessor.parseDate. rewrite E in *. rewrite Hclean.
  change FileProcessor.DATE_FORMATS
    with (js "dd/MM/yyyy" :: tl FileProcessor.DATE_FORMATS).
  cbn [FileProcessor.try_formats]. rewrite <- E.
  rewrite try_format_day_first. reflexivity.
Qed.

(** The same text in the parser of the universal processor: neither of the
    month-name patterns matches it, and the day-first reading passes the
    three comparisons. *)
Lemma plus_none (p : N -> bool) (c : N) (t : jsstring) :
  p c = false -> plus p (c :: t) = [].
Proof.
  intros H. unfold plus, rep, rep_lazy. cbn [spans]. rewrite H. reflexivity.
Qed.

Lemma month_first_no_match (a b : N) (rest : jsstring) :
  first_match (Universal.re_month_first (a :: b :: sep :: rest)) = None.
Proof.
  destruct sep_facts as (_ & _ & Hw & _).
  unfold Universal.re_month_first, re_bind, rep, rep_lazy.
  cbn [spans]. rewrite Hw.
  destruct (is_word a), (is_word b); reflexivity.
Qed.

Lemma re_bind_nil {A B} (p : re A) (f : A -> re B) (s : jsstring) :
  p s = [] -> re_bind p f s = [].
Proof. unfold re_bind. intros ->. reflexivity. Qed.

Lemma rep_digit_1_2 (a b c : N) (rest : jsstring) :
  is_digit a = true -> is_digit b = true -> is_digit c = false ->
  rep is_digit 1 (Some 2%nat) (a :: b :: c :: rest)
  = [([a; b], c :: rest); ([a], b :: c :: rest)].
Proof.
  intros Ha Hb Hc. unfold rep, rep_lazy. cbn [spans].
  rewrite Ha, Hb, Hc. reflexivity.
Qed.

Lemma day_first_no_match (a b : N) (rest : jsstring) :
  is_digit a = true -> is_digit b = true ->
  first_match (Universal.re_day_first (a :: b :: sep :: rest)) = None.
Proof.
  intros Ha Hb.
  destruct sep_facts as (_ & Hs & _ & Hd).
  destruct (digit_facts b Hb) as (Hbs & _).
  unfold Universal.re_day_first. unfold re_bind at 1.
  rewrite (rep_digit_1_2 a b sep rest Ha Hb Hd).
  cbn [flat_map]. cbv beta iota.
  rewrite !re_bind_nil by (apply plus_none; assumption). reflexivity.
Qed.

Lemma universal_try_format_day_first :
  Universal.try_format tz (day_first_text sep y m d) (js "dd/MM/yyyy")
  = Some (iso_date y m d).
Proof.
  pose proof day_le_31 as Hd.
  unfold Universal.try_format.
  rewrite normalised_day_first, split_day_first.
  change (startsWith (js "dd/MM/yyyy") (js "dd")) with true. cbv iota beta.
  destruct (pad4_spec y) as [Hlen Hint]; [lia|].
  rewrite Hlen. change (4 =? 2)%nat with false. cbv iota.
  rewrite Date_of_day_first, Hint.
  destruct (pad2_spec m) as [_ ->]; [lia|].
  destruct (pad2_spec d) as [_ ->]; [lia|].
  unfold getFullYear, getMonth, getDate. rewrite midnight_local_day.
  rewrite (civil_from_days_from_civil y m d Hvalid).
  cbn [fst snd option_map Universal.eq_num]. rewrite !Z.eqb_refl.
  cbn [andb].
  rewrite before_T_toISOString, midnight_utc_day.
  rewrite (civil_from_days_from_civil y m d Hvalid). reflexivity.
Qed.

Lemma universal_day_first :
  Universal.parseDate tz (VStr (day_first_text sep y m d))
  = Some (iso_date y m d).
Proof.
  pose proof day_le_31 as Hd.
  pose proof clean_day_first as Hclean. unfold clean_date in Hclean.
  pose proof universal_try_format_day_first as Htry.
  assert (Hshape : exists a b rest,
             day_first_text sep y m d = a :: b :: sep :: rest
             /\ is_digit a = true /\ is_digit b = true).
  { destruct (pad2_spec d) as [Hlen _]; [lia|].
    pose proof (pad_digits 2 d) as Hdig.
    unfold day_first_text.
    destruct (pad 2 d) as [| a [| b [| c r]]]; try discriminate.
    exists a, b. eexists. split; [reflexivity|].
    inversion Hdig as [| ? ? Ha Hdig']. inversion Hdig'. split; assumption. }
  destruct Hshape as (a & b & rest & E & Ha & Hb).
  unfold Universal.parseDate. rewrite E in *. rewrite Hclean.
  rewrite month_first_no_match, (day_first_no_match a b rest Ha Hb).
  cbn [Universal.month_name_date].
  change Universal.formats with (js "dd/MM/yyyy" :: tl Universal.formats).
  cbn [Universal.try_formats]. rewrite Htry. reflexivity.
Qed.

End DayFirst.

(** ** What [parseDate] does with a date *)

(** The parser of the universal processor does answer null on 31/04/2025,
    on both hosts. *)
Lemma universal_parseDate_rejects_31_april :
  Universal.parseDate utc (VStr (js "31/04/2025")) = None
  /\ Universal.parseDate ist (VStr (js "31/04/2025")) = None.
Proof. apply conj; vm_compute; reflexivity. Qed.

(** On a host in India the day-first text of scenario A comes back as the
    day before. *)
Lemma parseDate_day_before_in_india :
  FileProcessor.parseDate ist (Date_parse_month_name ist)
    (VStr (day_first_text (cu "/") 2025 2 15))
  = Some (iso_date 2025 2 14).
Proof. vm_compute; reflexivity. Qed.

(** ** Local midnight *)

Lemma Date_of_fields_local (tz y m d t : Z) :
  Date_of_fields tz (Some y) (Some m) (Some d) = Some t ->
  100 <= y ->
  local_day tz t = MakeDay y m d.
Proof.
  unfold Date_of_fields, TimeClip. intros H Hy.
  replace ((0 <=? y) && (y <=? 99)) with false in H
    by (symmetry; apply andb_false_iff; right; apply Z.leb_gt; lia).
  destruct (Z.abs _ <=? _); [| discriminate]. inversion H.
  unfold local_day, msPerDay. dlia.
Qed.



Lemma MakeDay_bound (y m d : Z) :
  0 <= y <= 9999 -> -1 <= m <= 98 -> 0 <= d <= 99 ->
  -800000 <= MakeDay y m d <= 3100000.
Proof.
  intros Hy Hm Hd. unfold MakeDay, days_from_civil.
  destruct (m mod 12 + 1 <=? 2) eqn:E1, (2 <? m mod 12 + 1) eqn:E2; dlia.
Qed.

Lemma Date_of_numbers (tz y m d : Z) :
  -720 <= tz <= 840 -> 100 <= y <= 9999 -> 0 <= m <= 99 -> 0 <= d <= 99 ->
  Date_of_fields tz (Some y) (Some (m - 1)) (Some d)
  = Some (MakeDay y (m - 1) d * msPerDay - tz * 60000).
Proof.
  intros Htz Hy Hm Hd. unfold Date_of_fields, TimeClip.
  replace ((0 <=? y) && (y <=? 99)) with false
    by (symmetry; apply andb_false_iff; right; apply Z.leb_gt; lia).
  pose proof (MakeDay_bound y (m - 1) d) as H.
  replace (Z.abs _ <=? _) with true; [reflexivity|].
  symmetry. apply Z.leb_le. unfold msPerDay. lia.
Qed.

(** ** The day number of a date is found again from the date *)

Lemma every_back_ok : all_from (Z.to_nat 146097) 0 back_ok = true.
Proof. vm_cast_no_check (eq_refl true). Qed.

Lemma days_from_civil_from_days (z : Z) :
  let '(y, m, d) := civil_from_days z in days_from_civil y m d = z.
Proof.
  unfold civil_from_days.
  set (z' := z + 719468). set (era := z' / 146097).
  assert (Hdoe : 0 <= z' - era * 146097 < 0 + Z.of_nat (Z.to_nat 146097)).
  { rewrite Z2Nat.id by lia. subst era. dlia. }
  pose proof (all_from_spec _ _ _ every_back_ok _ Hdoe) as H.
  unfold back_ok in H.
  destruct (civil_of_doe (z' - era * 146097)) as [[y m] d].
  apply Z.eqb_eq in H. rewrite days_from_civil_era. subst z'. lia.
Qed.

Lemma march_year (y : Z) :
  let era := y / 400 in
  let yoe := y - era * 400 in
  era * 146097 + (yoe * 365 + yoe / 4 - yoe / 100)
  = 365 * y + y / 4 - y / 100 + y / 400.
Proof. cbv zeta. dlia. Qed.

Lemma days_from_civil_flat (y m d : Z) :
  days_from_civil y m d
  = let y' := if m <=? 2 then y - 1 else y in
    365 * y' + y' / 4 - y' / 100 + y' / 400
    + (153 * (if 2 <? m then m - 3 else m + 9) + 2) / 5 + d - 1 - 719468.
Proof.
  unfold days_from_civil. cbv zeta.
  pose proof (march_year (if m <=? 2 then y - 1 else y)) as H. cbv zeta in H.
  lia.
Qed.

(** A day of a year lies between the first of January of that year and the
    first of January of the next. *)
Lemma days_from_civil_in_year (y m d : Z) :
  1 <= m <= 12 -> 1 <= d <= 31 ->
  days_from_civil y 1 1 <= days_from_civil y m d < days_from_civil (y + 1) 1 1.
Proof.
  intros Hm Hd. rewrite !days_from_civil_flat. cbv zeta.
  change (1 <=? 2) with true. change (2 <? 1) with false. cbv iota.
  destruct (m <=? 2) eqn:E1; destruct (2 <? m) eqn:E2; dlia.
Qed.

Lemma days_from_civil_year_mono (y1 y2 : Z) :
  y1 <= y2 -> days_from_civil y1 1 1 <= days_from_civil y2 1 1.
Proof.
  intros H. rewrite !days_from_civil_flat. cbv zeta.
  change (1 <=? 2) with true. change (2 <? 1) with false. cbv iota.
  dlia.
Qed.

Lemma days_from_civil_year_length (y : Z) :
  days_from_civil (y + 1) 1 1 <= days_from_civil y 1 1 + 366.
Proof.
  rewrite !days_from_civil_flat. cbv zeta.
  change (1 <=? 2) with true. change (2 <? 1) with false. cbv iota.
  dlia.
Qed.

(** A day from the first of January of the next year on is not a day of the
    year. *)
Lemma year_lower (z y : Z) :
  days_from_civil (y + 1) 1 1 <= z ->
  y + 1 <= fst (fst (civil_from_days z)).
Proof.
  intros H.
  pose proof (civil_from_days_valid z) as Hv.
  pose proof (days_from_civil_from_days z) as Hb.
  destruct (civil_from_days z) as [[y' m'] d']. cbn [fst].
  destruct (Z_le_gt_dec (y + 1) y') as [L | G]; [exact L | exfalso].
  assert (Hd : 1 <= d' <= 31).
  { destruct Hv as [_ Hd]. unfold days_in_month in Hd.
    destruct (m' =? 2); [destruct (is_leap y')|];
      [lia | lia | destruct (_ || _); lia]. }
  pose proof (days_from_civil_in_year y' m' d' (proj1 Hv) Hd) as [_ Hu].
  pose proof (days_from_civil_year_mono (y' + 1) (y + 1)). lia.
Qed.

(** ** The readings of three numbers *)

Lemma reading_valid (tz y m d : Z) :
  -720 <= tz <= 0 -> 100 <= y <= 9999 -> valid_date y m d ->
  reading tz y m d = Some (iso_date y m d).
Proof.
  intros Htz Hy Hv. pose proof (day_le_31 y m d Hv) as Hd.
  pose proof Hv as [Hm _].
  unfold reading. rewrite Date_of_numbers by lia.
  rewrite MakeDay_valid by exact Hm.
  unfold getFullYear.
  replace (local_day tz (days_from_civil y m d * msPerDay - tz * 60000))
    with (days_from_civil y m d) by (unfold local_day, msPerDay; dlia).
  rewrite (civil_from_days_from_civil y m d Hv). cbn [fst].
  rewrite Z.eqb_refl, before_T_toISOString.
  replace ((days_from_civil y m d * msPerDay - tz * 60000) / msPerDay)
    with (days_from_civil y m d) by (unfold msPerDay; dlia).
  rewrite (civil_from_days_from_civil y m d Hv). reflexivity.
Qed.

(** A month above 12 or a day above 366 carries the date out of the
    year. *)
Lemma MakeDay_next_year (y m d : Z) :
  1 <= m <= 9999 -> 1 <= d -> 13 <= m \/ 367 <= d ->
  days_from_civil (y + 1) 1 1 <= MakeDay y (m - 1) d.
Proof.
  intros Hm Hd H. unfold MakeDay.
  assert (Hq : 0 <= (m - 1) / 12) by (apply Z.div_pos; lia).
  assert (Hr : 1 <= (m - 1) mod 12 + 1 <= 12) by dlia.
  pose proof (days_from_civil_in_year (y + (m - 1) / 12) ((m - 1) mod 12 + 1) 1 Hr)
    as [Hlo _]; [lia|].
  destruct (Z_le_gt_dec 13 m) as [L | G].
  - assert (1 <= (m - 1) / 12) by dlia.
    pose proof (days_from_civil_year_mono (y + 1) (y + (m - 1) / 12)). lia.
  - assert (E : (m - 1) / 12 = 0) by dlia. rewrite E, Z.add_0_r in *.
    pose proof (days_from_civil_year_length y). lia.
Qed.

Lemma reading_other_year (tz y m d : Z) :
  100 <= y <= 9999 -> 1 <= m <= 9999 -> 1 <= d -> 13 <= m \/ 367 <= d ->
  reading tz y m d = None.
Proof.
  intros Hy Hm Hd H. unfold reading.
  destruct (Date_of_fields tz (Some y) (Some (m - 1)) (Some d)) as [t |] eqn:E;
    [| reflexivity].
  unfold getFullYear. rewrite (Date_of_fields_local tz y (m - 1) d t E) by lia.
  pose proof (year_lower _ y (MakeDay_next_year y m d Hm Hd H)).
  replace (_ =? y) with false by (symmetry; apply Z.eqb_neq; lia).
  reflexivity.
Qed.

(** ** Texts of three fields *)

Lemma every_century_ok : all_from (Z.to_nat 100) 0 century_ok = true.
Proof. vm_cast_no_check (eq_refl true). Qed.

Lemma century_spec (n : Z) :
  0 <= n <= 99 ->
  parseInt (js "20" ++ pad 2 n) = Some (2000 + n)
  /\ parseInt (js "19" ++ pad 2 n) = Some (1900 + n).
Proof.
  intros H.
  assert (Hn : 0 <= n < 0 + Z.of_nat (Z.to_nat 100)) by (rewrite Z2Nat.id; lia).
  pose proof (all_from_spec _ _ _ every_century_ok n Hn) as Hok.
  unfold century_ok in Hok.
  destruct (parseInt (js "20" ++ pad 2 n)) as [a |]; [| discriminate].
  destruct (parseInt (js "19" ++ pad 2 n)) as [b |]; [| discriminate].
  apply andb_true_iff in Hok as [A B]. apply Z.eqb_eq in A, B. subst. auto.
Qed.

Section Fields.

Variables (tz : Z) (sep : N) (f1 f2 f3 : jsstring).
Hypothesis Hsep : In sep [cu "/"; cu "-"; cu "."].
Hypothesis Hf1 : Forall (fun c => is_digit c = true) f1.
Hypothesis Hf2 : Forall (fun c => is_digit c = true) f2.
Hypothesis Hf3 : Forall (fun c => is_digit c = true) f3.
Hypothesis Hn1 : f1 <> [].
Hypothesis Hn3 : f3 <> [].

Let text := three_fields sep f1 f2 f3.

Lemma fields_parts :
  split (cu "/") (replace_all FileProcessor.re_date_separator (js "/") text)
  = [f1; f2; f3].
Proof.
  unfold FileProcessor.re_date_separator.
  change (js "/") with [47%N]. rewrite replace_all_one.
  unfold text, three_fields. rewrite !map_app.
  rewrite (normalise_digits f1), (normalise_digits f2), (normalise_digits f3)
    by assumption.
  cbn [map app]. destruct (sep_facts sep Hsep) as (-> & _).
  assert (H : forall f, Forall (fun c => is_digit c = true) f ->
                        Forall (fun c => (c =? cu "/")%N = false) f).
  { intros f Hf. apply digit_not; [reflexivity | exact Hf]. }
  change 47%N with (cu "/").
  rewrite !split_app_sep by (apply H; assumption).
  rewrite split_no_sep by (apply H; assumption). reflexivity.
Qed.

Lemma fields_shape :
  exists c s, text = c :: s /\ is_digit c = true /\ first_not_space (rev text).
Proof.
  assert (Hlast : first_not_space (rev text)).
  { unfold text, three_fields. rewrite !app_assoc, rev_app_distr.
    destruct (rev f3) as [| x t] eqn:E.
    - apply (f_equal (@rev N)) in E. rewrite rev_involutive in E. contradiction.
    - cbn [app first_not_space].
      assert (Hx : In x f3) by (apply in_rev; rewrite E; left; reflexivity).
      rewrite Forall_forall in Hf3. apply (digit_facts x (Hf3 x Hx)). }
  unfold text, three_fields in *.
  destruct f1 as [| c r]; [contradiction|].
  exists c. eexists. split; [reflexivity|].
  inversion Hf1. auto.
Qed.

Lemma fields_clean : clean_date text = text.
Proof.
  destruct fields_shape as (c & s & E & Hc & Hlast).
  unfold clean_date. rewrite E in *.
  rewrite trim_id; [| apply (digit_facts c Hc) | exact Hlast].
  apply date_label_no_match, (digit_facts c Hc).
Qed.

(** The rest of the loop body once the three fields are told apart. *)
Lemma read_fields (day month year : jsstring) (y m d : Z) :
  parseInt day = Some d -> parseInt month = Some m -> year_field year y ->
  (let year' :=
     if (length year =? 2)%nat
     then (if FileProcessor.lt_50 (parseInt year) then js "20" ++ year
           else js "19" ++ year)
     else year in
   match Date_of_fields tz (parseInt year')
           (option_map (fun v => v - 1) (parseInt month)) (parseInt day),
         parseInt year' with
   | Some t, Some y' =>
     if getFullYear tz t =? y' then Some (before_T (toISOString t)) else None
   | _, _ => None
   end) = reading tz y m d.
Proof.
  intros Hd Hm Hy. cbv zeta. unfold reading.
  destruct Hy as [[Hl Hp] | (yy & Hyy & -> & ->)].
  - rewrite Hl. change (4 =? 2)%nat with false. cbv iota.
    rewrite Hp, Hm, Hd. cbn [option_map].
    destruct (Date_of_fields tz (Some y) (Some (m - 1)) (Some d)); reflexivity.
  - destruct (pad2_spec yy Hyy) as [Hl Hp]. rewrite Hl, Hp.
    change (2 =? 2)%nat with true. cbn [FileProcessor.lt_50]. cbv iota.
    unfold century. destruct (century_spec yy Hyy) as [A B].
    destruct (yy <? 50); [rewrite A | rewrite B]; rewrite Hm, Hd;
      cbn [option_map];
      destruct (Date_of_fields tz _ (Some (m - 1)) (Some d)); reflexivity.
Qed.

Lemma try_format_day_first_reading (y m d : Z) (format : jsstring) :
  startsWith format (js "dd") = true ->
  parseInt f1 = Some d -> parseInt f2 = Some m -> year_field f3 y ->
  FileProcessor.try_format tz text format = reading tz y m d.
Proof.
  intros Hf Hd Hm Hy. unfold FileProcessor.try_format.
  rewrite fields_parts, Hf. cbv iota beta.
  apply (read_fields f1 f2 f3 y m d Hd Hm Hy).
Qed.

Lemma try_format_month_first_reading (y m d : Z) (format : jsstring) :
  startsWith format (js "dd") = false -> startsWith format (js "MM") = true ->
  parseInt f2 = Some d -> parseInt f1 = Some m -> year_field f3 y ->
  FileProcessor.try_format tz text format = reading tz y m d.
Proof.
  intros Hf Hf' Hd Hm Hy. unfold FileProcessor.try_format.
  rewrite fields_parts, Hf, Hf'. cbv iota beta.
  apply (read_fields f2 f1 f3 y m d Hd Hm Hy).
Qed.

Lemma try_format_year_first_reading (y m d : Z) (format : jsstring) :
  startsWith format (js "dd") = false -> startsWith format (js "MM") = false ->
  parseInt f3 = Some d -> parseInt f2 = Some m -> year_field f1 y ->
  FileProcessor.try_format tz text format = reading tz y m d.
Proof.
  intros Hf Hf' Hd Hm Hy. unfold FileProcessor.try_format.
  rewrite fields_parts, Hf, Hf'. cbv iota beta.
  apply (read_fields f3 f2 f1 y m d Hd Hm Hy).
Qed.

(** The sixteen formats give three readings, tried day first, then month
    first, then year first. *)
Lemma parseDate_fields (Date_parse : jsstring -> option Z)
      (yd md dd ym mm dm yy my dy : Z) :
  parseInt f1 = Some dd -> parseInt f2 = Some md -> year_field f3 yd ->
  parseInt f2 = Some dm -> parseInt f1 = Some mm -> year_field f3 ym ->
  parseInt f3 = Some dy -> parseInt f2 = Some my -> year_field f1 yy ->
  FileProcessor.parseDate tz Date_parse (VStr text)
  = match first_reading (reading tz yd md dd) (reading tz ym mm dm)
                        (reading tz yy my dy) with
    | Some x => Some x
    | None =>
      match Date_parse text with
      | Some t => Some (before_T (toISOString t))
      | None => None
      end
    end.
Proof.
  intros D1 D2 D3 M1 M2 M3 Y1 Y2 Y3.
  pose proof fields_clean as Hclean. unfold clean_date in Hclean.
  destruct fields_shape as (c & s & E & _).
  unfold FileProcessor.parseDate. rewrite E in *. rewrite Hclean. rewrite <- E.
  assert (Hd : forall f, startsWith f (js "dd") = true ->
             FileProcessor.try_format tz text f = reading tz yd md dd)
    by (intros; apply try_format_day_first_reading; assumption).
  assert (Hm : forall f, startsWith f (js "dd") = false ->
             startsWith f (js "MM") = true ->
             FileProcessor.try_format tz text f = reading tz ym mm dm)
    by (intros; apply try_format_month_first_reading; assumption).
  assert (Hy : forall f, startsWith f (js "dd") = false ->
             startsWith f (js "MM") = false ->
             FileProcessor.try_format tz text f = reading tz yy my dy)
    by (intros; apply try_format_year_first_reading; assumption).
  unfold FileProcessor.DATE_FORMATS. cbn [map FileProcessor.try_formats].
  repeat match goal with
         | |- context [FileProcessor.try_format tz text ?f] =>
           first [ rewrite (Hd f) by reflexivity
                 | rewrite (Hm f) by reflexivity
                 | rewrite (Hy f) by reflexivity ]
         end.
  unfold first_reading.
  destruct (reading tz yd md dd); [reflexivity|].
  destruct (reading tz ym mm dm); [reflexivity|].
  destruct (reading tz yy my dy); reflexivity.
Qed.

End Fields.

Lemma pad2_field (n : Z) :
  0 <= n <= 99 ->
  Forall (fun c => is_digit c = true) (pad 2 n) /\ pad 2 n <> []
  /\ parseInt (pad 2 n) = Some n /\ year_field (pad 2 n) (century n).
Proof.
  intros H. destruct (pad2_spec n H) as [Hl Hp].
  split; [apply pad_digits|]. split.
  - intros E. rewrite E in Hl. discriminate.
  - split; [exact Hp|]. right. exists n. auto.
Qed.

Lemma pad4_field (n : Z) :
  0 <= n <= 9999 ->
  Forall (fun c => is_digit c = true) (pad 4 n) /\ pad 4 n <> []
  /\ parseInt (pad 4 n) = Some n /\ year_field (pad 4 n) n.
Proof.
  intros H. destruct (pad4_spec n H) as [Hl Hp].
  split; [apply pad_digits|]. split.
  - intros E. rewrite E in Hl. discriminate.
  - split; [exact Hp|]. left. auto.
Qed.

Lemma century_range (n : Z) : 0 <= n <= 99 -> 1900 <= century n <= 2099.
Proof. intros H. unfold century. destruct (n <? 50) eqn:E; lia. Qed.

Lemma century_short (y : Z) : 1950 <= y <= 2049 -> century (y mod 100) = y.
Proof.
  intros H. unfold century.
  destruct (y mod 100 <? 50) eqn:E;
    [apply Z.ltb_lt in E | apply Z.ltb_ge in E]; dlia.
Qed.

(** ** The forms that [parseDate] reads back *)

Section Forms.

Variables (tz : Z) (Date_parse : jsstring -> option Z) (sep : N) (y m d : Z).
Hypothesis Htz : -720 <= tz <= 0.
Hypothesis Hvalid : valid_date y m d.
Hypothesis Hsep : In sep [cu "/"; cu "-"; cu "."].

Let Hm : 1 <= m <= 12 := proj1 Hvalid.
Let Hd : 1 <= d <= 31 := day_le_31 y m d Hvalid.

Lemma fileProcessor_year_first :
  367 <= y <= 9999 ->
  FileProcessor.parseDate tz Date_parse (VStr (year_first_text sep y m d))
  = Some (iso_date y m d).
Proof.
  intros Hy.
  destruct (pad4_field y) as (Y1 & Y2 & Y3 & Y4); [lia|].
  destruct (pad2_field m) as (M1 & M2 & M3 & M4); [lia|].
  destruct (pad2_field d) as (D1 & D2 & D3 & D4); [lia|].
  pose proof (century_range d) as Hc.
  unfold year_first_text.
  rewrite (parseDate_fields tz sep (pad 4 y) (pad 2 m) (pad 2 d) Hsep Y1 M1 D1
             Y2 D2 Date_parse (century d) m y (century d) y m y m d)
    by assumption.
  rewrite (reading_other_year tz (century d) m y) by lia.
  rewrite (reading_other_year tz (century d) y m) by lia.
  rewrite (reading_valid tz y m d) by (try assumption; lia).
  reflexivity.
Qed.

Lemma fileProcessor_day_first_short :
  1950 <= y <= 2049 ->
  FileProcessor.parseDate tz Date_parse (VStr (day_first_short_text sep y m d))
  = Some (iso_date y m d).
Proof.
  intros Hy.
  assert (Hyy : 0 <= y mod 100 <= 99) by dlia.
  destruct (pad2_field (y mod 100) Hyy) as (Y1 & Y2 & Y3 & Y4).
  destruct (pad2_field m) as (M1 & M2 & M3 & M4); [lia|].
  destruct (pad2_field d) as (D1 & D2 & D3 & D4); [lia|].
  rewrite (century_short y Hy) in Y4.
  unfold day_first_short_text, short_year.
  rewrite (parseDate_fields tz sep (pad 2 d) (pad 2 m) (pad 2 (y mod 100)) Hsep
             D1 M1 Y1 D2 Y2 Date_parse y m d y d m (century d) m (y mod 100))
    by assumption.
  rewrite (reading_valid tz y m d) by (try assumption; lia).
  reflexivity.
Qed.

Lemma fileProcessor_month_first_long :
  100 <= y <= 9999 -> 13 <= d ->
  FileProcessor.parseDate tz Date_parse (VStr (month_first_long_text sep y m d))
  = Some (iso_date y m d).
Proof.
  intros Hy H13.
  destruct (pad4_field y) as (Y1 & Y2 & Y3 & Y4); [lia|].
  destruct (pad2_field m) as (M1 & M2 & M3 & M4); [lia|].
  destruct (pad2_field d) as (D1 & D2 & D3 & D4); [lia|].
  unfold month_first_long_text.
  rewrite (parseDate_fields tz sep (pad 2 m) (pad 2 d) (pad 4 y) Hsep M1 D1 Y1
             M2 Y2 Date_parse y d m y m d (century m) d y)
    by assumption.
  rewrite (reading_other_year tz y d m) by lia.
  rewrite (reading_valid tz y m d) by (try assumption; lia).
  reflexivity.
Qed.

Lemma fileProcessor_month_first_short :
  1950 <= y <= 2049 -> 13 <= d ->
  FileProcessor.parseDate tz Date_parse (VStr (month_first_short_text sep y m d))
  = Some (iso_date y m d).
Proof.
  intros Hy H13.
  assert (Hyy : 0 <= y mod 100 <= 99) by dlia.
  destruct (pad2_field (y mod 100) Hyy) as (Y1 & Y2 & Y3 & Y4).
  destruct (pad2_field m) as (M1 & M2 & M3 & M4); [lia|].
  destruct (pad2_field d) as (D1 & D2 & D3 & D4); [lia|].
  rewrite (century_short y Hy) in Y4.
  unfold month_first_short_text, short_year.
  rewrite (parseDate_fields tz sep (pad 2 m) (pad 2 d) (pad 2 (y mod 100)) Hsep
             M1 D1 Y1 M2 Y2 Date_parse y d m y m d (century m) d (y mod 100))
    by assumption.
  rewrite (reading_other_year tz y d m) by lia.
  rewrite (reading_valid tz y m d) by (try assumption; lia).
  reflexivity.
Qed.

(** A text without separators goes to the [Date] constructor of the host. *)
Lemma fileProcessor_host_form (s : jsstring) :
  s <> [] ->
  no_separator (clean_date s) ->
  Date_parse (clean_date s) = Some (midnight tz y m d) ->
  FileProcessor.parseDate tz Date_parse (VStr s) = Some (iso_date y m d).
Proof.
  intros Hs Hno Hp. unfold FileProcessor.parseDate.
  destruct s as [| c s]; [congruence|].
  fold (clean_date (c :: s)). set (clean := clean_date (c :: s)) in *.
  assert (Hf : forall f, FileProcessor.try_format tz clean f = None).
  { intros f. unfold FileProcessor.try_format, FileProcessor.re_date_separator.
    change (js "/") with [47%N]. rewrite replace_all_one.
    replace (map (fun c0 => if in_set (js "/-.") c0 then 47%N else c0) clean)
      with clean.
    - rewrite split_no_sep; [reflexivity|].
      eapply Forall_impl; [| exact Hno].
      intros a Ha. cbn in Ha. change (cu "/") with 47%N.
      destruct (a =? 47)%N; [discriminate | reflexivity].
    - symmetry. clear - Hno. induction Hno as [| a l Ha _ IH]; [reflexivity|].
      cbn [map]. rewrite Ha. f_equal. exact IH. }
  assert (Hfs : forall fs, FileProcessor.try_formats tz clean fs = None).
  { induction fs as [| f fs IH]; cbn [FileProcessor.try_formats];
      [reflexivity | rewrite Hf; exact IH]. }
  rewrite Hfs, Hp. rewrite before_T_toISOString. unfold midnight.
  replace ((days_from_civil y m d * msPerDay - tz * 60000) / msPerDay)
    with (days_from_civil y m d) by (unfold msPerDay; dlia).
  rewrite (civil_from_days_from_civil y m d Hvalid). reflexivity.
Qed.

End Forms.

(** Three numbers of which none can be a month give null. *)
Lemma fileProcessor_no_month (tz : Z) (Date_parse : jsstring -> option Z)
      (sep : N) (a b y : Z) :
  In sep [cu "/"; cu "-"; cu "."] ->
  13 <= a <= 99 -> 13 <= b <= 99 -> 100 <= y <= 9999 ->
  Date_parse (three_fields sep (pad 2 a) (pad 2 b) (pad 4 y)) = None ->
  FileProcessor.parseDate tz Date_parse
    (VStr (three_fields sep (pad 2 a) (pad 2 b) (pad 4 y))) = None.
Proof.
  intros Hsep Ha Hb Hy Hp.
  destruct (pad4_field y) as (Y1 & Y2 & Y3 & Y4); [lia|].
  destruct (pad2_field a) as (A1 & A2 & A3 & A4); [lia|].
  destruct (pad2_field b) as (B1 & B2 & B3 & B4); [lia|].
  pose proof (century_range a) as Hc.
  rewrite (parseDate_fields tz sep (pad 2 a) (pad 2 b) (pad 4 y) Hsep A1 B1 Y1
             A2 Y2 Date_parse y b a y a b (century a) b y)
    by assumption.
  rewrite (reading_other_year tz y b a) by lia.
  rewrite (reading_other_year tz y a b) by lia.
  rewrite (reading_other_year tz (century a) b y) by lia.
  cbn [first_reading]. rewrite Hp. reflexivity.
Qed.

(** C6 (counterexample): 4 March 2025 written in the listed form
    [MM/dd/yyyy] is [03/04/2025], which both parsers read day first, as
    3 April; 15 February 2025 written in the listed form [yy-MM-dd] is
    [25-02-15], which is read day first as 25 February 2015; on a host in
    India the day-first text of 15 February 2025 comes back as the 14th; the
    year 150 written year first is read day first, as the 150th day from the
    first of February 2015; two digits cannot tell 2050 from 1950; and
    [fileProcessor]'s [parseDate], which compares the year only, answers
    1 May for [31/04/2025] instead of null. *)
Lemma parseDate_month_first_and_31_april :
  In (js "MM/dd/yyyy") FileProcessor.DATE_FORMATS
  /\ month_first_text 2025 3 4 = js "03/04/2025"
  /\ FileProcessor.parseDate utc (Date_parse_month_name utc)
       (VStr (month_first_text 2025 3 4)) = Some (iso_date 2025 4 3)
  /\ Universal.parseDate utc (VStr (month_first_text 2025 3 4))
     = Some (iso_date 2025 4 3)
  /\ iso_date 2025 4 3 <> iso_date 2025 3 4
  /\ In (js "yy-MM-dd") FileProcessor.DATE_FORMATS
  /\ FileProcessor.parseDate utc (Date_parse_month_name utc) (VStr (js "25-02-15"))
     = Some (iso_date 2015 2 25)
  /\ FileProcessor.parseDate ist (Date_parse_month_name ist)
       (VStr (day_first_text (cu "/") 2025 2 15)) = Some (iso_date 2025 2 14)
  /\ year_first_text (cu "-") 150 2 15 = js "0150-02-15"
  /\ FileProcessor.parseDate utc (Date_parse_month_name utc)
       (VStr (year_first_text (cu "-") 150 2 15)) = Some (iso_date 2015 6 30)
  /\ day_first_short_text (cu "/") 2050 2 15 = js "15/02/50"
  /\ FileProcessor.parseDate utc (Date_parse_month_name utc)
       (VStr (day_first_short_text (cu "/") 2050 2 15))
     = Some (iso_date 1950 2 15)
  /\ FileProcessor.parseDate utc (Date_parse_month_name utc)
       (VStr (js "31/04/2025")) = Some (js "2025-05-01").
Proof.
  repeat apply conj; try (vm_compute; reflexivity).
  - vm_compute. tauto.
  - vm_compute. discriminate.
  - vm_compute. tauto.
Qed.

(** C6 (amended): on a host whose local time is UTC or behind it,
    [parseDate] returns every date as that date when it is written day first
    (with four digits for a year from 100 to 9999, or two for a year from
    1950 to 2049), year first with four digits (years 367 to 9999), month
    first with a day above 12, or in a form without separators that the
    [Date] constructor of the host reads, as the forms with a month name;
    the first of these is also what the parser of the universal processor
    does.  On every host it answers null for a token that is not a string or
    is empty, and for three numbers of which neither the first nor the second
    can be a month, when the [Date] constructor of the host rejects them as
    well. *)
Theorem parseDate_null_and_round_trip :
  forall (tz : Z) (Date_parse : jsstring -> option Z) (sep : N) (y m d : Z),
    -720 <= tz <= 0 ->
    valid_date y m d ->
    In sep [cu "/"; cu "-"; cu "."] ->
    (100 <= y <= 9999 ->
     FileProcessor.parseDate tz Date_parse (VStr (day_first_text sep y m d))
     = Some (iso_date y m d)
     /\ Universal.parseDate tz (VStr (day_first_text sep y m d))
        = Some (iso_date y m d)
     /\ (13 <= d ->
         FileProcessor.parseDate tz Date_parse
           (VStr (month_first_long_text sep y m d)) = Some (iso_date y m d)))
    /\ (367 <= y <= 9999 ->
        FileProcessor.parseDate tz Date_parse (VStr (year_first_text sep y m d))
        = Some (iso_date y m d))
    /\ (1950 <= y <= 2049 ->
        FileProcessor.parseDate tz Date_parse
          (VStr (day_first_short_text sep y m d)) = Some (iso_date y m d)
        /\ (13 <= d ->
            FileProcessor.parseDate tz Date_parse
              (VStr (month_first_short_text sep y m d)) = Some (iso_date y m d)))
    /\ (forall s,
          s <> [] -> no_separator (clean_date s) ->
          Date_parse (clean_date s) = Some (midnight tz y m d) ->
          FileProcessor.parseDate tz Date_parse (VStr s) = Some (iso_date y m d))
    /\ (forall host v,
          not_text v ->
          FileProcessor.parseDate host Date_parse v = None
          /\ Universal.parseDate host v = None)
    /\ (forall host,
          FileProcessor.parseDate host Date_parse (VStr []) = None
          /\ Universal.parseDate host (VStr []) = None)
    /\ (forall host a b,
          13 <= a <= 99 -> 13 <= b <= 99 -> 100 <= y <= 9999 ->
          Date_parse (three_fields sep (pad 2 a) (pad 2 b) (pad 4 y)) = None ->
          FileProcessor.parseDate host Date_parse
            (VStr (three_fields sep (pad 2 a) (pad 2 b) (pad 4 y))) = None).
Proof.
  intros tz dp sep y m d Htz Hvalid Hsep.
  split; [| split; [| split; [| split; [| split; [| split]]]]].
  - intros Hy. split; [| split].
    + apply fileProcessor_day_first; assumption.
    + apply universal_day_first; assumption.
    + intros H13. apply fileProcessor_month_first_long; assumption.
  - intros Hy. apply fileProcessor_year_first; assumption.
  - intros Hy. split.
    + apply fileProcessor_day_first_short; assumption.
    + intros H13. apply fileProcessor_month_first_short; assumption.
  - intros s Hs Hno Hp. apply (fileProcessor_host_form tz dp y m d); assumption.
  - intros host v H. destruct v as [| | b | x | s];
      try (split; reflexivity).
    exfalso. apply (H s). reflexivity.
  - intros host. split; reflexivity.
  - intros host a b Ha Hb Hy Hp. apply fileProcessor_no_month; assumption.
Qed.

Lemma parseDate_null_and_round_trip_witness :
  (100 <= 2025 <= 9999 ->
   FileProcessor.parseDate utc (Date_parse_month_name utc)
     (VStr (day_first_text (cu "/") 2025 2 15)) = Some (iso_date 2025 2 15)
   /\ Universal.parseDate utc (VStr (day_first_text (cu "/") 2025 2 15))
      = Some (iso_date 2025 2 15)
   /\ (13 <= 15 ->
       FileProcessor.parseDate utc (Date_parse_month_name utc)
         (VStr (month_first_long_text (cu "/") 2025 2 15))
       = Some (iso_date 2025 2 15)))
  /\ (367 <= 2025 <= 9999 ->
      FileProcessor.parseDate utc (Date_parse_month_name utc)
        (VStr (year_first_text (cu "/") 2025 2 15)) = Some (iso_date 2025 2 15))
  /\ (1950 <= 2025 <= 2049 ->
      FileProcessor.parseDate utc (Date_parse_month_name utc)
        (VStr (day_first_short_text (cu "/") 2025 2 15))
      = Some (iso_date 2025 2 15)
      /\ (13 <= 15 ->
          FileProcessor.parseDate utc (Date_parse_month_name utc)
            (VStr (month_first_short_text (cu "/") 2025 2 15))
          = Some (iso_date 2025 2 15)))
  /\ (forall s,
        s <> [] -> no_separator (clean_date s) ->
        Date_parse_month_name utc (clean_date s) = Some (midnight utc 2025 2 15) ->
        FileProcessor.parseDate utc (Date_parse_month_name utc) (VStr s)
        = Some (iso_date 2025 2 15))
  /\ (forall host v,
        not_text v ->
        FileProcessor.parseDate host (Date_parse_month_name utc) v = None
        /\ Universal.parseDate host v = None)
  /\ (forall host,
        FileProcessor.parseDate host (Date_parse_month_name utc) (VStr []) = None
        /\ Universal.parseDate host (VStr []) = None)
  /\ (forall host a b,
        13 <= a <= 99 -> 13 <= b <= 99 -> 100 <= 2025 <= 9999 ->
        Date_parse_month_name utc
          (three_fields (cu "/") (pad 2 a) (pad 2 b) (pad 4 2025)) = None ->
        FileProcessor.parseDate host (Date_parse_month_name utc)
          (VStr (three_fields (cu "/") (pad 2 a) (pad 2 b) (pad 4 2025))) = None).
Proof.
  apply (parseDate_null_and_round_trip utc (Date_parse_month_name utc)
           (cu "/") 2025 2 15).
  - unfold utc; lia.
  - unfold valid_date. change (days_in_month 2025 2) with 28. lia.
  - simpl. left. reflexivity.
Defined.

(** The month-name form of scenario C meets the conditions of the form
    without separators, and 31/13/2025 those of the three numbers without a
    month. *)
Lemma parseDate_conditions_met :
  no_separator (clean_date (js "Feb 15, 2025"))
  /\ Date_parse_month_name utc (clean_date (js "Feb 15, 2025"))
     = Some (midnight utc 2025 2 15)
  /\ three_fields (cu "/") (pad 2 31) (pad 2 13) (pad 4 2025) = js "31/13/2025"
  /\ Date_parse_month_name utc (js "31/13/2025") = None.
Proof.
  repeat apply conj; try (vm_compute; reflexivity).
  apply Forall_forall. intros c Hc. vm_compute in Hc.
  repeat (destruct Hc as [<- | Hc]; [vm_compute; reflexivity|]). contradiction.
Qed.

(* ================================================================== *)
(** * Further properties of the code *)
(* ================================================================== *)

(** ** Numerals and runs *)

Lemma str_eqb_eq (a b : jsstring) : str_eqb a b = true <-> a = b.
Proof.
  revert b; induction a as [| x a IH]; intros [| y b]; simpl;
    try (split; [discriminate | congruence]); [tauto|].
  rewrite andb_true_iff, N.eqb_eq, IH. split; [intros [-> ->]; reflexivity|].
  intros H; inversion H; auto.
Qed.

Lemma fold_digits_uint (d : Decimal.uint) :
  (forall p : positive,
     fold_left (fun acc c => (acc * 10 + (c - 48))%N)
               (bytes_of_string (NilEmpty.string_of_uint d)) (N.pos p)
     = N.pos (Pos.of_uint_acc d p))
  /\ fold_left (fun acc c => (acc * 10 + (c - 48))%N)
               (bytes_of_string (NilEmpty.string_of_uint d)) 0%N
     = Pos.of_uint d.
Proof.
  induction d as [| d [IHp IH0] | d [IHp IH0] | d [IHp IH0] | d [IHp IH0]
                  | d [IHp IH0] | d [IHp IH0] | d [IHp IH0] | d [IHp IH0]
                  | d [IHp IH0] | d [IHp IH0]];
    (split; [intros p |]); cbn [NilEmpty.string_of_uint bytes_of_string fold_left
                                 Pos.of_uint Pos.of_uint_acc];
    try reflexivity;
    try (rewrite <- IHp; f_equal;
         match goal with |- context [N_of_ascii ?c] =>
           let v := eval vm_compute in (N_of_ascii c) in
           change (N_of_ascii c) with v end; lia);
    try (rewrite <- IH0; f_equal; cbn; lia).
Qed.

Lemma digits_to_N_to_digits (n : N) : digits_to_N (N_to_digits n) = n.
Proof.
  unfold digits_to_N, N_to_digits, NilZero.string_of_uint.
  rewrite <- (DecimalN.Unsigned.of_to n) at 2.
  destruct (N.to_uint n) eqn:E; try (apply fold_digits_uint).
  reflexivity.
Qed.

(** ** Runs of a class of code units *)

Lemma span_spec (p : N -> bool) (s : jsstring) :
  s = fst (span p s) ++ snd (span p s)
  /\ Forall (fun c => p c = true) (fst (span p s)).
Proof.
  induction s as [| c r [IH1 IH2]]; simpl; [split; [reflexivity | constructor]|].
  destruct (p c) eqn:E; [| split; [reflexivity | constructor]].
  destruct (span p r) as [a b]. simpl in *. split; [congruence|].
  constructor; assumption.
Qed.

Lemma span_app (p : N -> bool) (a b : jsstring) :
  Forall (fun c => p c = true) a ->
  match b with [] => True | c :: _ => p c = false end ->
  span p (a ++ b) = (a, b).
Proof.
  intros Ha Hb. induction Ha as [| c a Hc _ IH]; simpl.
  - destruct b as [| c r]; [reflexivity|]. simpl. rewrite Hb. reflexivity.
  - rewrite Hc, IH. reflexivity.
Qed.

Lemma spans_last (p : N -> bool) (s : jsstring) :
  exists front, spans p s = front ++ [span p s].
Proof.
  induction s as [| c r [front IH]]; simpl.
  - exists []. reflexivity.
  - destruct (p c).
    + rewrite IH, map_app. cbn [map].
      exists (([], c :: r) :: map (fun '(a, b) => (c :: a, b)) front).
      destruct (span p r). reflexivity.
    + exists []. reflexivity.
Qed.

(** A greedy repetition without upper bound first tries the longest run. *)
Lemma rep_first (p : N -> bool) (lo : nat) (s : jsstring) :
  (lo <= length (fst (span p s)))%nat ->
  first_match (rep p lo None s) = Some (span p s).
Proof.
  intros H. unfold rep, rep_lazy.
  destruct (spans_last p s) as [front ->].
  rewrite filter_app, rev_app_distr. cbn [filter].
  unfold within at 1. apply Nat.leb_le in H. rewrite H. reflexivity.
Qed.

Lemma scan_skip {A} (p : re A) (k : nat) (s : jsstring) :
  (k <= length s)%nat -> scan p k s = scan p 0 (skipn k s).
Proof.
  revert s; induction k as [| k IH]; intros s H; [reflexivity|].
  destruct s as [| c t]; [simpl in H; lia|].
  cbn [scan skipn]. apply IH. simpl in H. lia.
Qed.

Lemma plus_cons (p : N -> bool) (c : N) (t : jsstring) :
  p c = true ->
  first_match (plus p (c :: t))
  = Some (c :: fst (span p t), snd (span p t)).
Proof.
  intros H. unfold plus. rewrite rep_first.
  - simpl. rewrite H. destruct (span p t); reflexivity.
  - simpl. rewrite H. destruct (span p t); simpl. lia.
Qed.

(** The scan of a text for the runs of a class: a run is one match, and the
    scan goes on behind it. *)
Lemma scan_plus (p : N -> bool) (c : N) (t : jsstring) :
  scan (plus p) 0 (c :: t)
  = if p c then inl (c :: fst (span p t)) :: scan (plus p) 0 (snd (span p t))
    else inr c :: scan (plus p) 0 t.
Proof.
  cbn [scan]. destruct (p c) eqn:E.
  - rewrite plus_cons by exact E.
    destruct (span_spec p t) as [Ht _].
    destruct (span p t) as [a b]. cbn [fst snd first_match] in *.
    replace (length (c :: t) - length b)%nat with (S (length a))
      by (rewrite Ht; cbn [length]; rewrite length_app; lia).
    rewrite scan_skip by (rewrite Ht, length_app; lia).
    rewrite Ht at 1. rewrite skipn_app, skipn_all, Nat.sub_diag. reflexivity.
  - rewrite plus_none by exact E. reflexivity.
Qed.

Lemma filter_all_false {A} (f : A -> bool) (l : list A) :
  Forall (fun x => f x = false) l -> filter f l = [].
Proof. induction 1 as [| x l Hx _ IH]; simpl; [| rewrite Hx]; auto. Qed.

Lemma filter_all_true {A} (f : A -> bool) (l : list A) :
  Forall (fun x => f x = true) l -> filter f l = l.
Proof. induction 1 as [| x l Hx _ IH]; simpl; [| rewrite Hx, IH]; auto. Qed.

(** Deleting every run of a class deletes the code units of the class. *)
Lemma replace_all_plus_nil (p : N -> bool) (s : jsstring) :
  replace_all (plus p) [] s = filter (fun c => negb (p c)) s.
Proof.
  remember (length s) as n eqn:Hn.
  revert s Hn. induction n as [n IH] using lt_wf_ind. intros s Hn.
  destruct s as [| c t]; [reflexivity|].
  unfold replace_all. rewrite scan_plus.
  destruct (span_spec p t) as [Ht Ha].
  destruct (p c) eqn:E; cbn [flat_map filter negb]; rewrite E; cbn [negb app].
  - fold (replace_all (plus p) [] (snd (span p t))).
    rewrite (IH (length (snd (span p t)))); [| | reflexivity].
    + rewrite Ht at 2. rewrite filter_app.
      rewrite (filter_all_false (fun c => negb (p c)) (fst (span p t))).
      * reflexivity.
      * eapply Forall_impl; [| exact Ha]. intros a ->. reflexivity.
    + subst n. rewrite Ht at 2. cbn [length]. rewrite length_app. lia.
  - fold (replace_all (plus p) [] t).
    rewrite (IH (length t)); [reflexivity | subst n; simpl; lia | reflexivity].
Qed.

Lemma replace_all_one_nil (p : N -> bool) (s : jsstring) :
  replace_all (one p) [] s = filter (fun c => negb (p c)) s.
Proof.
  unfold replace_all. rewrite scan_one.
  induction s as [| c t IH]; simpl; [reflexivity|].
  rewrite IH. destruct (p c); reflexivity.
Qed.

Lemma trim_no_space (s : jsstring) :
  Forall (fun c => is_space c = false) s -> trim s = s.
Proof.
  intros H. apply trim_id.
  - destruct H; simpl; auto.
  - apply Forall_rev in H. destruct H; simpl; auto.
Qed.

(** ** Substrings *)

Lemma includes_absent (x : N) (p l : jsstring) :
  Forall (fun c => (c =? x)%N = false) l -> includes l (x :: p) = false.
Proof.
  induction 1 as [| c l Hc _ IH]; [reflexivity|].
  cbn [includes]. rewrite IH. unfold startsWith. cbn [startsWith_by].
  rewrite Hc. reflexivity.
Qed.

Lemma startsWith_app (p r : jsstring) : startsWith (p ++ r) p = true.
Proof.
  unfold startsWith. induction p as [| x p IH]; simpl;
    [destruct r; reflexivity|].
  rewrite N.eqb_refl. exact IH.
Qed.

Lemma includes_app (a p r : jsstring) : includes (a ++ p ++ r) p = true.
Proof.
  induction a as [| c a IH].
  - simpl app. pose proof (startsWith_app p r) as H.
    destruct (p ++ r); cbn [includes]; rewrite H; reflexivity.
  - cbn [app includes]. rewrite IH. apply orb_true_r.
Qed.

(** ** Numbers read from text *)

Lemma decimal_sign (b : bool) (m : N) (e : Z) :
  isNaN (decimal b m e) = false
  /\ Math_abs (decimal b m e) = decimal false m e
  /\ neg_num (decimal b m e) = decimal (negb b) m e.
Proof.
  unfold decimal.
  repeat match goal with
         | |- context [if ?c then _ else _] => destruct c
         | |- context [let (_, _) := ?x in _] => destruct x
         end; repeat split; reflexivity.
Qed.

Lemma digit_head_facts (c : N) :
  is_digit c = true ->
  is_space c = false /\ (c =? 45)%N = false /\ (c =? 43)%N = false
  /\ (c =? 73)%N = false.
Proof.
  intros H. apply digit_cases in H.
  repeat (destruct H as [-> | H]); try subst c;
    repeat apply conj; reflexivity.
Qed.

(** [parseFloat] on digits followed by something that ends the numeral. *)
Lemma parseFloat_digits (ds rest : jsstring) :
  ds <> [] ->
  Forall (fun c => is_digit c = true) ds ->
  match rest with
  | [] => True
  | c :: _ => is_digit c = false /\ (c =? 46)%N = false
              /\ (c =? 101)%N = false /\ (c =? 69)%N = false
  end ->
  parseFloat (ds ++ rest) = decimal false (digits_to_N ds) 0.
Proof.
  intros Hne Hds Hrest.
  destruct ds as [| c ds']; [congruence|].
  inversion Hds as [| ? ? Hc Hds']; subst.
  destruct (digit_head_facts c Hc) as (Hs & H45 & H43 & H73).
  unfold parseFloat.
  cbn [app dropWhile]. rewrite Hs. cbn [take_sign]. rewrite H45, H43.
  replace (startsWith (c :: ds' ++ rest) (js "Infinity")) with false
    by (unfold startsWith; change (js "Infinity") with (73%N :: js "nfinity");
        cbn [startsWith_by]; rewrite H73; reflexivity).
  change (c :: ds' ++ rest) with ((c :: ds') ++ rest).
  rewrite span_app; [| exact Hds |].
  - destruct rest as [| x r].
    + rewrite app_nil_r. reflexivity.
    + destruct Hrest as (_ & -> & H101 & H69).
      rewrite app_nil_r. cbn [app]. rewrite H101, H69. reflexivity.
  - destruct rest as [| x r]; [exact I | apply Hrest].
Qed.

Lemma parseFloat_minus_digits (ds rest : jsstring) :
  ds <> [] ->
  Forall (fun c => is_digit c = true) ds ->
  match rest with
  | [] => True
  | c :: _ => is_digit c = false /\ (c =? 46)%N = false
              /\ (c =? 101)%N = false /\ (c =? 69)%N = false
  end ->
  parseFloat (45%N :: ds ++ rest) = decimal true (digits_to_N ds) 0.
Proof.
  intros Hne Hds Hrest.
  destruct ds as [| c ds']; [congruence|].
  inversion Hds as [| ? ? Hc Hds']; subst.
  destruct (digit_head_facts c Hc) as (Hs & H45 & H43 & H73).
  unfold parseFloat.
  cbn [app dropWhile]. change (is_space 45) with false. cbn [take_sign].
  change (45 =? 45)%N with true. cbv iota.
  replace (startsWith (c :: ds' ++ rest) (js "Infinity")) with false
    by (unfold startsWith; change (js "Infinity") with (73%N :: js "nfinity");
        cbn [startsWith_by]; rewrite H73; reflexivity).
  change (c :: ds' ++ rest) with ((c :: ds') ++ rest).
  rewrite span_app; [| exact Hds |].
  - destruct rest as [| x r].
    + rewrite app_nil_r. reflexivity.
    + destruct Hrest as (_ & -> & H101 & H69).
      rewrite app_nil_r. cbn [app]. rewrite H101, H69. reflexivity.
  - destruct rest as [| x r]; [exact I | apply Hrest].
Qed.

Lemma N_to_digits_nonempty (n : N) : N_to_digits n <> [].
Proof.
  unfold N_to_digits, NilZero.string_of_uint.
  destruct (N.to_uint n) eqn:E; simpl; try discriminate.
Qed.

Lemma num_of_N (n : N) : num_of_Z (Z.of_N n) = decimal false n 0.
Proof.
  unfold num_of_Z. rewrite Zabs2N.id.
  replace (Z.of_N n <? 0) with false by (symmetry; apply Z.ltb_ge; lia).
  reflexivity.
Qed.

(** ** Integers below 2^53 are binary64 values *)

Lemma log2_below_53 (m : Z) : 0 < m < 2 ^ 53 -> 0 <= Z.log2 m <= 52.
Proof.
  intros H. split; [apply Z.log2_nonneg|].
  assert (Z.log2 m < 53); [| lia].
  apply Z.log2_lt_pow2; lia.
Qed.

Lemma binary64_integer (m : Z) :
  0 < m < 2 ^ 53 ->
  binary64 m 1 = (m * 2 ^ (52 - Z.log2 m), Z.log2 m - 52)
  /\ 2 ^ 52 <= m * 2 ^ (52 - Z.log2 m) < 2 ^ 53.
Proof.
  intros H. pose proof (log2_below_53 m H) as Hl.
  destruct (Z.log2_spec m) as [Hlo Hhi]; [lia|].
  set (l := Z.log2 m) in *.
  assert (Hq : 2 ^ 52 <= m * 2 ^ (52 - l) < 2 ^ 53).
  { replace (2 ^ 52) with (2 ^ l * 2 ^ (52 - l))
      by (rewrite <- Z.pow_add_r by lia; f_equal; lia).
    replace (2 ^ 53) with (2 ^ Z.succ l * 2 ^ (52 - l))
      by (rewrite <- Z.pow_add_r by lia; f_equal; lia).
    assert (0 < 2 ^ (52 - l)) by (apply Z.pow_pos_nonneg; lia).
    split; [apply Z.mul_le_mono_nonneg_r | apply Z.mul_lt_mono_pos_r]; lia. }
  split; [| exact Hq].
  unfold binary64. change (Z.log2 1) with 0. rewrite Z.sub_0_r. fold l.
  replace (0 <=? l) with true by (symmetry; apply Z.leb_le; lia).
  replace (m <? 1 * 2 ^ l) with false by (symmetry; apply Z.ltb_ge; lia).
  cbv iota.
  replace (Z.max (l - 52) (-1074)) with (l - 52) by lia.
  replace (Z.max (- (l - 52)) 0) with (52 - l) by lia.
  replace (Z.max (l - 52) 0) with 0 by lia.
  change (1 * 2 ^ 0) with 1. rewrite Z.div_1_r, Z.mod_1_r.
  change (1 <? 2 * 0) with false. change (1 =? 2 * 0) with false.
  cbn [orb andb].
  replace (m * 2 ^ (52 - l) =? 2 ^ 53) with false
    by (symmetry; apply Z.eqb_neq; lia).
  reflexivity.
Qed.

Section Integer.

Variables m q k : Z.
Hypothesis Hk : -52 <= k <= 0.
Hypothesis Hq : q = m * 2 ^ (- k).

Lemma integer_units : 4 <= 2 ^ (2 - k) /\ 4 * q = m * 2 ^ (2 - k).
Proof.
  split.
  - change 4 with (2 ^ 2). apply Z.pow_le_mono_r; lia.
  - rewrite Hq. replace (2 - k) with (2 + - k) by lia.
    rewrite Z.pow_add_r by lia. change (2 ^ 2) with 4. ring.
Qed.

Lemma integer_scales (j : Z) :
  0 <= j ->
  scale_dec k j = 10 ^ j * 2 ^ (2 - k) /\ scale_bin k j = 1 /\ 0 < 10 ^ j.
Proof.
  intros Hj. unfold scale_dec, scale_bin.
  replace (Z.max j 0) with j by lia.
  replace (Z.max (2 - k) 0) with (2 - k) by lia.
  replace (Z.max (- j) 0) with 0 by lia.
  replace (Z.max (k - 2) 0) with 0 by lia.
  repeat split. apply Z.pow_pos_nonneg; lia.
Qed.

Lemma gap_below_range : 1 <= gap_below q k <= 2.
Proof. unfold gap_below. destruct (_ && _); lia. Qed.

(** A decimal on a grid of integers that rounds to [m] is [m]. *)
Lemma rounds_to_integer (s j : Z) :
  0 <= j -> rounds_to q k s j = true -> s * 10 ^ j = m.
Proof.
  intros Hj H. destruct integer_units as [HT H4q].
  destruct (integer_scales j Hj) as (HP & HQ & Hpos).
  pose proof gap_below_range as Hg.
  unfold rounds_to in H. rewrite HP, HQ, !Z.mul_1_r, H4q in H.
  set (T := 2 ^ (2 - k)) in *.
  assert (Hr : m * T - 2 <= s * (10 ^ j * T) <= m * T + 2).
  { destruct (Z.even q); apply andb_true_iff in H; destruct H as [A B];
      [apply Z.leb_le in A; apply Z.leb_le in B
      | apply Z.ltb_lt in A; apply Z.ltb_lt in B]; lia. }
  destruct (Z.lt_total (s * 10 ^ j) m) as [Lt | [Eq | Gt]]; [| exact Eq |]; nia.
Qed.

Lemma integer_rounds_to_itself : rounds_to q k m 0 = true.
Proof.
  destruct integer_units as [HT H4q].
  destruct (integer_scales 0) as (HP & HQ & _); [lia|].
  pose proof gap_below_range as Hg.
  unfold rounds_to. rewrite HP, HQ, !Z.mul_1_r, H4q.
  change (10 ^ 0) with 1. rewrite Z.mul_1_l.
  destruct (Z.even q); apply andb_true_iff; split;
    first [apply Z.leb_le | apply Z.ltb_lt]; lia.
Qed.

Lemma nearer_cases (s j : Z) : nearer q k s j = s \/ nearer q k s j = s + 1.
Proof.
  unfold nearer. destruct (_ <? _); [auto|].
  destruct (_ <? _); [auto|]. destruct (Z.even s); auto.
Qed.

Lemma shortest_from_integer (fuel : nat) :
  forall j : Z,
    0 <= j < Z.of_nat fuel ->
    exists s j', shortest_from fuel q k j = (s, j')
                 /\ 0 <= j' /\ s * 10 ^ j' = m.
Proof.
  induction fuel as [| fuel' IH]; intros j Hj; [simpl in Hj; lia|].
  cbn [shortest_from].
  set (s := 4 * q * scale_bin k j / scale_dec k j).
  destruct (rounds_to q k s j) eqn:E1; destruct (rounds_to q k (s + 1) j) eqn:E2.
  - exists (nearer q k s j), j. split; [reflexivity | split; [lia|]].
    destruct (nearer_cases s j) as [-> | ->];
      apply rounds_to_integer; try assumption; lia.
  - exists s, j. split; [reflexivity | split; [lia|]].
    apply rounds_to_integer; [lia | exact E1].
  - exists (s + 1), j. split; [reflexivity | split; [lia|]].
    apply rounds_to_integer; [lia | exact E2].
  - assert (Hj1 : 1 <= j).
    { destruct (Z.eq_dec j 0) as [E | N]; [| lia]. exfalso.
      subst j. destruct integer_units as [HT H4q].
      destruct (integer_scales 0) as (HP & HQ & _); [lia|].
      unfold s in E1. rewrite HP, HQ, Z.mul_1_r, H4q in E1.
      change (10 ^ 0) with 1 in E1. rewrite Z.mul_1_l in E1.
      rewrite Z.div_mul in E1 by lia.
      rewrite integer_rounds_to_itself in E1. discriminate. }
    apply IH. rewrite Nat2Z.inj_succ in Hj. lia.
Qed.

End Integer.

Lemma decimal_integer (neg : bool) (m : N) :
  (0 < m < 2 ^ 53)%N -> decimal neg m 0 = Fin neg m 0.
Proof.
  intros H.
  assert (Hz : 0 < Z.of_N m < 2 ^ 53).
  { change (2 ^ 53) with (Z.of_N (2 ^ 53)). lia. }
  pose proof (log2_below_53 _ Hz) as Hl.
  destruct (binary64_integer _ Hz) as [Hb Hq].
  unfold decimal.
  replace (m =? 0)%N with false by (symmetry; apply N.eqb_neq; lia).
  set (l := Z.log2 (Z.of_N m)) in *.
  assert (Hn : 0 <= l * 30102 / 100000 < 16).
  { split; [apply Z.div_pos; lia | apply Z.div_lt_upper_bound; lia]. }
  assert (Hn' : 0 <= (l + 1) * 30103 / 100000 < 16).
  { split; [apply Z.div_pos; lia | apply Z.div_lt_upper_bound; lia]. }
  replace (310 <? 0 + l * 30102 / 100000) with false
    by (symmetry; apply Z.ltb_ge; lia).
  replace (0 + (l + 1) * 30103 / 100000 + 1 <? -330) with false
    by (symmetry; apply Z.ltb_ge; lia).
  change (Z.max 0 0) with 0. change (Z.max (- 0) 0) with 0.
  change (10 ^ 0) with 1. rewrite !Z.mul_1_r.
  assert (Hbig : 2 ^ 53 < 2 ^ 1024 - 2 ^ 970) by (vm_compute; reflexivity).
  replace (2 ^ 1024 - 2 ^ 970 <=? Z.of_N m) with false
    by (symmetry; apply Z.leb_gt; lia).
  assert (Hpos : 0 < 2 ^ 1075) by (apply Z.pow_pos_nonneg; lia).
  replace (Z.of_N m * 2 ^ 1075 <=? 1) with false
    by (symmetry; apply Z.leb_gt; nia).
  rewrite Hb. unfold shortest.
  rewrite (Z.log2_unique' (Z.of_N m * 2 ^ (52 - l)) 52 (Z.of_N m * 2 ^ (52 - l) - 2 ^ 52))
    by (change (2 ^ 52) with 4503599627370496 in *;
        change (2 ^ 53) with 9007199254740992 in *; lia).
  assert (Hj0 : 0 <= (52 + (l - 52) + 1) * 30103 / 100000 + 2 < Z.of_nat 40).
  { assert (0 <= (52 + (l - 52) + 1) * 30103 / 100000) by (apply Z.div_pos; lia).
    assert ((52 + (l - 52) + 1) * 30103 / 100000 < 16)
      by (apply Z.div_lt_upper_bound; lia).
    change (Z.of_nat 40) with 40. lia. }
  assert (Hq' : Z.of_N m * 2 ^ (52 - l) = Z.of_N m * 2 ^ (- (l - 52)))
    by (do 2 f_equal; lia).
  assert (Hk : -52 <= l - 52 <= 0) by lia.
  destruct (shortest_from_integer (Z.of_N m) (Z.of_N m * 2 ^ (52 - l)) (l - 52)
              Hk Hq' 40%nat _ Hj0) as (s & j' & E & Hj & Hs).
  rewrite E.
  replace (0 <=? j') with true by (symmetry; apply Z.leb_le; lia).
  rewrite Hs, N2Z.id. reflexivity.
Qed.

Lemma num_of_Z_integer (z : Z) :
  0 < Z.abs z < 2 ^ 53 -> num_of_Z z = Fin (z <? 0) (Z.abs_N z) 0.
Proof.
  intros H. unfold num_of_Z. apply decimal_integer.
  assert (E : Z.of_N (Z.abs_N z) = Z.abs z) by apply N2Z.inj_abs_N.
  change (2 ^ 53)%N with (Z.to_N (2 ^ 53)). lia.
Qed.

Lemma num_of_N_exact (n : N) :
  (n < 2 ^ 53)%N -> num_of_Z (Z.of_N n) = Fin false n 0.
Proof.
  intros H. rewrite num_of_N.
  destruct (N.eq_dec n 0) as [-> | Hn]; [reflexivity|].
  apply decimal_integer. lia.
Qed.

(** The numeral of [n], alone or behind a minus sign. *)
Lemma parseFloat_numeral (n : N) :
  parseFloat (N_to_digits n) = num_of_Z (Z.of_N n)
  /\ parseFloat (45%N :: N_to_digits n) = neg_num (num_of_Z (Z.of_N n)).
Proof.
  rewrite num_of_N. destruct (decimal_sign false n 0) as (_ & _ & ->).
  rewrite <- (digits_to_N_to_digits n) at 2 4.
  rewrite <- (app_nil_r (N_to_digits n)) at 1 3.
  split; [apply parseFloat_digits | apply parseFloat_minus_digits];
    auto using N_to_digits_nonempty, N_to_digits_digits.
Qed.

(** ** No row is dropped without a message *)

Lemma row_accounted tz dp n dateStr amountStr description acc k :
  accounted k acc ->
  accounted (S k)
    (FileProcessor.catch_row n
       (FileProcessor.processRow tz dp n dateStr amountStr description acc)).
Proof.
  unfold accounted, messages, FileProcessor.processRow, FileProcessor.catch_row,
    FileProcessor.push.
  intros [H1 H2].
  destruct (FileProcessor.parseDate tz dp dateStr) as [d |];
    destruct (FileProcessor.parseAmount amountStr) as [a |];
    cbn [FileProcessor.date_ok FileProcessor.amount_ok];
    try destruct d as [| c d];
    try destruct (num_truthy a);
    cbn [andb];
    try destruct (FileProcessor.split_first description);
    cbn [FileProcessor.transactions FileProcessor.warnings FileProcessor.errors];
    rewrite ?length_app; cbn [length]; lia.
Qed.

Lemma forEach_accounted {A} (f : FileProcessor.ProcessingResult -> A -> nat
                                 -> FileProcessor.ProcessingResult) :
  (forall acc x i k, accounted k acc -> accounted (S k) (f acc x i)) ->
  forall l i acc k,
    accounted k acc -> accounted (k + length l) (FileProcessor.forEach f l i acc).
Proof.
  intros Hf l. induction l as [| x l IH]; intros i acc k H; cbn [FileProcessor.forEach length].
  - rewrite Nat.add_0_r. exact H.
  - replace (k + S (length l))%nat with (S k + length l)%nat by lia.
    apply IH, Hf, H.
Qed.

(** X1: [processCSV] gives at most one transaction for each row, and each
    row that gives none leaves a warning or an error: the rows are never
    more than the transactions and the messages together. *)
Theorem processCSV_reports_every_dropped_row :
  forall (tz : Z) (Date_parse : jsstring -> option Z) (data : list FileProcessor.Row),
    let r := FileProcessor.csv_complete tz Date_parse data in
    (length (FileProcessor.transactions r) <= length data
     /\ length data <= length (FileProcessor.transactions r) + messages r)%nat.
Proof.
  intros tz dp data.
  apply (forEach_accounted (FileProcessor.csv_row tz dp)) with (k := 0%nat).
  - intros acc x i k H. apply row_accounted, H.
  - unfold accounted, messages. simpl. lia.
Qed.

(** An accumulator that only got more messages. *)
Lemma accounted_more k (a b : FileProcessor.ProcessingResult) :
  FileProcessor.transactions b = FileProcessor.transactions a ->
  (messages a <= messages b)%nat ->
  accounted k a -> accounted k b.
Proof. unfold accounted. intros -> H [H1 H2]. lia. Qed.

Lemma excel_rows_accounted tz dp ixd ixa ixs rows :
  forall i acc k,
    accounted k acc ->
    accounted (k + length (data_rows rows))
      (FileProcessor.forEach (FileProcessor.excel_row tz dp ixd ixa ixs) rows i acc).
Proof.
  induction rows as [| row rows IH]; intros i acc k H;
    cbn [FileProcessor.forEach data_rows filter length].
  - rewrite Nat.add_0_r. exact H.
  - destruct row as [| c row].
    + apply IH. exact H.
    + cbn [length]. fold (data_rows rows).
      replace (k + S (length (data_rows rows)))%nat
        with (S k + length (data_rows rows))%nat by lia.
      apply IH. unfold FileProcessor.excel_row. apply row_accounted, H.
Qed.

(** X2: so does [processExcel] for the rows of the sheet that are not
    empty, when the sheet is read without an exception; the empty rows are
    passed over without a message. *)
Theorem processExcel_reports_every_dropped_row :
  forall (tz : Z) (Date_parse : jsstring -> option Z)
         (headers : list JSValue) (rows : list (list JSValue))
         (r : FileProcessor.ProcessingResult),
    FileProcessor.excel_onload tz Date_parse
      (FileProcessor.SheetRows (headers :: rows)) = Normal r ->
    rows <> [] ->
    (length (FileProcessor.transactions r) <= length (data_rows rows)
     /\ length (data_rows rows)
        <= length (FileProcessor.transactions r) + messages r)%nat.
Proof.
  intros tz dp headers rows r H Hrows.
  destruct rows as [| row rows]; [congruence|].
  cbn [FileProcessor.excel_onload] in H.
  destruct (FileProcessor.findColumn FileProcessor.dateColumns headers)
    as [ixd | e]; [| discriminate].
  destruct (FileProcessor.findColumn FileProcessor.amountColumns headers)
    as [ixa | e]; [| discriminate].
  destruct (FileProcessor.findColumn FileProcessor.descColumns headers)
    as [ixs | e]; [| discriminate].
  inversion H as [Hr]. clear H.
  apply (excel_rows_accounted tz dp ixd ixa ixs (row :: rows) 1%nat _ 0%nat).
  unfold accounted, messages.
  destruct ixd, ixa, ixs; simpl; lia.
Qed.

Lemma processExcel_reports_every_dropped_row_witness :
  (length (FileProcessor.transactions scenario_B_result)
   <= length (data_rows (tl scenario_B_text_cells))
   /\ length (data_rows (tl scenario_B_text_cells))
      <= length (FileProcessor.transactions scenario_B_result)
         + messages scenario_B_result)%nat.
Proof.
  apply (processExcel_reports_every_dropped_row utc (Date_parse_month_name utc)
           (hd [] scenario_B_text_cells) (tl scenario_B_text_cells)).
  - vm_compute. reflexivity.
  - discriminate.
Defined.

(** ** Earlier rows are not touched *)

(** X22: [processCSV] handles the rows in order and a row never changes
    what the rows before it gave: the result for a list of rows begins, in
    each of its three arrays, with the result for any first part of the
    list. *)
Theorem processCSV_handles_rows_in_order :
  forall (tz : Z) (Date_parse : jsstring -> option Z)
         (first more : list FileProcessor.Row),
    extends (FileProcessor.csv_complete tz Date_parse first)
            (FileProcessor.csv_complete tz Date_parse (first ++ more)).
Proof.
  intros tz dp l1 l2. unfold FileProcessor.csv_complete.
  rewrite forEach_app. apply forEach_extends.
  intros acc x i. apply row_extends.
Qed.

(** ** Cells that are not text *)

Lemma not_text_no_date tz dp v :
  not_text v -> FileProcessor.parseDate tz dp v = None.
Proof. intros H. destruct v; try reflexivity. exfalso. apply (H s). reflexivity. Qed.

Lemma not_text_no_amount v :
  not_text v -> FileProcessor.parseAmount v = None.
Proof. intros H. destruct v; try reflexivity. exfalso. apply (H s). reflexivity. Qed.

(** X23: [processExcel] takes a date and an amount only from cells that
    hold text: a row whose date cell or amount cell is a number, a boolean
    or empty, as the cells of a sheet with numeric amounts or true dates are,
    never gives a transaction, and leaves the warning of the date or of the
    amount with the cell in it. *)
Theorem processExcel_takes_no_cell_that_is_not_text :
  forall (tz : Z) (Date_parse : jsstring -> option Z)
         (dateColIndex amountColIndex descColIndex : option nat)
         (acc : FileProcessor.ProcessingResult) (row : list JSValue) (i : nat),
    row <> [] ->
    not_text (FileProcessor.cell dateColIndex row)
    \/ not_text (FileProcessor.cell amountColIndex row) ->
    let r := FileProcessor.excel_row tz Date_parse dateColIndex amountColIndex
               descColIndex acc row i in
    FileProcessor.transactions r = FileProcessor.transactions acc
    /\ FileProcessor.errors r = FileProcessor.errors acc
    /\ (In (date_warning (i + 1) (FileProcessor.cell dateColIndex row))
           (FileProcessor.warnings r)
        \/ In (amount_warning (i + 1) (FileProcessor.cell amountColIndex row))
              (FileProcessor.warnings r)).
Proof.
  intros tz dp ixd ixa ixs acc row i Hrow H. cbv zeta.
  unfold FileProcessor.excel_row. destruct row as [| c row]; [congruence|].
  set (d := FileProcessor.cell ixd (c :: row)) in *.
  set (a := FileProcessor.cell ixa (c :: row)) in *.
  set (s := FileProcessor.cell ixs (c :: row)).
  unfold FileProcessor.processRow, date_warning, amount_warning.
  destruct H as [H | H].
  - rewrite (not_text_no_date tz dp d H).
    cbn [FileProcessor.date_ok].
    destruct (FileProcessor.parseAmount a) as [x |];
      cbn [FileProcessor.amount_ok]; try destruct (num_truthy x);
      cbn [FileProcessor.catch_row FileProcessor.transactions
           FileProcessor.errors FileProcessor.warnings];
      unfold FileProcessor.push; repeat split; left;
      rewrite ?in_app_iff; cbn [In]; auto.
  - rewrite (not_text_no_amount a H).
    cbn [FileProcessor.amount_ok].
    destruct (FileProcessor.parseDate tz dp d) as [[| y x] |];
      cbn [FileProcessor.date_ok];
      cbn [FileProcessor.catch_row FileProcessor.transactions
           FileProcessor.errors FileProcessor.warnings];
      unfold FileProcessor.push; repeat split; right;
      rewrite ?in_app_iff; cbn [In]; auto.
Qed.

Lemma processExcel_takes_no_cell_that_is_not_text_witness :
  let r := FileProcessor.excel_row utc (Date_parse_month_name utc)
             (Some 0%nat) (Some 2%nat) (Some 1%nat)
             (FileProcessor.mkResult [] [] []) numeric_amount_row 1 in
  FileProcessor.transactions r
  = FileProcessor.transactions (FileProcessor.mkResult [] [] [])
  /\ FileProcessor.errors r = FileProcessor.errors (FileProcessor.mkResult [] [] [])
  /\ (In (date_warning (1 + 1) (FileProcessor.cell (Some 0%nat) numeric_amount_row))
         (FileProcessor.warnings r)
      \/ In (amount_warning (1 + 1)
               (FileProcessor.cell (Some 2%nat) numeric_amount_row))
            (FileProcessor.warnings r)).
Proof.
  apply (processExcel_takes_no_cell_that_is_not_text utc
           (Date_parse_month_name utc) (Some 0%nat) (Some 2%nat) (Some 1%nat)
           (FileProcessor.mkResult [] [] []) numeric_amount_row 1).
  - discriminate.
  - right. intros s. discriminate.
Defined.

(** X24: a first header cell that is truthy and not text (a number, say a
    year) makes the search of the date column throw: [processExcel] then
    resolves with no transaction and the one error of the sheet, whatever
    the rows. *)
Theorem processExcel_fails_on_a_header_that_is_not_text :
  forall (tz : Z) (Date_parse : jsstring -> option Z)
         (h : JSValue) (headers row : list JSValue) (rows : list (list JSValue)),
    truthy h = true ->
    not_text h ->
    exists message,
      FileProcessor.processExcel tz Date_parse
        (FileProcessor.ReaderLoad
           (FileProcessor.SheetRows ((h :: headers) :: row :: rows)))
      = Resolved (FileProcessor.mkResult []
                    [js "Excel processing error: " ++ message] []).
Proof.
  intros tz dp h headers row rows Ht Hn.
  unfold FileProcessor.processExcel, FileProcessor.excel_onload.
  cbn [FileProcessor.findColumn]. unfold FileProcessor.header_matches.
  rewrite Ht.
  destruct h as [| | b | x | s]; try discriminate;
    try (eexists; reflexivity).
  exfalso. apply (Hn s). reflexivity.
Qed.

Lemma processExcel_fails_on_a_header_that_is_not_text_witness :
  exists message,
    FileProcessor.processExcel utc (Date_parse_month_name utc)
      (FileProcessor.ReaderLoad
         (FileProcessor.SheetRows
            ((VNum (num_of_Z 2025) :: [VStr (js "Date"); VStr (js "Amount")])
             :: [VStr (js "x"); VStr (js "15/02/2025"); VStr (js "500")] :: [])))
    = Resolved (FileProcessor.mkResult []
                  [js "Excel processing error: " ++ message] []).
Proof.
  apply (processExcel_fails_on_a_header_that_is_not_text utc
           (Date_parse_month_name utc) (VNum (num_of_Z 2025))
           [VStr (js "Date"); VStr (js "Amount")]
           [VStr (js "x"); VStr (js "15/02/2025"); VStr (js "500")] []).
  - reflexivity.
  - intros s. discriminate.
Defined.

(** ** Amounts that [parseAmount] reads exactly *)

Lemma stripped_no_space (s : jsstring) :
  Forall (fun c => is_space c = false) (stripped s).
Proof.
  unfold stripped. apply Forall_forall. intros c Hc.
  apply filter_In in Hc. destruct Hc as [_ Hc]. apply negb_true_iff, Hc.
Qed.

Lemma clean_amount (s : jsstring) :
  trim (replace_all FileProcessor.re_spaces []
          (replace_all FileProcessor.re_currency [] s)) = stripped s.
Proof.
  unfold FileProcessor.re_spaces, FileProcessor.re_currency.
  rewrite replace_all_one_nil, replace_all_plus_nil.
  apply trim_no_space, stripped_no_space.
Qed.

Lemma digit_not_marker (c : N) :
  is_digit c = true ->
  in_set (js "()DrCr") c = false /\ (c =? 45)%N = false
  /\ (c =? 40)%N = false /\ (c =? 68)%N = false.
Proof.
  intros H. apply digit_cases in H.
  repeat (destruct H as [-> | H]); try subst c;
    repeat apply conj; reflexivity.
Qed.

Lemma digits_without (x : N) (l : jsstring) :
  (x = 45 \/ x = 40 \/ x = 68)%N ->
  Forall (fun c => is_digit c = true) l ->
  Forall (fun c => (c =? x)%N = false) l.
Proof.
  intros Hx H. eapply Forall_impl; [| exact H]. intros c Hc. simpl in Hc.
  destruct (digit_not_marker c Hc) as (_ & H1 & H2 & H3).
  destruct Hx as [-> | [-> | ->]]; assumption.
Qed.

Lemma markers_digits (l : jsstring) :
  Forall (fun c => is_digit c = true) l ->
  filter (fun c => negb (in_set (js "()DrCr") c)) l = l.
Proof.
  intros H. apply filter_all_true. eapply Forall_impl; [| exact H].
  intros c Hc. simpl in Hc. destruct (digit_not_marker c Hc) as (-> & _).
  reflexivity.
Qed.

Lemma parseAmount_stripped (s : jsstring) :
  stripped s <> [] ->
  FileProcessor.parseAmount (VStr s)
  = let t := stripped s in
    let x := parseFloat (filter (fun c => negb (in_set (js "()DrCr") c)) t) in
    if isNaN x then None
    else Some (if includes t (js "-") || includes t (js "(")
                  || includes t (js "Dr")
               then neg_num (Math_abs x) else Math_abs x).
Proof.
  intros H. destruct s as [| c s]; [exfalso; apply H; reflexivity|].
  unfold FileProcessor.parseAmount. rewrite clean_amount.
  unfold FileProcessor.re_markers. rewrite replace_all_one_nil. reflexivity.
Qed.

Lemma fileProcessor_numeral (s : jsstring) (n : N) :
  In (stripped s) [N_to_digits n; N_to_digits n ++ js "Cr"] ->
  FileProcessor.parseAmount (VStr s) = Some (num_of_Z (Z.of_N n)).
Proof.
  intros H.
  pose proof (N_to_digits_digits n) as Hd.
  pose proof (N_to_digits_nonempty n) as Hne.
  destruct (parseFloat_numeral n) as [Hpf _].
  assert (Hnum : parseFloat (filter (fun c => negb (in_set (js "()DrCr") c))
                               (stripped s)) = num_of_Z (Z.of_N n)
                 /\ includes (stripped s) (js "-") = false
                 /\ includes (stripped s) (js "(") = false
                 /\ includes (stripped s) (js "Dr") = false).
  { destruct H as [<- | [<- | []]].
    - rewrite markers_digits by exact Hd.
      repeat split; [exact Hpf | | |];
        apply includes_absent, digits_without; auto.
    - rewrite filter_app, markers_digits by exact Hd.
      change (filter _ (js "Cr")) with (@nil N). rewrite app_nil_r.
      repeat split; [exact Hpf | | |];
        apply includes_absent, Forall_app;
          (split; [apply digits_without; auto | repeat constructor]). }
  destruct Hnum as (Hx & H1 & H2 & H3).
  rewrite parseAmount_stripped.
  - cbv zeta. rewrite Hx, H1, H2, H3, num_of_N.
    destruct (decimal_sign false n 0) as (-> & -> & _). reflexivity.
  - destruct H as [<- | [<- | []]]; [exact Hne|].
    intros E. apply app_eq_nil in E. destruct E; contradiction.
Qed.

Lemma fileProcessor_debit_numeral (s : jsstring) (n : N) :
  In (stripped s) [js "-" ++ N_to_digits n; js "(" ++ N_to_digits n ++ js ")";
                   N_to_digits n ++ js "Dr"] ->
  FileProcessor.parseAmount (VStr s) = Some (neg_num (num_of_Z (Z.of_N n))).
Proof.
  intros H.
  pose proof (N_to_digits_digits n) as Hd.
  pose proof (N_to_digits_nonempty n) as Hne.
  destruct (parseFloat_numeral n) as [Hpf Hmf].
  assert (Hnum :
    exists x, parseFloat (filter (fun c => negb (in_set (js "()DrCr") c))
                            (stripped s)) = x
              /\ neg_num (Math_abs x) = neg_num (num_of_Z (Z.of_N n))
              /\ isNaN x = false
              /\ includes (stripped s) (js "-") || includes (stripped s) (js "(")
                 || includes (stripped s) (js "Dr") = true).
  { rewrite num_of_N in *.
    destruct (decimal_sign false n 0) as (Hnan & Habs & Hneg).
    destruct (decimal_sign true n 0) as (Hnan' & Habs' & Hneg').
    destruct H as [<- | [<- | [<- | []]]].
    - exists (neg_num (decimal false n 0)).
      change (js "-" ++ N_to_digits n) with (45%N :: N_to_digits n).
      cbn [filter]. change (negb (in_set (js "()DrCr") 45)) with true.
      cbv iota.
      rewrite markers_digits by exact Hd.
      repeat split; [exact Hmf | | |].
      + rewrite Hneg. cbn [negb]. rewrite Habs', Hneg. reflexivity.
      + rewrite Hneg. exact Hnan'.
      + apply orb_true_iff; left. apply orb_true_iff; left.
        apply (includes_app [] (js "-")).
    - exists (decimal false n 0).
      change (js "(" ++ N_to_digits n ++ js ")")
        with (40%N :: N_to_digits n ++ [41%N]).
      cbn [filter]. change (negb (in_set (js "()DrCr") 40)) with false.
      cbv iota. rewrite filter_app, markers_digits by exact Hd.
      change (filter _ [41%N]) with (@nil N). rewrite app_nil_r.
      repeat split; [exact Hpf | rewrite Habs; reflexivity | exact Hnan |].
      apply orb_true_iff; left. apply orb_true_iff; right.
      apply (includes_app [] (js "(")).
    - exists (decimal false n 0).
      rewrite filter_app, markers_digits by exact Hd.
      change (filter _ (js "Dr")) with (@nil N). rewrite app_nil_r.
      repeat split; [exact Hpf | rewrite Habs; reflexivity | exact Hnan |].
      apply orb_true_iff; right.
      rewrite <- (app_nil_r (js "Dr")). apply includes_app. }
  destruct Hnum as (x & Hx & Hneg & Hnan & Hinc).
  rewrite parseAmount_stripped.
  - cbv zeta. rewrite Hx, Hnan, Hinc, Hneg. reflexivity.
  - destruct H as [<- | [<- | [<- | []]]]; try discriminate.
    intros E. apply app_eq_nil in E. destruct E; contradiction.
Qed.

(** X3: an amount cell that, once the currency symbols, the commas and the
    white space are taken out, is the decimal numeral of [n], alone or
    followed by [Cr], is read by [parseAmount] as the number of the integer
    [n]: the binary64 value nearest to [n], which is [n] itself when [n] is
    below [2^53].  Grouping of any kind ([1,23,456]) and a currency symbol at
    any place do no harm. *)
Theorem fileProcessor_parseAmount_reads_numeral (s : jsstring) (n : N) :
  In (stripped s) [N_to_digits n; N_to_digits n ++ js "Cr"] ->
  FileProcessor.parseAmount (VStr s) = Some (num_of_Z (Z.of_N n))
  /\ ((n < 2 ^ 53)%N -> FileProcessor.parseAmount (VStr s) = Some (Fin false n 0)).
Proof.
  intros H. pose proof (fileProcessor_numeral s n H) as E.
  split; [exact E|]. intros Hn. rewrite E, num_of_N_exact by exact Hn.
  reflexivity.
Qed.

(** X4: the three debit notations of [parseAmount]: a cell that, without
    symbols, commas and white space, is the numeral of [n] behind a minus
    sign, between parentheses or followed by [Dr] is read as the negative of
    the number of the integer [n]: [-n] itself when [n] is below [2^53] (-0
    when [n] is 0). *)
Theorem fileProcessor_parseAmount_debit_notations (s : jsstring) (n : N) :
  In (stripped s) [js "-" ++ N_to_digits n; js "(" ++ N_to_digits n ++ js ")";
                   N_to_digits n ++ js "Dr"] ->
  FileProcessor.parseAmount (VStr s) = Some (neg_num (num_of_Z (Z.of_N n)))
  /\ ((n < 2 ^ 53)%N -> FileProcessor.parseAmount (VStr s) = Some (Fin true n 0)).
Proof.
  intros H. pose proof (fileProcessor_debit_numeral s n H) as E.
  split; [exact E|]. intros Hn. rewrite E, num_of_N_exact by exact Hn.
  reflexivity.
Qed.

Lemma fileProcessor_parseAmount_reads_numeral_witness :
  FileProcessor.parseAmount (VStr (js "₹ 1,23,456")) = Some (num_of_Z 123456)
  /\ ((123456 < 2 ^ 53)%N ->
      FileProcessor.parseAmount (VStr (js "₹ 1,23,456"))
      = Some (Fin false 123456 0)).
Proof.
  apply (fileProcessor_parseAmount_reads_numeral (js "₹ 1,23,456") 123456).
  left. vm_compute. reflexivity.
Defined.

Lemma fileProcessor_parseAmount_debit_notations_witness :
  FileProcessor.parseAmount (VStr (js "(1,234)"))
  = Some (neg_num (num_of_Z 1234))
  /\ ((1234 < 2 ^ 53)%N ->
      FileProcessor.parseAmount (VStr (js "(1,234)")) = Some (Fin true 1234 0)).
Proof.
  apply (fileProcessor_parseAmount_debit_notations (js "(1,234)") 1234).
  right. left. vm_compute. reflexivity.
Defined.

(** ** Text of three numbers, whether a date or not *)

Section ThreeNumbers.

Variables (sep : N) (y m d : Z).
Hypothesis Hy : 100 <= y <= 9999.
Hypothesis Hm : 0 <= m <= 99.
Hypothesis Hd : 0 <= d <= 99.
Hypothesis Hsep : In sep [cu "/"; cu "-"; cu "."].

Lemma numbers_shape :
  exists a b rest,
    day_first_text sep y m d = a :: b :: sep :: rest
    /\ is_digit a = true /\ is_digit b = true
    /\ first_not_space (rev (day_first_text sep y m d)).
Proof.
  destruct (pad2_spec d Hd) as [Hlen _].
  pose proof (pad_digits 2 d) as Hdig.
  destruct (pad4_spec y) as [Hlen4 _]; [lia|].
  pose proof (pad_digits 4 y) as Hdig4.
  assert (Hlast : first_not_space (rev (day_first_text sep y m d))).
  { unfold day_first_text. rewrite !app_assoc. rewrite rev_app_distr.
    destruct (rev (pad 4 y)) as [| x t] eqn:E.
    - apply (f_equal (@length N)) in E. rewrite length_rev, Hlen4 in E.
      discriminate.
    - simpl. assert (Hx : In x (pad 4 y)).
      { apply in_rev. rewrite E. left; reflexivity. }
      rewrite Forall_forall in Hdig4.
      apply (digit_facts x (Hdig4 x Hx)). }
  unfold day_first_text in *.
  destruct (pad 2 d) as [| a [| b [| c r]]]; try discriminate.
  exists a, b. eexists. split; [reflexivity|].
  inversion Hdig as [| ? ? Ha Hdig']. inversion Hdig'. auto.
Qed.

Lemma numbers_clean :
  clean_date (day_first_text sep y m d) = day_first_text sep y m d.
Proof.
  destruct numbers_shape as (a & b & rest & E & Ha & _ & Hlast).
  unfold clean_date. rewrite E in *.
  rewrite trim_id; [| apply (digit_facts a Ha) | exact Hlast].
  apply date_label_no_match, (digit_facts a Ha).
Qed.

Lemma numbers_parts :
  split (cu "/")
    (replace_all FileProcessor.re_date_separator (js "/")
       (day_first_text sep y m d))
  = [pad 2 d; pad 2 m; pad 4 y].
Proof. rewrite normalised_day_first by exact Hsep. apply split_day_first. Qed.

Lemma numbers_read :
  parseInt (pad 2 d) = Some d /\ parseInt (pad 2 m) = Some m
  /\ parseInt (pad 4 y) = Some y /\ length (pad 4 y) = 4%nat
  /\ length (pad 2 d) = 2%nat.
Proof.
  destruct (pad2_spec d Hd) as [? ?]. destruct (pad2_spec m Hm) as [? ?].
  destruct (pad4_spec y) as [? ?]; [lia|]. auto.
Qed.

End ThreeNumbers.

(** ** The first of a month *)

Lemma MakeDay_first (y m d : Z) :
  1 <= m <= 12 -> MakeDay y (m - 1) d = days_from_civil y m 1 + d - 1.
Proof.
  intros Hm. unfold MakeDay.
  replace ((m - 1) / 12) with 0 by dlia.
  replace ((m - 1) mod 12 + 1) with m by dlia.
  rewrite Z.add_0_r. reflexivity.
Qed.

Lemma days_from_civil_day (y m d : Z) :
  days_from_civil y m 1 + d - 1 = days_from_civil y m d.
Proof. unfold days_from_civil. lia. Qed.

Lemma every_month_ok : all_from (Z.to_nat 4800) 0 month_ok = true.
Proof. vm_cast_no_check (eq_refl true). Qed.

(** The first of a month is as many days behind the first of the month
    before as that month has days. *)
Lemma next_month_first (y m : Z) :
  1 <= m <= 12 ->
  let '(y', m', _) := first_of_next_month y m in
  days_from_civil y' m' 1 = days_from_civil y m 1 + days_in_month y m.
Proof.
  intros Hm.
  set (y0 := y mod 400). set (k := y / 400).
  assert (Hy : y = y0 + k * 400) by (subst y0 k; dlia).
  assert (Hy0 : 0 <= y0 < 400) by (subst y0; dlia).
  set (g := y0 * 12 + (m - 1)).
  assert (Hg : 0 <= g < 0 + Z.of_nat (Z.to_nat 4800)).
  { rewrite Z2Nat.id by lia. subst g. lia. }
  pose proof (all_from_spec _ _ _ every_month_ok g Hg) as Hok.
  unfold month_ok in Hok.
  replace (g / 12) with y0 in Hok by (subst g; dlia).
  replace (g mod 12 + 1) with m in Hok by (subst g; dlia).
  unfold first_of_next_month in *.
  rewrite Hy, days_in_month_era, (days_from_civil_era y0 m 1 k).
  destruct (m =? 12); apply Z.eqb_eq in Hok.
  - replace (y0 + k * 400 + 1) with (y0 + 1 + k * 400) by lia.
    rewrite days_from_civil_era. lia.
  - rewrite days_from_civil_era. lia.
Qed.

(** ** [fileProcessor]'s [parseDate] east of UTC *)

(** X5: on a host east of UTC, [parseDate] of [fileProcessor] returns for
    every date written day first (year 100 to 9999) the day BEFORE that
    date, which for a day other than the first of a month is the same month
    with the day less one: the date is built at local midnight and printed
    in UTC. *)
Theorem fileProcessor_parseDate_day_before_east_of_UTC :
  forall (tz : Z) (Date_parse : jsstring -> option Z) (sep : N) (y m d : Z),
    0 < tz <= 840 ->
    100 <= y <= 9999 ->
    valid_date y m d ->
    In sep [cu "/"; cu "-"; cu "."] ->
    FileProcessor.parseDate tz Date_parse (VStr (day_first_text sep y m d))
    = Some (iso_of (day_before y m d))
    /\ (2 <= d -> day_before y m d = (y, m, d - 1)).
Proof.
  intros tz dp sep y m d Htz Hy Hvalid Hsep.
  pose proof (day_le_31 y m d Hvalid) as Hd.
  pose proof Hvalid as [Hm _].
  assert (Hm' : 0 <= m <= 99) by lia.
  assert (Hd' : 0 <= d <= 99) by lia.
  split.
  - pose proof (numbers_clean sep y m d Hy Hd') as Hclean.
    unfold clean_date in Hclean.
    destruct (numbers_shape sep y m d Hy Hd') as (a & b & rest & E & _).
    destruct (numbers_read y m d Hy Hm' Hd') as (Rd & Rm & Ry & Ly & _).
    unfold FileProcessor.parseDate. rewrite E in *. rewrite Hclean.
    change FileProcessor.DATE_FORMATS
      with (js "dd/MM/yyyy" :: tl FileProcessor.DATE_FORMATS).
    cbn [FileProcessor.try_formats]. rewrite <- E.
    unfold FileProcessor.try_format.
    rewrite (numbers_parts sep y m d Hsep).
    change (startsWith (js "dd/MM/yyyy") (js "dd")) with true. cbv iota beta.
    rewrite Ly. change (4 =? 2)%nat with false. cbv iota.
    rewrite Rd, Rm, Ry. cbn [option_map].
    rewrite Date_of_numbers by lia.
    rewrite MakeDay_first, days_from_civil_day by exact Hm.
    unfold getFullYear. rewrite midnight_local_day.
    rewrite (civil_from_days_from_civil y m d Hvalid). cbn [fst].
    rewrite Z.eqb_refl. rewrite before_T_toISOString.
    replace ((days_from_civil y m d * msPerDay - tz * 60000) / msPerDay)
      with (days_from_civil y m d - 1) by (unfold msPerDay; dlia).
    unfold iso_of, day_before.
    destruct (civil_from_days (days_from_civil y m d - 1)) as [[y' m'] d'].
    reflexivity.
  - intros H2. unfold day_before.
    replace (days_from_civil y m d - 1) with (days_from_civil y m (d - 1))
      by (unfold days_from_civil; lia).
    apply civil_from_days_from_civil.
    destruct Hvalid as [? ?]. split; lia.
Qed.

Lemma fileProcessor_parseDate_day_before_east_of_UTC_witness :
  FileProcessor.parseDate ist (Date_parse_month_name ist)
    (VStr (day_first_text (cu "/") 2025 2 15))
  = Some (iso_of (day_before 2025 2 15))
  /\ (2 <= 15 -> day_before 2025 2 15 = (2025, 2, 15 - 1)).
Proof.
  apply (fileProcessor_parseDate_day_before_east_of_UTC ist
           (Date_parse_month_name ist) (cu "/") 2025 2 15).
  - unfold ist; lia.
  - lia.
  - unfold valid_date. change (days_in_month 2025 2) with 28. lia.
  - simpl. left. reflexivity.
Defined.

(** ** The universal [parseDate] answers null on what is no date *)

Section NoDate.

Variables (tz : Z) (sep : N) (y m d : Z).
Hypothesis Hy : 100 <= y <= 9999.
Hypothesis Hm : 0 <= m <= 99.
Hypothesis Hd : 0 <= d <= 99.
Hypothesis Hsep : In sep [cu "/"; cu "-"; cu "."].
Hypothesis Hday_first : ~ valid_date y m d.
Hypothesis Hmonth_first : ~ valid_date y d m.



End NoDate.



(** ** The date parsers of the per-app processors *)

Lemma split_length_no_sep (s : jsstring) :
  Forall (fun c => (c =? cu "/")%N = false) s ->
  (length (split (cu "/") (Apps.replace_first (cu "-") (js "/") s)) <= 2)%nat.
Proof.
  induction 1 as [| c s Hc Hs IH]; [simpl; lia|].
  cbn [Apps.replace_first]. destruct (c =? cu "-")%N.
  - change (js "/" ++ s) with (cu "/" :: s). cbn [split].
    rewrite N.eqb_refl, split_no_sep by exact Hs. simpl. lia.
  - cbn [split]. rewrite Hc.
    destruct (split (cu "/") (Apps.replace_first (cu "-") (js "/") s));
      simpl in *; lia.
Qed.

(** X12: [parseDate] of the SuperMoney processor replaces the first dash
    only, so a date text without a slash, as every date written
    [DD-MM-YYYY], is never split in three: the answer is null and the
    transaction keeps the text as its date. *)
Theorem supermoney_parseDate_null_without_slash :
  forall (tz : Z) (tx : Apps.AppTransaction),
    Forall (fun c => c <> cu "/") (Apps.date tx) ->
    SuperMoney.parseDate tz (Apps.date tx) = None
    /\ Apps.p_date (SuperMoney.toProcessed tz tx) = Apps.date tx.
Proof.
  intros tz tx H.
  assert (E : SuperMoney.parseDate tz (Apps.date tx) = None).
  { unfold SuperMoney.parseDate.
    assert (Hlen := split_length_no_sep (Apps.date tx)).
    destruct (split _ _) as [| p0 [| p1 [| p2 [| p3 r]]]]; try reflexivity.
    exfalso. cbn [length] in Hlen.
    assert (2 < 2)%nat; [| lia]. apply Nat.lt_le_trans with (m := 3%nat); [lia|].
    apply Hlen. eapply Forall_impl; [| exact H].
    intros c Hc. apply N.eqb_neq, Hc. }
  split; [exact E|].
  unfold SuperMoney.toProcessed. cbn [Apps.p_date]. rewrite E. reflexivity.
Qed.

Lemma supermoney_parseDate_null_without_slash_witness :
  SuperMoney.parseDate utc
    (Apps.date (swiggy_match "15-02-2025" "250"))
  = None
  /\ Apps.p_date (SuperMoney.toProcessed utc (swiggy_match "15-02-2025" "250"))
     = Apps.date (swiggy_match "15-02-2025" "250").
Proof.
  apply (supermoney_parseDate_null_without_slash utc
           (swiggy_match "15-02-2025" "250")).
  unfold swiggy_match. cbn [Apps.date]. apply Forall_forall. intros c Hc.
  vm_compute in Hc.
  repeat (destruct Hc as [<- | Hc]; [discriminate|]). contradiction.
Defined.

(** The [DD/MM/YYYY] branch, on a host at or behind UTC. *)
Section Slash.

Variables (tz y m d : Z).
Hypothesis Htz : -720 <= tz <= 0.
Hypothesis Hy : 100 <= y <= 9999.
Hypothesis Hm : 1 <= m <= 12.
Hypothesis Hd : 0 <= d <= 99.

Let text := day_first_text (cu "/") y m d.

Lemma slash_sep : In (cu "/") [cu "/"; cu "-"; cu "."].
Proof. left. reflexivity. Qed.

Lemma slash_parts : split (cu "/") text = [pad 2 d; pad 2 m; pad 4 y].
Proof. apply split_day_first. Qed.

Lemma date_of_slash_parts :
  Apps.date_of_parts tz [pad 2 d; pad 2 m; pad 4 y]
  = Some (iso_of (days_after_first y m d)).
Proof.
  assert (Hm' : 0 <= m <= 99) by lia.
  destruct (numbers_read y m d Hy Hm' Hd) as (Rd & Rm & Ry & _).
  unfold Apps.date_of_parts. rewrite Rd, Rm, Ry. cbn [option_map].
  rewrite Date_of_numbers by lia.
  rewrite MakeDay_first by exact Hm.
  rewrite before_T_toISOString.
  replace (((days_from_civil y m 1 + d - 1) * msPerDay - tz * 60000) / msPerDay)
    with (days_from_civil y m 1 + d - 1) by (unfold msPerDay; dlia).
  unfold iso_of, days_after_first.
  destruct (civil_from_days _) as [[y' m'] d']. reflexivity.
Qed.

Lemma gpay_month_date_none : GPay.month_date tz text = None.
Proof.
  assert (Hm' : 0 <= m <= 99) by lia.
  destruct (numbers_shape (cu "/") y m d Hy Hd) as (a & b & rest & E & Ha & _).
  unfold GPay.month_date, text. rewrite E.
  replace (GPay.re_month_date (a :: b :: cu "/" :: rest))
    with (@nil (jsstring * jsstring * jsstring * jsstring)); [reflexivity|].
  symmetry. unfold GPay.re_month_date. apply re_bind_nil.
  unfold rep, rep_lazy. cbn [spans].
  replace (is_alpha a) with false; [reflexivity|].
  apply digit_cases in Ha.
  repeat (destruct Ha as [-> | Ha]); try subst a; reflexivity.
Qed.

Lemma replace_first_absent (x : N) (by_ s : jsstring) :
  Forall (fun c => (c =? x)%N = false) s -> Apps.replace_first x by_ s = s.
Proof.
  induction 1 as [| c s Hc _ IH]; cbn [Apps.replace_first]; [reflexivity|].
  rewrite Hc, IH. reflexivity.
Qed.

Lemma slash_text_no_dash : Forall (fun c => (c =? cu "-")%N = false) text.
Proof.
  assert (H : forall w z, Forall (fun c => (c =? cu "-")%N = false) (pad w z)).
  { intros w z. apply digit_not; [reflexivity | apply pad_digits]. }
  unfold text, day_first_text.
  apply Forall_app; split; [apply H|].
  apply Forall_app; split; [repeat constructor|].
  apply Forall_app; split; [apply H|].
  apply Forall_app; split; [repeat constructor | apply H].
Qed.

Lemma per_app_slash :
  GPay.parseDate tz text = Some (iso_of (days_after_first y m d))
  /\ (forall Date_parse,
        Paytm.parseDate tz Date_parse text
        = Some (iso_of (days_after_first y m d)))
  /\ SuperMoney.parseDate tz text = Some (iso_of (days_after_first y m d)).
Proof.
  repeat split.
  - unfold GPay.parseDate. rewrite gpay_month_date_none, slash_parts.
    apply date_of_slash_parts.
  - intros dp. unfold Paytm.parseDate.
    replace (includes text (js "/")) with true.
    + rewrite slash_parts. apply date_of_slash_parts.
    + symmetry. unfold text, day_first_text.
      change [cu "/"] with (js "/"). apply includes_app.
  - unfold SuperMoney.parseDate.
    rewrite replace_first_absent by apply slash_text_no_dash.
    rewrite slash_parts. apply date_of_slash_parts.
Qed.

End Slash.

(** X13: on a host at or behind UTC, the date parsers of the Google Pay,
    Paytm and SuperMoney processors read [DD/MM/YYYY] (month 1 to 12, any
    two-digit day) as the day that lies DD - 1 days behind the first of the
    month: the date itself when it is a day of the calendar, and the first
    of the next month for the day after the last one.  The day is not
    checked. *)
Theorem per_app_parseDate_counts_days_from_the_first :
  forall (tz : Z) (Date_parse : jsstring -> option Z) (y m d : Z),
    -720 <= tz <= 0 ->
    100 <= y <= 9999 ->
    1 <= m <= 12 ->
    0 <= d <= 99 ->
    GPay.parseDate tz (day_first_text (cu "/") y m d)
    = Some (iso_of (days_after_first y m d))
    /\ Paytm.parseDate tz Date_parse (day_first_text (cu "/") y m d)
       = Some (iso_of (days_after_first y m d))
    /\ SuperMoney.parseDate tz (day_first_text (cu "/") y m d)
       = Some (iso_of (days_after_first y m d))
    /\ (valid_date y m d -> days_after_first y m d = (y, m, d))
    /\ (d = days_in_month y m + 1 ->
        days_after_first y m d = first_of_next_month y m).
Proof.
  intros tz dp y m d Htz Hy Hm Hd.
  destruct (per_app_slash tz y m d Htz Hy Hm Hd) as (H1 & H2 & H3).
  repeat split; auto.
  - intros Hv. unfold days_after_first. rewrite days_from_civil_day.
    apply civil_from_days_from_civil, Hv.
  - intros ->. unfold days_after_first.
    pose proof (next_month_first y m Hm) as Hn.
    unfold first_of_next_month in *.
    destruct (m =? 12) eqn:E.
    + replace (days_from_civil y m 1 + (days_in_month y m + 1) - 1)
        with (days_from_civil (y + 1) 1 1) by lia.
      apply civil_from_days_from_civil. unfold valid_date.
      change (days_in_month (y + 1) 1) with 31. lia.
    + replace (days_from_civil y m 1 + (days_in_month y m + 1) - 1)
        with (days_from_civil y (m + 1) 1) by lia.
      apply civil_from_days_from_civil. apply Z.eqb_neq in E.
      unfold valid_date, days_in_month.
      destruct (m + 1 =? 2); [destruct (is_leap y)|];
        [lia | lia | destruct (_ || _); lia].
Qed.

Lemma per_app_parseDate_counts_days_from_the_first_witness :
  GPay.parseDate utc (day_first_text (cu "/") 2025 4 31)
  = Some (iso_of (days_after_first 2025 4 31))
  /\ Paytm.parseDate utc (Date_parse_month_name utc)
       (day_first_text (cu "/") 2025 4 31)
     = Some (iso_of (days_after_first 2025 4 31))
  /\ SuperMoney.parseDate utc (day_first_text (cu "/") 2025 4 31)
     = Some (iso_of (days_after_first 2025 4 31))
  /\ (valid_date 2025 4 31 -> days_after_first 2025 4 31 = (2025, 4, 31))
  /\ (31 = days_in_month 2025 4 + 1 ->
      days_after_first 2025 4 31 = first_of_next_month 2025 4).
Proof.
  apply (per_app_parseDate_counts_days_from_the_first utc
           (Date_parse_month_name utc) 2025 4 31); unfold utc; lia.
Defined.

(** ** Thousands separators in the per-app processors *)

Lemma parseFloat_stops_at_comma (n : N) (rest : jsstring) :
  parseFloat (N_to_digits n ++ js "," ++ rest) = num_of_Z (Z.of_N n).
Proof.
  rewrite num_of_N. rewrite <- (digits_to_N_to_digits n) at 2.
  apply parseFloat_digits.
  - apply N_to_digits_nonempty.
  - apply N_to_digits_digits.
  - cbn. repeat split; reflexivity.
Qed.

Lemma signed_exact (type : jsstring) (n : N) :
  (n < 2 ^ 53)%N -> signed type n = Fin (str_eqb type (js "DEBIT")) n 0.
Proof.
  intros H. unfold signed. rewrite num_of_N_exact by exact H.
  destruct (str_eqb type (js "DEBIT")); reflexivity.
Qed.

(** X14: the Paytm and SuperMoney processors give the amount text of a
    match to [parseFloat] as it is, so an amount with a thousands separator
    counts as the number before its first comma, with the sign of the type:
    [1,234.50] is 1.  The number is that of the integer [n] before the
    comma: [n] itself when [n] is below [2^53], the binary64 value nearest
    to it otherwise. *)
Theorem paytm_supermoney_amount_ends_at_first_comma :
  forall (tz : Z) (Date_parse : jsstring -> option Z)
         (tx : Apps.AppTransaction) (n : N) (rest : jsstring),
    Apps.amount tx = N_to_digits n ++ js "," ++ rest ->
    Apps.p_amount (Paytm.toProcessed tz Date_parse tx) = signed (Apps.type tx) n
    /\ Apps.p_amount (SuperMoney.toProcessed tz tx) = signed (Apps.type tx) n
    /\ ((n < 2 ^ 53)%N ->
        signed (Apps.type tx) n
        = Fin (str_eqb (Apps.type tx) (js "DEBIT")) n 0).
Proof.
  intros tz dp tx n rest H.
  unfold Paytm.toProcessed, SuperMoney.toProcessed.
  cbn [Apps.p_amount]. unfold Apps.signed_amount.
  rewrite H, parseFloat_stops_at_comma.
  split; [reflexivity | split; [reflexivity | apply signed_exact]].
Qed.

Lemma paytm_supermoney_amount_ends_at_first_comma_witness :
  Apps.p_amount (Paytm.toProcessed utc (Date_parse_month_name utc)
    (swiggy_match "15/02/2025" "1,234.50"))
  = signed (Apps.type
      (swiggy_match "15/02/2025" "1,234.50")) 1
  /\ Apps.p_amount (SuperMoney.toProcessed utc
    (swiggy_match "15/02/2025" "1,234.50"))
  = signed (Apps.type
      (swiggy_match "15/02/2025" "1,234.50")) 1
  /\ ((1 < 2 ^ 53)%N ->
      signed (Apps.type (swiggy_match "15/02/2025" "1,234.50")) 1
      = Fin (str_eqb (Apps.type (swiggy_match "15/02/2025" "1,234.50"))
               (js "DEBIT")) 1 0).
Proof.
  apply (paytm_supermoney_amount_ends_at_first_comma utc
           (Date_parse_month_name utc)
           (swiggy_match "15/02/2025" "1,234.50")
           1 (js "234.50")).
  reflexivity.
Defined.

(** X15: the Google Pay processor takes the commas and rupee signs out
    first: an amount text that is then the numeral of [n] counts as the
    number of the integer [n] ([n] itself when [n] is below [2^53], the
    binary64 value nearest to it otherwise), with the sign of the type. *)
Theorem gpay_amount_without_separators :
  forall (tz : Z) (tx : Apps.AppTransaction) (n : N),
    filter (fun c => negb (in_set (js ",₹") c)) (Apps.amount tx)
    = N_to_digits n ->
    Apps.p_amount (GPay.toProcessed tz tx) = signed (Apps.type tx) n
    /\ ((n < 2 ^ 53)%N ->
        signed (Apps.type tx) n
        = Fin (str_eqb (Apps.type tx) (js "DEBIT")) n 0).
Proof.
  intros tz tx n H. split; [| apply signed_exact].
  unfold GPay.toProcessed, signed. cbn [Apps.p_amount].
  unfold Apps.signed_amount.
  rewrite replace_all_one_nil, H.
  destruct (parseFloat_numeral n) as [-> _]. reflexivity.
Qed.

Lemma gpay_amount_without_separators_witness :
  Apps.p_amount (GPay.toProcessed utc
    (swiggy_match "15/02/2025" "1,23,456"))
  = signed (Apps.type
      (swiggy_match "15/02/2025" "1,23,456"))
      123456
  /\ ((123456 < 2 ^ 53)%N ->
      signed (Apps.type (swiggy_match "15/02/2025" "1,23,456")) 123456
      = Fin (str_eqb (Apps.type (swiggy_match "15/02/2025" "1,23,456"))
               (js "DEBIT")) 123456 0).
Proof.
  apply (gpay_amount_without_separators utc
           (swiggy_match "15/02/2025" "1,23,456") 123456).
  vm_compute. reflexivity.
Defined.

(** ** The categorizers agree *)

Lemma startsWith_space (t k : jsstring) :
  k <> [] -> Forall (fun c => (32 =? c)%N = false) k ->
  startsWith (t ++ js " ") k = startsWith t k.
Proof.
  unfold startsWith. revert k. induction t as [| c t IH]; intros k Hne Hk.
  - destruct k as [| x k]; [congruence|]. inversion Hk as [| ? ? Hx _]; subst.
    change (js " ") with [32%N]. cbn [app startsWith_by]. rewrite Hx. reflexivity.
  - destruct k as [| x k]; [congruence|]. cbn [app startsWith_by].
    destruct (c =? x)%N; [| reflexivity].
    destruct k as [| x' k]; [destruct t; reflexivity|].
    apply IH; [discriminate | inversion Hk; assumption].
Qed.

Lemma includes_space (t k : jsstring) :
  k <> [] -> Forall (fun c => (32 =? c)%N = false) k ->
  includes (t ++ js " ") k = includes t k.
Proof.
  intros Hne Hk. induction t as [| c t IH].
  - destruct k as [| x k]; [congruence|]. inversion Hk as [| ? ? Hx _]; subst.
    change (js " ") with [32%N]. cbn [app includes]. unfold startsWith.
    cbn [startsWith_by]. rewrite Hx. reflexivity.
  - cbn [app includes]. rewrite IH.
    change (c :: t ++ js " ") with ((c :: t) ++ js " ").
    rewrite startsWith_space by assumption. reflexivity.
Qed.

Lemma first_rule_space (t : jsstring) (rules : list Rule) (fallback : string) :
  no_space rules = true ->
  first_rule (t ++ js " ") rules fallback = first_rule t rules fallback.
Proof.
  induction rules as [| [keywords cat] rules IH]; cbn [first_rule no_space forallb fst];
    intros H; [reflexivity|].
  apply andb_true_iff in H as [Hk Hr].
  replace (any_of (t ++ js " ") keywords) with (any_of t keywords).
  - destruct (any_of t keywords); [reflexivity | apply IH, Hr].
  - unfold any_of. clear - Hk. induction keywords as [| k ks IHk]; [reflexivity|].
    cbn [existsb forallb] in *. apply andb_true_iff in Hk as [H1 H2].
    rewrite IHk by exact H2. f_equal. symmetry.
    destruct (js k) as [| x r] eqn:E; [discriminate|].
    apply includes_space; [discriminate|].
    apply Forall_forall. intros c Hc. rewrite forallb_forall in H1.
    apply negb_true_iff, H1, Hc.
Qed.

Lemma first_rule_fallback (t : jsstring) (rules : list Rule) (a b : string) :
  forallb (fun r => negb (str_eqb (js (snd r)) (js a))) rules = true ->
  first_rule t rules b
  = if str_eqb (first_rule t rules a) (js a) then js b else first_rule t rules a.
Proof.
  induction rules as [| [keywords cat] rules IH]; cbn [first_rule forallb snd];
    intros H.
  - replace (str_eqb (js a) (js a)) with true; [reflexivity|].
    symmetry. apply str_eqb_eq. reflexivity.
  - apply andb_true_iff in H as [H1 H2]. apply negb_true_iff in H1.
    destruct (any_of t keywords); [rewrite H1; reflexivity | apply IH, H2].
Qed.

(** X6: the categorizer of [fileProcessor], called on a description as
    [processCSV] and [processExcel] do, gives the same category as the one of
    the PhonePe processor; those of the Google Pay and SuperMoney processors
    give it too, but [Other] where these say Miscellaneous. *)
Theorem categorizers_agree_but_for_the_fallback :
  forall merchant : jsstring,
    FileProcessor.categorizeTransaction (VStr merchant) VUndefined
    = PhonePe.categorizeTransaction merchant
    /\ GPay.categorizeTransaction merchant
       = with_Other (PhonePe.categorizeTransaction merchant)
    /\ SuperMoney.categorizeTransaction merchant
       = with_Other (PhonePe.categorizeTransaction merchant).
Proof.
  intros merchant.
  unfold FileProcessor.categorizeTransaction, PhonePe.categorizeTransaction,
    GPay.categorizeTransaction, SuperMoney.categorizeTransaction, with_Other.
  repeat split.
  - cbn [FileProcessor.or_else truthy ToString].
    rewrite app_nil_r. unfold toLowerCase. rewrite flat_map_app.
    change (flat_map lower_cu (js " ")) with (js " ").
    apply first_rule_space. vm_compute. reflexivity.
  - apply first_rule_fallback. vm_compute. reflexivity.
  - apply first_rule_fallback. vm_compute. reflexivity.
Qed.

(** ** The categorizer of the universal processor *)

(** X9: the categorizer of the universal processor always returns a member
    of the [Category] type, and never Education or Investment, for which it
    has no keywords. *)
Theorem universal_categorize_in_Category :
  forall description merchant : JSValue,
    is_Category (Universal.categorizeTransaction description merchant) = true
    /\ Universal.categorizeTransaction description merchant <> js "Education"
    /\ Universal.categorizeTransaction description merchant <> js "Investment".
Proof.
  intros description merchant. unfold Universal.categorizeTransaction.
  destruct (first_rule_range
              (toLowerCase (ToString description ++ js " "
                 ++ ToString (FileProcessor.or_else merchant (VStr []))))
              Universal.universal_rules "Miscellaneous")
    as [H | (k & c & Hin & H)]; rewrite H.
  - split; [vm_compute; reflexivity | split; vm_compute; discriminate].
  - unfold Universal.universal_rules in Hin. cbn [In] in Hin.
    repeat (destruct Hin as [Hin | Hin];
            [inversion Hin; subst;
             (split; [vm_compute; reflexivity | split; vm_compute; discriminate])|]).
    contradiction.
Qed.

(** ** Patterns that match nowhere *)

Lemma scan_ext {A} (p q : re A) :
  (forall s, p s = q s) -> forall s k, scan p k s = scan q k s.
Proof.
  intros H s. induction s as [| c t IH]; intros [| k]; cbn [scan].
  - rewrite H. reflexivity.
  - reflexivity.
  - rewrite <- H.
    destruct (first_match (p (c :: t))) as [[a r] |];
      [destruct (length (c :: t) - length r)%nat|]; rewrite IH; reflexivity.
  - apply IH.
Qed.

Lemma nowhere_tail {A} (p : re A) (c : N) (s : jsstring) :
  nowhere p (c :: s) -> nowhere p s.
Proof. intros H t [b ->]. apply H. exists (c :: b). reflexivity. Qed.

Lemma nowhere_here {A} (p : re A) (s : jsstring) : nowhere p s -> p s = [].
Proof. intros H. apply H. exists []. reflexivity. Qed.

Lemma search_nowhere {A} (p : re A) (s : jsstring) :
  nowhere p s -> forall by_, replace p by_ s = s.
Proof.
  intros H by_. unfold replace, search.
  assert (E : forall b, search_from p b s = None).
  { induction s as [| c t IH]; intros b; cbn [search_from];
      rewrite (nowhere_here p _ H); cbn [first_match]; [reflexivity|].
    apply IH. eapply nowhere_tail, H. }
  rewrite E. reflexivity.
Qed.

Lemma replace_all_nowhere {A} (p : re A) (s : jsstring) :
  nowhere p s -> forall by_, replace_all p by_ s = s.
Proof.
  intros H by_. unfold replace_all.
  induction s as [| c t IH]; cbn [scan];
    rewrite (nowhere_here p _ H); cbn [first_match flat_map]; [reflexivity|].
  rewrite IH by (eapply nowhere_tail, H). reflexivity.
Qed.

Lemma nowhere_plain {A} (p : re A) (s : jsstring) :
  p [] = [] ->
  (forall c t, is_plain c = true -> p (c :: t) = []) ->
  Forall (fun c => is_plain c = true) s ->
  nowhere p s.
Proof.
  intros H0 H1 Hs t [b ->]. apply Forall_app in Hs as [_ Hs].
  destruct Hs as [| c t Hc _]; [exact H0 | apply H1, Hc].
Qed.

Lemma plain_cases (c : N) :
  is_plain c = true ->
  (c = 44 \/ c = 45 \/ c = 48 \/ c = 49 \/ c = 50 \/ c = 51 \/ c = 52
   \/ c = 53 \/ c = 54 \/ c = 55 \/ c = 56 \/ c = 57)%N.
Proof.
  unfold is_plain, is_digit. intros H.
  apply orb_true_iff in H as [H | H]; [apply orb_true_iff in H as [H | H]|].
  - apply andb_true_iff in H as [H1 H2]. apply N.leb_le in H1, H2. lia.
  - apply N.eqb_eq in H. lia.
  - apply N.eqb_eq in H. lia.
Qed.

Ltac by_plain_cases H :=
  apply plain_cases in H;
  repeat (destruct H as [-> | H]); try subst; reflexivity.

Lemma plain_not_space (c : N) : is_plain c = true -> is_space c = false.
Proof. intros H. by_plain_cases H. Qed.

Lemma star_space_plain (c : N) (t : jsstring) :
  is_plain c = true -> star is_space (c :: t) = [([], c :: t)].
Proof.
  intros H. unfold star, rep, rep_lazy. cbn [spans].
  rewrite (plain_not_space c H). reflexivity.
Qed.

Lemma plain_no_label (c : N) (t : jsstring) :
  is_plain c = true -> Universal.re_amount_label (c :: t) = [].
Proof. intros H. by_plain_cases H. Qed.

Lemma plain_no_prefix (c : N) (t : jsstring) :
  is_plain c = true -> Universal.re_currency_prefix (c :: t) = [].
Proof. intros H. by_plain_cases H. Qed.

Lemma plain_no_currency_suffix (c : N) (t : jsstring) :
  is_plain c = true -> Universal.re_currency_suffix (c :: t) = [].
Proof.
  intros H. unfold Universal.re_currency_suffix. unfold re_bind at 1.
  rewrite star_space_plain by exact H. cbn [flat_map]. rewrite app_nil_r.
  by_plain_cases H.
Qed.

Lemma plain_no_suffix (w : string) (c : N) (t : jsstring) :
  In w ["cr"; "dr"]%string ->
  is_plain c = true -> Universal.re_suffix w (c :: t) = [].
Proof.
  intros Hw H. unfold Universal.re_suffix. unfold re_bind at 1.
  rewrite star_space_plain by exact H. cbn [flat_map]. rewrite app_nil_r.
  destruct Hw as [<- | [<- | []]]; by_plain_cases H.
Qed.

Lemma plain_no_word_suffix (c : N) (t : jsstring) :
  is_plain c = true -> Universal.re_word_suffix (c :: t) = [].
Proof.
  intros H. unfold Universal.re_word_suffix. unfold re_bind at 1.
  rewrite star_space_plain by exact H. cbn [flat_map]. rewrite app_nil_r.
  by_plain_cases H.
Qed.

Lemma plain_no_dr_debit (c : N) (t : jsstring) :
  is_plain c = true -> Universal.re_dr_debit (c :: t) = [].
Proof. intros H. by_plain_cases H. Qed.

Lemma plain_no_letter (x : N) (s : jsstring) :
  (x = 100 \/ x = 40)%N ->
  Forall (fun c => is_plain c = true) s ->
  Forall (fun c => (c =? x)%N = false) s.
Proof.
  intros Hx H. eapply Forall_impl; [| exact H]. intros c Hc. simpl in Hc.
  destruct Hx as [-> | ->]; by_plain_cases Hc.
Qed.

Lemma plain_no_paren (s : jsstring) :
  Forall (fun c => is_plain c = true) s ->
  filter (fun c => negb (in_set (js "()") c)) s = s.
Proof.
  intros H. apply filter_all_true. eapply Forall_impl; [| exact H].
  intros c Hc. simpl in Hc. by_plain_cases Hc.
Qed.

Lemma lit_comma (s : jsstring) :
  lit (js ",") s = one (fun c => (c =? 44)%N) s.
Proof.
  destruct s as [| c t]; [reflexivity|]. rewrite one_cons.
  unfold lit, re_lit_by. change (js ",") with [44%N]. cbn [startsWith_by].
  destruct (c =? 44)%N; [destruct t|]; reflexivity.
Qed.

Lemma without_commas_spec (s : jsstring) :
  replace_all (lit (js ",")) [] s = without_commas s.
Proof.
  unfold replace_all at 1. rewrite (scan_ext _ _ lit_comma).
  apply replace_all_one_nil.
Qed.

(** What [parseAmount] of the universal processor does with a text of
    digits, commas and minus signs. *)
Lemma universal_parseAmount_plain (c : N) (s : jsstring) :
  Forall (fun c => is_plain c = true) (c :: s) ->
  Universal.parseAmount (VStr (c :: s))
  = let x := parseFloat (without_commas (c :: s)) in
    if isNaN x then None
    else Some (if includes (c :: s) (js "-") then neg_num (Math_abs x)
               else Math_abs x).
Proof.
  intros H.
  assert (Hc : is_plain c = true) by (inversion H; assumption).
  assert (Hsp : Forall (fun c => is_space c = false) (c :: s)).
  { eapply Forall_impl; [| exact H]. intros a Ha. apply plain_not_space, Ha. }
  assert (Hno : forall A (p : re A),
            p [] = [] -> (forall c t, is_plain c = true -> p (c :: t) = []) ->
            nowhere p (c :: s)).
  { intros A p H0 H1. apply nowhere_plain; assumption. }
  assert (E1 : replace_anchored Universal.re_amount_label [] (c :: s) = c :: s).
  { unfold replace_anchored. rewrite plain_no_label by exact Hc. reflexivity. }
  assert (E2 : replace_anchored Universal.re_currency_prefix [] (c :: s) = c :: s).
  { unfold replace_anchored. rewrite plain_no_prefix by exact Hc. reflexivity. }
  unfold Universal.parseAmount.
  rewrite (trim_no_space (c :: s) Hsp), E1. cbv beta iota. rewrite E2.
  rewrite (search_nowhere Universal.re_currency_suffix (c :: s))
    by (apply Hno; [reflexivity | apply plain_no_currency_suffix]).
  rewrite (search_nowhere (Universal.re_suffix "cr") (c :: s))
    by (apply Hno; [reflexivity |
        intros c' t' Hc'; apply plain_no_suffix; [simpl; auto | exact Hc']]).
  rewrite (search_nowhere (Universal.re_suffix "dr") (c :: s))
    by (apply Hno; [reflexivity |
        intros c' t' Hc'; apply plain_no_suffix; [simpl; auto | exact Hc']]).
  rewrite (search_nowhere Universal.re_word_suffix (c :: s))
    by (apply Hno; [reflexivity | apply plain_no_word_suffix]).
  rewrite (trim_no_space (c :: s) Hsp).
  replace (includes (c :: s) (js "dr")) with false
    by (symmetry; apply (includes_absent 100%N (js "r")), plain_no_letter; auto).
  replace (includes (c :: s) (js "debit")) with false
    by (symmetry; apply (includes_absent 100%N (js "ebit")), plain_no_letter;
        auto).
  replace (includes (c :: s) (js "(")) with false
    by (symmetry; apply (includes_absent 40%N []), plain_no_letter; auto).
  cbn [orb]. rewrite orb_false_r.
  rewrite replace_all_one_nil, plain_no_paren by exact H.
  rewrite (replace_all_nowhere Universal.re_dr_debit (c :: s))
    by (apply Hno; [reflexivity | apply plain_no_dr_debit]).
  rewrite (trim_no_space (c :: s) Hsp).
  rewrite without_commas_spec.
  destruct (includes (c :: s) (js "-")); reflexivity.
Qed.

Lemma grouped_plain (s : jsstring) :
  grouped s -> Forall (fun c => is_plain c = true) s.
Proof.
  intros H. eapply Forall_impl; [| exact H]. intros c [Hc | ->];
    unfold is_plain; [rewrite Hc|]; reflexivity.
Qed.

Lemma grouped_no_minus (s : jsstring) :
  grouped s -> Forall (fun c => (c =? 45)%N = false) s.
Proof.
  intros H. eapply Forall_impl; [| exact H]. intros c [Hc | ->]; [| reflexivity].
  apply digit_head_facts in Hc. tauto.
Qed.

Lemma universal_grouped_numeral :
  forall (s : jsstring) (n : N),
    grouped s ->
    without_commas s = N_to_digits n ->
    Universal.parseAmount (VStr s) = Some (num_of_Z (Z.of_N n))
    /\ Universal.parseAmount (VStr (js "-" ++ s))
       = Some (neg_num (num_of_Z (Z.of_N n))).
Proof.
  intros s n Hg Hn.
  pose proof (grouped_plain s Hg) as Hp.
  destruct (parseFloat_numeral n) as [Hpf Hmf].
  rewrite num_of_N in *.
  destruct (decimal_sign false n 0) as (Hnan & Habs & Hneg).
  destruct (decimal_sign true n 0) as (Hnan' & Habs' & _).
  cbn [negb] in Hneg.
  split.
  - destruct s as [| c s]; [exfalso; apply (N_to_digits_nonempty n);
                            symmetry; exact Hn|].
    rewrite universal_parseAmount_plain by exact Hp. cbv zeta.
    rewrite Hn, Hpf, Hnan.
    replace (includes (c :: s) (js "-")) with false
      by (symmetry; apply (includes_absent 45%N []), grouped_no_minus, Hg).
    rewrite Habs. reflexivity.
  - change (js "-" ++ s) with (45%N :: s).
    rewrite universal_parseAmount_plain by (constructor; [reflexivity | exact Hp]).
    cbv zeta. change (without_commas (45%N :: s)) with (45%N :: without_commas s).
    rewrite Hn, Hmf, Hneg, Hnan', Habs'.
    replace (includes (45%N :: s) (js "-")) with true
      by (symmetry; apply (includes_app [] (js "-") s)).
    rewrite Hneg. reflexivity.
Qed.

(** X8: [parseAmount] of the universal processor reads a text of digits
    and commas that without the commas is the numeral of [n] as the number
    of the integer [n], and the same text behind a minus sign as its
    negative: [n] and [-n] themselves when [n] is below [2^53], the binary64
    values nearest to them otherwise. *)
Theorem universal_parseAmount_reads_grouped_numeral :
  forall (s : jsstring) (n : N),
    grouped s ->
    without_commas s = N_to_digits n ->
    Universal.parseAmount (VStr s) = Some (num_of_Z (Z.of_N n))
    /\ Universal.parseAmount (VStr (js "-" ++ s))
       = Some (neg_num (num_of_Z (Z.of_N n)))
    /\ ((n < 2 ^ 53)%N ->
        Universal.parseAmount (VStr s) = Some (Fin false n 0)
        /\ Universal.parseAmount (VStr (js "-" ++ s)) = Some (Fin true n 0)).
Proof.
  intros s n Hg Hn.
  destruct (universal_grouped_numeral s n Hg Hn) as [E1 E2].
  split; [exact E1 | split; [exact E2|]].
  intros H. rewrite E1, E2, num_of_N_exact by exact H. split; reflexivity.
Qed.

Lemma universal_parseAmount_reads_grouped_numeral_witness :
  Universal.parseAmount (VStr (js "1,23,456")) = Some (num_of_Z (Z.of_N 123456))
  /\ Universal.parseAmount (VStr (js "-" ++ js "1,23,456"))
     = Some (neg_num (num_of_Z (Z.of_N 123456)))
  /\ ((123456 < 2 ^ 53)%N ->
      Universal.parseAmount (VStr (js "1,23,456")) = Some (Fin false 123456 0)
      /\ Universal.parseAmount (VStr (js "-" ++ js "1,23,456"))
         = Some (Fin true 123456 0)).
Proof.
  apply (universal_parseAmount_reads_grouped_numeral (js "1,23,456") 123456).
  - apply Forall_forall. intros c Hc. vm_compute in Hc.
    repeat (destruct Hc as [<- | Hc]; [vm_compute; auto|]). contradiction.
  - vm_compute. reflexivity.
Defined.

(** ** The rows of the universal processor *)

Lemma universal_try_format_real tz clean format d :
  Universal.try_format tz clean format = Some d -> real_calendar_date d.
Proof.
  unfold Universal.try_format.
  destruct (split _ _) as [| p0 [| p1 [| p2 [| p3 r]]]]; try discriminate.
  destruct (if startsWith format (js "dd") then _ else _) as [[day month] year].
  destruct (Date_of_fields _ _ _ _) as [t |]; [| discriminate].
  destruct (_ && _ && _); [| discriminate].
  intros H; inversion H. apply toISOString_real.
Qed.

Lemma universal_month_name_real tz m d :
  Universal.month_name_date tz m = Some d -> real_calendar_date d.
Proof.
  unfold Universal.month_name_date.
  destruct m as [[[[monthStr day] year] rest] |]; [| discriminate].
  destruct (findIndex _ _) as [i |]; [| discriminate].
  destruct (Date_of_fields _ _ _ _) as [t |]; [| discriminate].
  intros H; inversion H. apply toISOString_real.
Qed.

Lemma universal_parseDate_real tz v d :
  Universal.parseDate tz v = Some d -> real_calendar_date d.
Proof.
  unfold Universal.parseDate.
  destruct v as [| | b | x | [| c s]]; try discriminate.
  destruct (replace_anchored _ _ _) as [| c' clean]; [discriminate|].
  destruct (Universal.month_name_date tz (first_match (Universal.re_month_first _)))
    eqn:E1.
  { intros H; inversion H; subst. eapply universal_month_name_real, E1. }
  destruct (Universal.month_name_date tz (first_match (Universal.re_day_first _)))
    eqn:E2.
  { intros H; inversion H; subst. eapply universal_month_name_real, E2. }
  generalize Universal.formats. intros fs. induction fs as [| f fs IH];
    cbn [Universal.try_formats]; [discriminate|].
  destruct (Universal.try_format tz (c' :: clean) f) eqn:E.
  - intros H; inversion H; subst. eapply universal_try_format_real, E.
  - exact IH.
Qed.

Lemma sign_not_NaN (x : Number) (neg : bool) :
  isNaN x = false ->
  isNaN (if neg then neg_num (Math_abs x) else Math_abs x) = false.
Proof. destruct x, neg; simpl; congruence. Qed.

Lemma amount_number (x : Number) (neg : bool) (a : Number) :
  (if isNaN x then None
   else Some (if neg then neg_num (Math_abs x) else Math_abs x)) = Some a ->
  isNaN a = false.
Proof.
  destruct (isNaN x) eqn:E; [discriminate|].
  intros H. injection H as <-. apply sign_not_NaN, E.
Qed.

Lemma universal_parseAmount_number v a :
  Universal.parseAmount v = Some a -> isNaN a = false.
Proof.
  unfold Universal.parseAmount.
  destruct v as [| | b | x | [| c s]]; try discriminate.
  destruct (replace_anchored _ _ _) as [| c' clean]; [discriminate|].
  cbv zeta. exact (amount_number _ _ a).
Qed.

(** What a row does to the three arrays. *)
Lemma push_row_cases date amount description acc :
  let r := Universal.push_row date amount description acc in
  (r = (acc, None))
  \/ (exists e, r = (acc, Some e) /\ forall s, description <> VStr s)
  \/ (exists d a t,
        date = Some d /\ amount = Some a
        /\ FileProcessor.date t = d /\ FileProcessor.amount t = a
        /\ r = (FileProcessor.mkResult
                  (FileProcessor.transactions acc ++ [t])
                  (FileProcessor.errors acc) (FileProcessor.warnings acc), None)).
Proof.
  unfold Universal.push_row.
  destruct date as [[| c d] |]; try (left; reflexivity).
  destruct amount as [a |]; try (left; reflexivity).
  destruct description as [| | b | x | s]; cbn [FileProcessor.split_first];
    try (right; left; eexists; split; [reflexivity | intros s; discriminate]).
  right; right.
  eexists; eexists; eexists (FileProcessor.mkTransaction _ _ _ _ _ _).
  repeat split.
Qed.

Lemma push_row_quiet tz n dateStr amountStr date amount description acc :
  date = Universal.parseDate tz dateStr ->
  amount = Universal.parseAmount amountStr ->
  quiet acc ->
  quiet (FileProcessor.catch_row n
           (Universal.push_row date amount description acc)).
Proof.
  intros Hd Ha [H1 H2].
  destruct (push_row_cases date amount description acc)
    as [E | [(e & E & _) | (d & a & t & Ed & Ea & Et & Eu & E)]];
    cbv zeta in E; rewrite E; cbn [FileProcessor.catch_row]; split;
    cbn [FileProcessor.transactions FileProcessor.warnings]; auto.
  apply Forall_app; split; [exact H1|]. constructor; [| constructor].
  split.
  - rewrite Et. eapply universal_parseDate_real. rewrite <- Hd. exact Ed.
  - rewrite Eu. eapply universal_parseAmount_number. rewrite <- Ha. exact Ea.
Qed.

Lemma forEach_count {A B} (f : B -> A -> nat -> B) (mu : B -> nat) :
  (forall acc x i, (mu (f acc x i) <= S (mu acc))%nat) ->
  forall l i acc,
    (mu (FileProcessor.forEach f l i acc) <= mu acc + length l)%nat.
Proof.
  intros Hf l. induction l as [| x l IH]; intros i acc;
    cbn [FileProcessor.forEach length]; [lia|].
  specialize (IH (S i) (f acc x i)). specialize (Hf acc x i). lia.
Qed.

Lemma push_row_count n date amount description acc :
  (kept_or_failed (FileProcessor.catch_row n
                     (Universal.push_row date amount description acc))
   <= S (kept_or_failed acc))%nat.
Proof.
  unfold kept_or_failed.
  destruct (push_row_cases date amount description acc)
    as [E | [(e & E & _) | (d & a & t & _ & _ & _ & _ & E)]];
    cbv zeta in E; rewrite E;
    cbn [FileProcessor.catch_row FileProcessor.transactions FileProcessor.errors];
    unfold FileProcessor.push; rewrite ?length_app; cbn [length]; lia.
Qed.

Lemma csv_row_not_parsed tz acc row i :
  parsed tz row = false -> Universal.csv_row tz acc row i = acc.
Proof.
  unfold parsed, Universal.csv_row, Universal.push_row.
  destruct (Universal.parseDate tz _) as [[| c d] |]; try reflexivity.
  destruct (Universal.parseAmount _) as [a |]; [discriminate | reflexivity].
Qed.

Lemma csv_row_parsed tz acc row i :
  parsed tz row = true ->
  kept_or_failed (Universal.csv_row tz acc row i) = S (kept_or_failed acc).
Proof.
  unfold parsed, Universal.csv_row, Universal.push_row, kept_or_failed.
  destruct (Universal.parseDate tz _) as [[| c d] |]; try discriminate.
  destruct (Universal.parseAmount _) as [a |]; [| discriminate].
  intros _.
  destruct (FileProcessor.split_first _);
    cbn [FileProcessor.catch_row FileProcessor.transactions FileProcessor.errors];
    unfold FileProcessor.push; rewrite length_app; cbn [length];
    lia.
Qed.

Lemma csv_rows_counted tz data :
  forall i acc,
    kept_or_failed (FileProcessor.forEach (Universal.csv_row tz) data i acc)
    = (kept_or_failed acc + length (filter (parsed tz) data))%nat.
Proof.
  induction data as [| row data IH]; intros i acc;
    cbn [FileProcessor.forEach filter]; [cbn [length]; lia|].
  rewrite IH. destruct (parsed tz row) eqn:E.
  - rewrite (csv_row_parsed tz acc row i E). cbn [length]. lia.
  - rewrite (csv_row_not_parsed tz acc row i E). reflexivity.
Qed.

(** X10: whatever the rows, every transaction of [processCSV] of the
    universal processor has a day of the calendar as date and a number (not
    NaN) as amount, and the result never has a warning.  A row of which the
    date or the amount does not parse leaves the three arrays as they are:
    it is dropped without any message, and the transactions and the errors
    together are as many as the rows that do parse. *)
Theorem universal_processCSV_gives_dated_amounts_and_no_warning :
  forall (tz : Z) (data : list FileProcessor.Row),
    let r := Universal.csv_complete tz (Some data) in
    Forall dated_number (FileProcessor.transactions r)
    /\ FileProcessor.warnings r = []
    /\ (length (FileProcessor.transactions r) + length (FileProcessor.errors r)
        = length (filter (parsed tz) data))%nat
    /\ (forall acc row i,
          parsed tz row = false -> Universal.csv_row tz acc row i = acc).
Proof.
  intros tz data. cbv zeta. unfold Universal.csv_complete.
  split; [| split; [| split]].
  - apply (forEach_invariant quiet); [| split; [constructor | reflexivity]].
    intros acc x i H. unfold Universal.csv_row.
    eapply push_row_quiet; [reflexivity | reflexivity | exact H].
  - apply (forEach_invariant quiet); [| split; [constructor | reflexivity]].
    intros acc x i H. unfold Universal.csv_row.
    eapply push_row_quiet; [reflexivity | reflexivity | exact H].
  - apply (csv_rows_counted tz data 0%nat (FileProcessor.mkResult [] [] [])).
  - intros acc row i. apply csv_row_not_parsed.
Qed.

(** ** The sheets of the universal processor *)

Lemma excel_cell_parsed tz st h v :
  (forall d, fst (fst st) = Some d -> real_calendar_date d) ->
  (forall a, snd (fst st) = Some a -> isNaN a = false) ->
  let st' := Universal.excel_cell tz st h v in
  (forall d, fst (fst st') = Some d -> real_calendar_date d)
  /\ (forall a, snd (fst st') = Some a -> isNaN a = false).
Proof.
  intros H1 H2. destruct st as [[date amount] description].
  unfold Universal.excel_cell.
  destruct (Universal.header_text h) as [[| c header] |]; try (split; assumption).
  destruct (truthy v); [| split; assumption].
  destruct (_ || _).
  { cbn [fst snd] in *. split; [| assumption].
    intros d. apply universal_parseDate_real. }
  destruct (_ || _ || _).
  { cbn [fst snd] in *. split; [assumption|].
    intros a. apply universal_parseAmount_number. }
  destruct (_ || _ || _); split; assumption.
Qed.

Lemma excel_cells_parsed tz headers row :
  let st := Universal.excel_cells tz headers row in
  (forall d, fst (fst st) = Some d -> real_calendar_date d)
  /\ (forall a, snd (fst st) = Some a -> isNaN a = false).
Proof.
  unfold Universal.excel_cells.
  assert (H : forall l st,
    ((forall d, fst (fst st) = Some d -> real_calendar_date d)
     /\ (forall a, snd (fst st) = Some a -> isNaN a = false)) ->
    let st' := fold_left (fun st hc => Universal.excel_cell tz st (fst hc) (snd hc))
                         l st in
    (forall d, fst (fst st') = Some d -> real_calendar_date d)
    /\ (forall a, snd (fst st') = Some a -> isNaN a = false)).
  { induction l as [| hc l IH]; intros st Hst; cbn [fold_left]; [exact Hst|].
    apply IH. destruct Hst. apply excel_cell_parsed; assumption. }
  apply H. cbn [fst snd]. split; discriminate.
Qed.

Lemma excel_row_silent tz headers acc row i :
  silent acc -> silent (Universal.excel_row tz headers acc row i).
Proof.
  intros [[H1 H2] H3]. unfold Universal.excel_row.
  destruct row as [| c row]; [repeat split; assumption|].
  destruct (excel_cells_parsed tz headers (c :: row)) as [Hd Ha].
  destruct (Universal.excel_cells tz headers (c :: row))
    as [[date amount] description].
  cbn [fst snd] in *.
  destruct (push_row_cases date amount (VStr description) acc)
    as [E | [(e & _ & E) | (d & a & t & Ed & Ea & Et & Eu & E)]].
  - cbv zeta in E. rewrite E. repeat split; assumption.
  - exfalso. apply (E description). reflexivity.
  - cbv zeta in E. rewrite E. cbn [FileProcessor.catch_row].
    repeat split; cbn [FileProcessor.transactions FileProcessor.warnings
                       FileProcessor.errors]; auto.
    apply Forall_app; split; [exact H1|]. constructor; [| constructor].
    split; [rewrite Et; apply Hd, Ed | rewrite Eu; apply Ha, Ea].
Qed.

Lemma excel_row_count tz headers acc row i :
  (length (FileProcessor.transactions (Universal.excel_row tz headers acc row i))
   <= length (FileProcessor.transactions acc)
      + length (data_rows [row]))%nat.
Proof.
  unfold Universal.excel_row. destruct row as [| c row]; [simpl; lia|].
  destruct (Universal.excel_cells tz headers (c :: row))
    as [[date amount] description].
  destruct (push_row_cases date amount (VStr description) acc)
    as [E | [(e & E & _) | (d & a & t & _ & _ & _ & _ & E)]];
    cbv zeta in E; rewrite E;
    cbn [FileProcessor.catch_row FileProcessor.transactions data_rows filter length];
    rewrite ?length_app; cbn [length]; lia.
Qed.

(** X11: for a sheet with a header row and at least one more row,
    [processExcel] of the universal processor never reports anything: the
    result has no error and no warning, at most one transaction for each row
    that is not empty, each with a day of the calendar as date and a number
    as amount. *)
Theorem universal_processExcel_never_reports_a_row :
  forall (tz : Z) (headers row : list JSValue) (rows : list (list JSValue)),
    let r := Universal.excel_onload tz
               (FileProcessor.SheetRows (headers :: row :: rows)) in
    FileProcessor.errors r = []
    /\ FileProcessor.warnings r = []
    /\ Forall dated_number (FileProcessor.transactions r)
    /\ (length (FileProcessor.transactions r)
        <= length (data_rows (row :: rows)))%nat.
Proof.
  intros tz headers row rows. cbv zeta.
  cbn [Universal.excel_onload].
  assert (Hs : silent (FileProcessor.forEach (Universal.excel_row tz headers)
                         (row :: rows) 1%nat (FileProcessor.mkResult [] [] []))).
  { apply (forEach_invariant silent).
    - intros acc x i H. apply excel_row_silent, H.
    - repeat split. constructor. }
  destruct Hs as [[H1 H2] H3]. repeat split; try assumption.
  generalize (row :: rows). intros l.
  assert (Hc : forall l i acc,
    (length (FileProcessor.transactions
               (FileProcessor.forEach (Universal.excel_row tz headers) l i acc))
     <= length (FileProcessor.transactions acc) + length (data_rows l))%nat).
  { clear. induction l as [| x l IH]; intros i acc;
      cbn [FileProcessor.forEach]; [simpl; lia|].
    specialize (IH (S i) (Universal.excel_row tz headers acc x i)).
    pose proof (excel_row_count tz headers acc x i) as Hx.
    replace (data_rows (x :: l)) with (data_rows [x] ++ data_rows l)
      by (destruct x; reflexivity).
    rewrite length_app. lia. }
  apply (Hc l 1%nat (FileProcessor.mkResult [] [] [])).
Qed.

(** ** What a match of a pattern is made of *)

Lemma scan_inl {A} (p : re A) (a : A) (s : jsstring) :
  forall k, In (inl a) (scan p k s) -> exists t r, In (a, r) (p t).
Proof.
  induction s as [| c t IH]; intros [| k]; cbn [scan]; intros H.
  - destruct (p []) as [| [a' r] l] eqn:E; cbn [first_match] in H;
      [contradiction|].
    destruct H as [H | []]. inversion H; subst.
    exists [], r. rewrite E. left. reflexivity.
  - contradiction.
  - destruct (p (c :: t)) as [| [a' r] l] eqn:E; cbn [first_match] in H.
    + destruct H as [H | H]; [discriminate | eapply IH, H].
    + destruct H as [H | H].
      * inversion H; subst. exists (c :: t), r. rewrite E. left. reflexivity.
      * destruct (length (c :: t) - length r)%nat.
        -- destruct H as [H | H]; [discriminate | eapply IH, H].
        -- eapply IH, H.
  - eapply IH, H.
Qed.

Lemma exec_all_In {A} (p : re A) (a : A) (s : jsstring) :
  In a (exec_all p s) -> exists t r, In (a, r) (p t).
Proof.
  unfold exec_all. intros H. apply in_flat_map in H.
  destruct H as ([a' | c] & Hin & Ha); [| contradiction].
  destruct Ha as [<- | []]. eapply scan_inl, Hin.
Qed.

Lemma In_re_bind {A B} (p : re A) (f : A -> re B) (s : jsstring) b r :
  In (b, r) (re_bind p f s) ->
  exists a r', In (a, r') (p s) /\ In (b, r) (f a r').
Proof.
  unfold re_bind. intros H. apply in_flat_map in H.
  destruct H as ([a r'] & H1 & H2). exists a, r'. split; assumption.
Qed.

Lemma startsWith_by_eqb (s p r : jsstring) :
  startsWith_by N.eqb s p = Some r -> s = p ++ r.
Proof.
  revert s. induction p as [| x p IH]; intros s H.
  - destruct s; cbn [startsWith_by] in H; inversion H; reflexivity.
  - destruct s as [| c s]; cbn [startsWith_by] in H; [discriminate|].
    destruct (c =? x)%N eqn:E; [| discriminate].
    apply N.eqb_eq in E. subst. cbn [app]. f_equal. apply IH, H.
Qed.

Lemma In_lit (p s a r : jsstring) :
  In (a, r) (lit p s) -> a = p /\ s = p ++ r.
Proof.
  unfold lit, re_lit_by.
  destruct (startsWith_by N.eqb s p) as [r' |] eqn:E; [| contradiction].
  intros [H | []]. inversion H; subst. apply startsWith_by_eqb in E. subst.
  split; [| reflexivity]. rewrite firstn_app, Nat.sub_diag, firstn_all.
  cbn [firstn]. apply app_nil_r.
Qed.

Lemma In_spans (p : N -> bool) (s a r : jsstring) :
  In (a, r) (spans p s) -> s = a ++ r /\ Forall (fun c => p c = true) a.
Proof.
  revert a r. induction s as [| c t IH]; intros a r H; cbn [spans] in H.
  - destruct H as [H | []]. inversion H. split; [reflexivity | constructor].
  - destruct H as [H | H]; [inversion H; split; [reflexivity | constructor]|].
    destruct (p c) eqn:E; [| contradiction].
    apply in_map_iff in H. destruct H as ([a' r'] & H & Hin).
    inversion H; subst. destruct (IH a' r Hin) as [-> Ha].
    split; [reflexivity | constructor; assumption].
Qed.

Lemma In_rep (p : N -> bool) (lo : nat) (hi : option nat) (s a r : jsstring) :
  In (a, r) (rep p lo hi s) ->
  s = a ++ r /\ Forall (fun c => p c = true) a /\ (lo <= length a)%nat.
Proof.
  unfold rep, rep_lazy. intros H. apply in_rev, filter_In in H.
  destruct H as [H1 H2]. destruct (In_spans p s a r H1) as [E Ha].
  repeat split; try assumption.
  unfold within in H2. apply andb_true_iff in H2 as [H2 _].
  apply Nat.leb_le in H2. exact H2.
Qed.

(** ** The matches of the PhonePe pattern *)

Lemma phonepe_amount_shape (s am r : jsstring) :
  In (am, r)
     (capture (plus is_digit ;;
               re_opt (lit (js ".") ;; rep is_digit 1 (Some 2%nat)) []) s) ->
  exists c rest, am = c :: rest /\ is_digit c = true.
Proof.
  unfold capture. intros H. apply in_map_iff in H.
  destruct H as ([x r'] & E & Hin). injection E as <- <-.
  apply In_re_bind in Hin. destruct Hin as (a1 & r1 & H1 & H2).
  apply In_rep in H1. destruct H1 as (Es & Ha1 & Hlen).
  assert (Hr : (length r' <= length r1)%nat).
  { unfold re_opt, re_alt, re_ret in H2. apply in_app_iff in H2.
    destruct H2 as [H2 | [H2 | []]]; [| inversion H2; lia].
    apply In_re_bind in H2. destruct H2 as (a2 & r2 & H2 & H3).
    apply In_lit in H2. destruct H2 as [_ ->].
    apply In_rep in H3. destruct H3 as (-> & _ & _).
    rewrite !length_app. lia. }
  destruct a1 as [| c a1]; [simpl in Hlen; lia|].
  inversion Ha1 as [| ? ? Hc _]; subst.
  exists c. cbn [app length].
  destruct (S (length (a1 ++ r1)) - length r')%nat as [| k] eqn:Ek.
  - rewrite length_app in Ek. lia.
  - cbn [firstn]. eexists. split; [reflexivity | exact Hc].
Qed.

Lemma phonepe_match_shape (t r : jsstring) (tx : PhonePe.PhonePeTransaction) :
  In (tx, r) (PhonePe.pattern t) ->
  (PhonePe.type tx = js "DEBIT" \/ PhonePe.type tx = js "CREDIT")
  /\ exists c rest, PhonePe.amount tx = c :: rest /\ is_digit c = true.
Proof.
  unfold PhonePe.pattern. intros H.
  apply In_re_bind in H. destruct H as (date & r1 & _ & H).
  apply In_re_bind in H. destruct H as (? & r2 & _ & H).
  apply In_re_bind in H. destruct H as (? & r3 & _ & H).
  apply In_re_bind in H. destruct H as (? & r4 & _ & H).
  apply In_re_bind in H. destruct H as (merchant & r5 & _ & H).
  apply In_re_bind in H. destruct H as (? & r6 & _ & H).
  apply In_re_bind in H. destruct H as (type & r7 & Htype & H).
  apply In_re_bind in H. destruct H as (? & r8 & _ & H).
  apply In_re_bind in H. destruct H as (? & r9 & _ & H).
  apply In_re_bind in H. destruct H as (amount & r10 & Hamount & H).
  destruct H as [H | []]. inversion H; subst. cbn [PhonePe.type PhonePe.amount].
  split.
  - unfold re_alt in Htype. apply in_app_iff in Htype.
    destruct Htype as [Ht | Ht]; apply In_lit in Ht; destruct Ht as [-> _]; auto.
  - eapply phonepe_amount_shape, Hamount.
Qed.

Lemma trim_digit_head (c : N) (x : jsstring) :
  is_digit c = true -> exists x', trim (c :: x) = c :: x'.
Proof.
  intros Hc. destruct (digit_head_facts c Hc) as (Hs & _).
  unfold trim. cbn [dropWhile]. rewrite Hs.
  cbn [rev].
  assert (H : forall l, exists l', dropWhile is_space (l ++ [c]) = l' ++ [c]).
  { induction l as [| a l [l' IH]]; cbn [app dropWhile].
    - rewrite Hs. exists []. reflexivity.
    - destruct (is_space a); [exists l'; exact IH | exists (a :: l); reflexivity]. }
  destruct (H (rev x)) as [l' ->]. rewrite rev_app_distr. cbn [rev app].
  eexists. reflexivity.
Qed.

Lemma parseFloat_digit_head (c : N) (x : jsstring) :
  is_digit c = true -> exists m e, parseFloat (c :: x) = decimal false m e.
Proof.
  intros Hc. destruct (digit_head_facts c Hc) as (Hs & H45 & H43 & H73).
  unfold parseFloat. cbn [dropWhile]. rewrite Hs. cbn [take_sign].
  rewrite H45, H43.
  replace (startsWith (c :: x) (js "Infinity")) with false
    by (unfold startsWith; change (js "Infinity") with (73%N :: js "nfinity");
        cbn [startsWith_by]; rewrite H73; reflexivity).
  cbn [span]. rewrite Hc. destruct (span is_digit x) as [ip s2].
  destruct (match s2 with
            | [] => ([], s2)
            | c0 :: r => if (c0 =? 46)%N then span is_digit r else ([], s2)
            end) as [fp s3].
  cbn [app]. eexists. eexists. reflexivity.
Qed.

Lemma decimal_is_negative (b : bool) (m : N) (e : Z) :
  is_negative (decimal b m e) = b.
Proof.
  unfold decimal.
  repeat match goal with
         | |- context [if ?c then _ else _] => destruct c
         | |- context [let (_, _) := ?x in _] => destruct x
         end; reflexivity.
Qed.

(** X16: whatever the text of the file, the client-side PhonePe path
    resolves with no error and with transactions whose amount is a number
    (not NaN), negative for a match of type DEBIT and positive for one of
    type CREDIT, whose description says which, and whose category is a member
    of the [Category] type. *)
Theorem phonepe_transactions_are_signed_numbers :
  forall (Date_parse : jsstring -> option Z) (text : jsstring),
  exists r : FileProcessor.ProcessingResult,
    PhonePe.processPhonePePDFClientSide Date_parse (PhonePe.PdfText text)
    = Resolved r
    /\ Forall phonepe_shaped (FileProcessor.transactions r)
    /\ FileProcessor.errors r = [].
Proof.
  intros dp text. eexists. split; [reflexivity|].
  cbn [FileProcessor.transactions FileProcessor.errors]. split; [| reflexivity].
  apply Forall_forall. intros t Ht.
  apply in_map_iff in Ht. destruct Ht as (tx & <- & Htx).
  unfold PhonePe.parsePhonePeTransactions in Htx.
  apply in_map_iff in Htx. destruct Htx as (m & <- & Hm).
  apply exec_all_In in Hm. destruct Hm as (s & r & Hm).
  destruct (phonepe_match_shape s r m Hm) as (Htype & c & rest & Ham & Hc).
  unfold phonepe_shaped, PhonePe.toProcessed.
  cbn [FileProcessor.amount FileProcessor.description FileProcessor.category
       FileProcessor.paymentMode PhonePe.type PhonePe.amount PhonePe.merchant].
  rewrite Ham. destruct (trim_digit_head c rest Hc) as [x' ->].
  destruct (parseFloat_digit_head c x' Hc) as (mm & e & ->).
  destruct (decimal_sign false mm e) as (Hnan & _ & Hneg).
  destruct (decimal_sign true mm e) as (Hnan' & _ & _).
  cbn [negb] in Hneg.
  repeat split; try apply phonepe_categorize_total.
  - destruct Htype as [-> | ->].
    + change (str_eqb (js "DEBIT") (js "DEBIT")) with true. cbv iota.
      rewrite Hneg. exact Hnan'.
    + change (str_eqb (js "CREDIT") (js "DEBIT")) with false. exact Hnan.
  - destruct Htype as [-> | ->].
    + left. change (str_eqb (js "DEBIT") (js "DEBIT")) with true. cbv iota.
      rewrite Hneg, decimal_is_negative. split; [reflexivity|].
      apply (startsWith_app (js "PhonePe DEBIT to ")).
    + right. change (str_eqb (js "CREDIT") (js "DEBIT")) with false. cbv iota.
      rewrite decimal_is_negative. split; [reflexivity|].
      apply (startsWith_app (js "PhonePe CREDIT to ")).
Qed.

(** ** Merchants on one line *)

Lemma replace_all_plus_cons (p : N -> bool) (by_ : jsstring) (c : N)
      (t : jsstring) :
  replace_all (plus p) by_ (c :: t)
  = if p c then by_ ++ replace_all (plus p) by_ (snd (span p t))
    else c :: replace_all (plus p) by_ t.
Proof.
  unfold replace_all. rewrite scan_plus. destruct (p c); reflexivity.
Qed.

Lemma span_rest_head (p : N -> bool) (t : jsstring) :
  match snd (span p t) with c :: _ => p c = false | [] => True end.
Proof.
  induction t as [| c t IH]; cbn [span]; [exact I|].
  destruct (p c) eqn:E; [| cbn [snd]; exact E].
  destruct (span p t). exact IH.
Qed.

Lemma span_rest_length (p : N -> bool) (t : jsstring) :
  (length (snd (span p t)) <= length t)%nat.
Proof.
  destruct (span_spec p t) as [E _]. rewrite E at 2. rewrite length_app. lia.
Qed.

(** The text with each run of white space replaced by a space. *)
Lemma spaces_merged (s : jsstring) :
  let out := replace_all (plus is_space) (js " ") s in
  (first_not_space s -> first_not_space out)
  /\ (forall c, In c out -> is_space c = true -> c = 32%N)
  /\ (forall a x y b, out = a ++ x :: y :: b ->
        is_space x = true -> is_space y = false).
Proof.
  remember (length s) as n eqn:Hn. revert s Hn.
  induction n as [n IH] using lt_wf_ind. intros s Hn.
  destruct s as [| c t].
  { cbv zeta. change (replace_all (plus is_space) (js " ") []) with (@nil N).
    repeat split; try contradiction.
    intros a x y b E. destruct a; discriminate. }
  cbv zeta. rewrite replace_all_plus_cons.
  destruct (is_space c) eqn:Ec.
  - pose proof (span_rest_head is_space t) as Hhead.
    pose proof (span_rest_length is_space t) as Hlen.
    destruct (IH (length (snd (span is_space t)))
                 ltac:(subst n; simpl; lia) _ eq_refl) as (H1 & H2 & H3).
    cbv zeta in *. change (js " " ++ ?r) with (32%N :: r).
    repeat split.
    + cbn [first_not_space]. congruence.
    + intros x [<- | Hx] Hs; [reflexivity | apply H2; assumption].
    + intros a x y b E Hx. destruct a as [| a0 a].
      * cbn [app] in E. injection E as <- E.
        specialize (H1 Hhead). rewrite E in H1. exact H1.
      * cbn [app] in E. injection E as _ E. eapply H3; eassumption.
  - destruct (IH (length t) ltac:(subst n; simpl; lia) t eq_refl)
      as (H1 & H2 & H3).
    cbv zeta in *. repeat split.
    + intros _. cbn [first_not_space]. exact Ec.
    + intros x [<- | Hx] Hs; [congruence | apply H2; assumption].
    + intros a x y b E Hx. destruct a as [| a0 a].
      * cbn [app] in E. injection E as <- E. congruence.
      * cbn [app] in E. injection E as _ E. eapply H3; eassumption.
Qed.

Lemma dropWhile_suffix (p : N -> bool) (l : jsstring) :
  (exists pre, l = pre ++ dropWhile p l)
  /\ match dropWhile p l with c :: _ => p c = false | [] => True end.
Proof.
  induction l as [| c l [[pre IH1] IH2]]; cbn [dropWhile].
  - split; [exists []; reflexivity | exact I].
  - destruct (p c) eqn:E.
    + split; [exists (c :: pre); cbn [app]; congruence | exact IH2].
    + split; [exists []; reflexivity | exact E].
Qed.

(** [trim] keeps a piece of the text that has no white space at either
    end. *)
Lemma trim_infix (l : jsstring) :
  (exists pre post, l = pre ++ trim l ++ post)
  /\ first_not_space (trim l) /\ first_not_space (rev (trim l)).
Proof.
  unfold trim.
  destruct (dropWhile_suffix is_space l) as [[pre E1] H1].
  destruct (dropWhile_suffix is_space (rev (dropWhile is_space l)))
    as [[pre2 E2] H2].
  set (l1 := dropWhile is_space l) in *.
  set (l2 := dropWhile is_space (rev l1)) in *.
  assert (E3 : l1 = rev l2 ++ rev pre2).
  { rewrite <- (rev_involutive l1), E2, rev_app_distr. reflexivity. }
  repeat split.
  - exists pre, (rev pre2). rewrite <- E3. exact E1.
  - rewrite E3 in H1. destruct (rev l2) as [| c r]; [exact I | exact H1].
  - rewrite rev_involutive. destruct l2; [exact I | exact H2].
Qed.

Lemma one_line_single_spaced (merchant : jsstring) :
  single_spaced (Apps.one_line merchant).
Proof.
  unfold Apps.one_line.
  destruct (spaces_merged merchant) as (_ & H2 & H3). cbv zeta in *.
  set (out := replace_all (plus is_space) (js " ") merchant) in *.
  destruct (trim_infix out) as ([pre [post E]] & Hf & Hl).
  repeat split; try assumption.
  - intros c Hc. apply H2. rewrite E. apply in_app_iff. right.
    apply in_app_iff. left. exact Hc.
  - intros a x y b Et. apply (H3 (pre ++ a) x y (b ++ post)).
    rewrite E, Et. rewrite <- !app_assoc. reflexivity.
Qed.

(** ** The type of a match *)

Lemma ci_eqb_upper (c x : N) :
  is_alpha x = true -> ci_eqb c x = true ->
  (if is_lower c then c - 32 else c)%N = (if is_lower x then x - 32 else x)%N.
Proof.
  unfold is_alpha, ci_eqb, is_upper, is_lower. intros Hx H.
  apply N.eqb_eq in H.
  repeat match goal with
         | H : context [(?a <=? ?b)%N] |- _ =>
           let E := fresh in destruct (N.leb_spec a b) as [E | E]; cbn [andb orb] in *
         | |- context [(?a <=? ?b)%N] =>
           let E := fresh in destruct (N.leb_spec a b) as [E | E]; cbn [andb orb] in *
         end; try discriminate; lia.
Qed.

Lemma In_lit_i (p s a r : jsstring) :
  Forall (fun x => is_alpha x = true) p ->
  In (a, r) (lit_i p s) ->
  Apps.toUpperCase a = Apps.toUpperCase p.
Proof.
  unfold lit_i, re_lit_by. intros Hp.
  destruct (startsWith_by ci_eqb s p) as [r' |] eqn:E; [| contradiction].
  intros [H | []]. injection H as <- _. clear r.
  revert s r' E. induction Hp as [| x p Hx _ IH]; intros s r' E.
  - destruct s; reflexivity.
  - destruct s as [| c s]; cbn [startsWith_by] in E; [discriminate|].
    destruct (ci_eqb c x) eqn:Ec; [| discriminate].
    cbn [length firstn Apps.toUpperCase map].
    rewrite (ci_eqb_upper c x Hx Ec). f_equal. apply (IH s r' E).
Qed.

Lemma In_lit_i_alts (ws : list string) (s a r : jsstring) :
  forallb (fun w => forallb is_alpha (js w)) ws = true ->
  In (a, r) (re_alts (map (fun w => lit_i (js w)) ws) s) ->
  exists w, In w ws /\ Apps.toUpperCase a = Apps.toUpperCase (js w).
Proof.
  induction ws as [| w ws IH]; cbn [map re_alts forallb]; intros Hw H;
    [contradiction|].
  apply andb_true_iff in Hw as [H1 H2].
  unfold re_alt in H. apply in_app_iff in H. destruct H as [H | H].
  - exists w. split; [left; reflexivity|].
    eapply In_lit_i; [| exact H].
    apply Forall_forall. intros c Hc. rewrite forallb_forall in H1.
    apply H1, Hc.
  - destruct (IH H2 H) as (w' & Hin & E). exists w'. split; [right|]; assumption.
Qed.

Lemma paytm_match_type (t r : jsstring) (m : Apps.AppTransaction) :
  In (m, r) (Paytm.pattern t) ->
  debit_or_credit (Apps.toUpperCase (Apps.type m)).
Proof.
  unfold Paytm.pattern. intros H.
  apply In_re_bind in H. destruct H as (date & r1 & _ & H).
  apply In_re_bind in H. destruct H as (? & r2 & _ & H).
  apply In_re_bind in H. destruct H as (merchant & r3 & _ & H).
  apply In_re_bind in H. destruct H as (? & r4 & _ & H).
  apply In_re_bind in H. destruct H as (type & r5 & Htype & H).
  apply In_re_bind in H. destruct H as (? & r6 & _ & H).
  apply In_re_bind in H. destruct H as (? & r7 & _ & H).
  apply In_re_bind in H. destruct H as (amount & r8 & _ & H).
  destruct H as [H | []]. injection H as <- _. cbn [Apps.type].
  apply (In_lit_i_alts ["Debit"; "Credit"; "DEBIT"; "CREDIT"]%string) in Htype;
    [| reflexivity].
  destruct Htype as (w & Hw & ->). unfold debit_or_credit.
  cbn [In] in Hw.
  destruct Hw as [<- | [<- | [<- | [<- | []]]]]; vm_compute; auto.
Qed.

Lemma supermoney_match_type (t r : jsstring) (m : Apps.AppTransaction) :
  In (m, r) (SuperMoney.pattern t) ->
  debit_or_credit (SuperMoney.normalizedType (Apps.type m)).
Proof.
  unfold SuperMoney.pattern. intros H.
  apply In_re_bind in H. destruct H as (date & r1 & _ & H).
  apply In_re_bind in H. destruct H as (? & r2 & _ & H).
  apply In_re_bind in H. destruct H as (merchant & r3 & _ & H).
  apply In_re_bind in H. destruct H as (? & r4 & _ & H).
  apply In_re_bind in H. destruct H as (type & r5 & Htype & H).
  apply In_re_bind in H. destruct H as (? & r6 & _ & H).
  apply In_re_bind in H. destruct H as (? & r7 & _ & H).
  apply In_re_bind in H. destruct H as (amount & r8 & _ & H).
  destruct H as [H | []]. injection H as <- _. cbn [Apps.type].
  apply (In_lit_i_alts ["DR"; "CR"; "Debit"; "Credit"]%string) in Htype;
    [| reflexivity].
  destruct Htype as (w & Hw & E). unfold debit_or_credit, SuperMoney.normalizedType.
  cbv zeta. rewrite E. cbn [In] in Hw.
  destruct Hw as [<- | [<- | [<- | [<- | []]]]]; vm_compute; auto.
Qed.

(** X21: every transaction that the four matchers extract from a text has
    the type DEBIT or CREDIT, whatever the case of the word in the text, and
    a merchant on one line: no white space at either end, and single spaces
    as only white space inside. *)
Theorem matchers_give_a_type_and_a_one_line_merchant :
  forall text : jsstring,
    Forall (fun tx => debit_or_credit (PhonePe.type tx)
                      /\ single_spaced (PhonePe.merchant tx))
           (PhonePe.parsePhonePeTransactions text)
    /\ Forall (fun tx => debit_or_credit (Apps.type tx)
                         /\ single_spaced (Apps.merchant tx))
              (GPay.parseGPayTransactions text)
    /\ Forall (fun tx => debit_or_credit (Apps.type tx)
                         /\ single_spaced (Apps.merchant tx))
              (Paytm.parsePaytmTransactions text)
    /\ Forall (fun tx => debit_or_credit (Apps.type tx)
                         /\ single_spaced (Apps.merchant tx))
              (SuperMoney.parseSuperMoneyTransactions text).
Proof.
  intros text. split; [| split; [| split]]; apply Forall_forall; intros tx Htx.
  - unfold PhonePe.parsePhonePeTransactions in Htx.
    apply in_map_iff in Htx. destruct Htx as (m & <- & Hm).
    apply exec_all_In in Hm. destruct Hm as (s & r & Hm).
    destruct (phonepe_match_shape s r m Hm) as (Htype & _).
    cbn [PhonePe.type PhonePe.merchant]. split; [exact Htype|].
    apply one_line_single_spaced.
  - unfold GPay.parseGPayTransactions in Htx. apply in_app_iff in Htx.
    destruct Htx as [Htx | Htx]; apply in_map_iff in Htx.
    + destruct Htx as ([[[date action] merchant] amount] & <- & _).
      cbn [Apps.type Apps.merchant]. split; [| apply one_line_single_spaced].
      unfold debit_or_credit. destruct (str_eqb _ _); auto.
    + destruct Htx as ([[date merchant] amount] & <- & _).
      cbn [Apps.type Apps.merchant]. split; [| apply one_line_single_spaced].
      left. reflexivity.
  - unfold Paytm.parsePaytmTransactions in Htx.
    apply in_map_iff in Htx. destruct Htx as (m & <- & Hm).
    apply exec_all_In in Hm. destruct Hm as (s & r & Hm).
    cbn [Apps.type Apps.merchant]. split; [| apply one_line_single_spaced].
    eapply paytm_match_type, Hm.
  - unfold SuperMoney.parseSuperMoneyTransactions in Htx.
    apply in_map_iff in Htx. destruct Htx as (m & <- & Hm).
    apply exec_all_In in Hm. destruct Hm as (s & r & Hm).
    cbn [Apps.type Apps.merchant]. split; [| apply one_line_single_spaced].
    eapply supermoney_match_type, Hm.
Qed.

(** ** The store: duplicates and categories *)

Lemma has_In (seen : list jsstring) (k : jsstring) :
  ExpenseContext.has seen k = true <-> In k seen.
Proof.
  unfold ExpenseContext.has. rewrite existsb_exists. split.
  - intros (x & Hx & E). apply str_eqb_eq in E. subst. exact Hx.
  - intros H. exists k. split; [exact H | apply str_eqb_eq; reflexivity].
Qed.

Lemma has_not_In (seen : list jsstring) (k : jsstring) :
  ExpenseContext.has seen k = false <-> ~ In k seen.
Proof.
  rewrite <- has_In. destruct (ExpenseContext.has seen k); split; intros H;
    try congruence; try discriminate.
Qed.

(** The transactions of [l] that [filter_seen] keeps: a subsequence of [l],
    with keys that are new and pairwise different, and one for each key of
    [l] that is new. *)
Lemma filter_seen_spec (l : list ExpenseContext.Transaction) :
  forall seen,
    let out := ExpenseContext.filter_seen seen l in
    NoDup (map ExpenseContext.key out)
    /\ (forall t, In t out -> In t l /\ ~ In (ExpenseContext.key t) seen)
    /\ (forall t, In t l -> ~ In (ExpenseContext.key t) seen ->
          In (ExpenseContext.key t) (map ExpenseContext.key out)).
Proof.
  induction l as [| x l IH]; intros seen; cbn [ExpenseContext.filter_seen].
  - cbn. repeat split; try constructor; contradiction.
  - destruct (ExpenseContext.has seen (ExpenseContext.key x)) eqn:E.
    + apply has_In in E. destruct (IH seen) as (H1 & H2 & H3).
      cbv zeta. repeat split; auto.
      * right. apply (H2 t H).
      * apply (H2 t H).
      * intros t [<- | Ht] Hn; [contradiction | apply H3; assumption].
    + apply has_not_In in E.
      destruct (IH (ExpenseContext.key x :: seen)) as (H1 & H2 & H3).
      cbv zeta. cbn [map]. repeat split.
      * constructor; [| exact H1]. intros Hin. apply in_map_iff in Hin.
        destruct Hin as (t & Ek & Ht). apply (H2 t Ht). left. auto.
      * destruct H as [<- | Ht]; [left; reflexivity | right; apply (H2 t Ht)].
      * destruct H as [<- | Ht]; [exact E|].
        intros Hin. apply (H2 t Ht). right. exact Hin.
      * intros t [<- | Ht] Hn; [left; reflexivity|].
        destruct (list_eq_dec N.eq_dec (ExpenseContext.key x) (ExpenseContext.key t))
          as [Ek | Ek]; [left; exact Ek|].
        right. apply H3; [exact Ht|]. intros [Hx | Hs]; contradiction.
Qed.

Lemma filter_seen_sub (l : list ExpenseContext.Transaction) :
  forall seen, exists keep : list bool,
    length keep = length l
    /\ ExpenseContext.filter_seen seen l
       = map fst (filter snd (combine l keep)).
Proof.
  induction l as [| x l IH]; intros seen; cbn [ExpenseContext.filter_seen].
  - exists []. split; reflexivity.
  - destruct (ExpenseContext.has seen (ExpenseContext.key x)).
    + destruct (IH seen) as (keep & Hlen & ->).
      exists (false :: keep). split; [simpl; congruence | reflexivity].
    + destruct (IH (ExpenseContext.key x :: seen)) as (keep & Hlen & ->).
      exists (true :: keep). split; [simpl; congruence | reflexivity].
Qed.

Lemma filter_seen_id (l : list ExpenseContext.Transaction) :
  forall seen,
    NoDup (map ExpenseContext.key l) ->
    (forall t, In t l -> ~ In (ExpenseContext.key t) seen) ->
    ExpenseContext.filter_seen seen l = l.
Proof.
  induction l as [| x l IH]; intros seen Hnd Hs; cbn [ExpenseContext.filter_seen];
    [reflexivity|].
  cbn [map] in Hnd. inversion Hnd as [| ? ? Hx Hl]; subst.
  replace (ExpenseContext.has seen (ExpenseContext.key x)) with false
    by (symmetry; apply has_not_In, Hs; left; reflexivity).
  f_equal. apply IH; [exact Hl|].
  intros t Ht [Hk | Hin].
  - apply Hx. rewrite Hk. apply in_map, Ht.
  - apply (Hs t); [right; exact Ht | exact Hin].
Qed.

(** X17: [removeDuplicates] returns transactions of the list, in the order
    of the list, with keys (merchant, amount, date and payment mode) that are
    pairwise different, and loses no key. *)
Theorem removeDuplicates_keeps_one_transaction_per_key :
  forall transactions : list ExpenseContext.Transaction,
    let out := ExpenseContext.removeDuplicates transactions in
    NoDup (map ExpenseContext.key out)
    /\ (forall t, In t transactions ->
          In (ExpenseContext.key t) (map ExpenseContext.key out))
    /\ (forall t, In t out -> In t transactions)
    /\ (exists keep : list bool,
          length keep = length transactions
          /\ out = map fst (filter snd (combine transactions keep))).
Proof.
  intros l. cbv zeta. unfold ExpenseContext.removeDuplicates.
  destruct (filter_seen_spec l []) as (H1 & H2 & H3).
  repeat split.
  - exact H1.
  - intros t Ht. apply H3; [exact Ht | intros []].
  - intros t Ht. apply (H2 t Ht).
  - apply filter_seen_sub.
Qed.

(** X18: [removeDuplicates] changes nothing when applied a second time, and
    leaves a list as it is exactly when the keys of the list are pairwise
    different. *)
Theorem removeDuplicates_is_idempotent :
  forall transactions : list ExpenseContext.Transaction,
    ExpenseContext.removeDuplicates (ExpenseContext.removeDuplicates transactions)
    = ExpenseContext.removeDuplicates transactions
    /\ (NoDup (map ExpenseContext.key transactions) <->
        ExpenseContext.removeDuplicates transactions = transactions).
Proof.
  intros l. unfold ExpenseContext.removeDuplicates.
  destruct (filter_seen_spec l []) as (H1 & _).
  split; [| split].
  - apply filter_seen_id; [exact H1 | intros t _ []].
  - intros H. apply filter_seen_id; [exact H | intros t _ []].
  - intros E. rewrite <- E. exact H1.
Qed.

(** The first transaction with a given key is the one that is kept. *)
Lemma filter_seen_first (l : list ExpenseContext.Transaction) :
  forall seen a x b,
    l = a ++ x :: b ->
    ~ In (ExpenseContext.key x) seen ->
    ~ In (ExpenseContext.key x) (map ExpenseContext.key a) ->
    In x (ExpenseContext.filter_seen seen l).
Proof.
  induction l as [| y l IH]; intros seen a x b E Hs Ha.
  - destruct a; discriminate.
  - cbn [ExpenseContext.filter_seen]. destruct a as [| y' a].
    + cbn [app] in E. inversion E; subst.
      replace (ExpenseContext.has seen (ExpenseContext.key x)) with false
        by (symmetry; apply has_not_In, Hs).
      left. reflexivity.
    + cbn [app] in E. inversion E; subst. cbn [map] in Ha.
      destruct (ExpenseContext.has seen (ExpenseContext.key y')).
      * eapply IH; [reflexivity | exact Hs |]. intros H. apply Ha. right. exact H.
      * right. eapply IH; [reflexivity | |].
        -- intros [Hk | Hin]; [apply Ha; left; exact Hk | contradiction].
        -- intros H. apply Ha. right. exact H.
Qed.

(** X19: of the transactions with one key, [removeDuplicates] keeps the
    first and drops every later one, also when it is another transaction
    (another id, category or note). *)
Theorem removeDuplicates_keeps_the_first_of_each_key :
  forall (before after : list ExpenseContext.Transaction)
         (t : ExpenseContext.Transaction),
    ~ In (ExpenseContext.key t) (map ExpenseContext.key before) ->
    In t (ExpenseContext.removeDuplicates (before ++ t :: after))
    /\ (forall t', In t' after -> ExpenseContext.key t' = ExpenseContext.key t ->
          ExpenseContext.id t' <> ExpenseContext.id t ->
          ~ In t' (ExpenseContext.removeDuplicates (before ++ t :: after))).
Proof.
  intros a b t Ha. unfold ExpenseContext.removeDuplicates.
  assert (Hin : In t (ExpenseContext.filter_seen [] (a ++ t :: b))).
  { eapply filter_seen_first; [reflexivity | intros [] | exact Ha]. }
  split; [exact Hin|].
  intros t' Ht' Ek Hid Hin'.
  destruct (filter_seen_spec (a ++ t :: b) []) as (Hnd & _).
  set (out := ExpenseContext.filter_seen [] (a ++ t :: b)) in *.
  assert (Hne : t' <> t) by (intros ->; apply Hid; reflexivity).
  clearbody out. clear - Hnd Hin Hin' Ek Hne.
  induction out as [| x out IH]; [contradiction|].
  cbn [map] in Hnd. inversion Hnd as [| ? ? Hx Hout]; subst.
  destruct Hin as [-> | Hin], Hin' as [-> | Hin'].
  - apply Hne. reflexivity.
  - apply Hx. rewrite <- Ek. apply in_map, Hin'.
  - apply Hx. rewrite Ek. apply in_map, Hin.
  - apply IH; assumption.
Qed.

Lemma removeDuplicates_keeps_the_first_of_each_key_witness :
  In (stored "a") (ExpenseContext.removeDuplicates ([] ++ stored "a" :: [stored "b"]))
  /\ (forall t', In t' [stored "b"] ->
        ExpenseContext.key t' = ExpenseContext.key (stored "a") ->
        ExpenseContext.id t' <> ExpenseContext.id (stored "a") ->
        ~ In t' (ExpenseContext.removeDuplicates
                   ([] ++ stored "a" :: [stored "b"]))).
Proof.
  apply (removeDuplicates_keeps_the_first_of_each_key [] [stored "b"] (stored "a")).
  simpl. tauto.
Defined.

(** ** Custom categories *)

Lemma NoDup_snoc {A} (l : list A) (x : A) :
  NoDup l -> ~ In x l -> NoDup (l ++ [x]).
Proof.
  induction 1 as [| y l Hy Hl IH]; intros Hx; cbn [app].
  - constructor; [intros [] | constructor].
  - constructor.
    + intros Hin. apply in_app_iff in Hin. destruct Hin as [Hin | [-> | []]].
      * contradiction.
      * apply Hx. left. reflexivity.
    + apply IH. intros Hin. apply Hx. right. exact Hin.
Qed.

Lemma addCustomCategory_invariant (cat : jsstring) (cs : list jsstring) :
  NoDup (ExpenseContext.allCategories cs) /\ ~ In [] cs ->
  NoDup (ExpenseContext.allCategories (ExpenseContext.addCustomCategory cs cat cs))
  /\ ~ In [] (ExpenseContext.addCustomCategory cs cat cs).
Proof.
  intros [H1 H2]. unfold ExpenseContext.addCustomCategory.
  destruct cat as [| c cat]; [split; assumption|].
  destruct (ExpenseContext.has cs (c :: cat)) eqn:E1; [split; assumption|].
  destruct (ExpenseContext.has ExpenseContext.DEFAULT_CATEGORIES (c :: cat)) eqn:E2;
    [split; assumption|].
  cbn [orb]. apply has_not_In in E1, E2. split.
  - unfold ExpenseContext.allCategories in *. rewrite app_assoc.
    apply NoDup_snoc; [exact H1|].
    intros Hin. apply in_app_iff in Hin. tauto.
  - intros Hin. apply in_app_iff in Hin. destruct Hin as [Hin | [Hin | []]];
      [contradiction | discriminate].
Qed.

(** X20: when the state starts from a list that, with the default
    categories, has no entry twice and no empty one, and
    [addCustomCategory] is called once in an event, the list of all
    categories keeps having no entry twice and no empty custom category, and
    has every name that was added and is not empty.  Two calls with one new
    name in the same event put the name twice: both test the list of the
    render, and both append. *)
Theorem custom_categories_distinct_with_one_call_per_event :
  forall stored added : list jsstring,
    NoDup (ExpenseContext.allCategories stored) ->
    ~ In [] stored ->
    let customCategories := after_events stored added in
    NoDup (ExpenseContext.allCategories customCategories)
    /\ ~ In [] customCategories
    /\ (forall cat, In cat added -> cat <> [] ->
          In cat (ExpenseContext.allCategories customCategories))
    /\ (forall cat, cat <> [] ->
          ~ In cat (ExpenseContext.allCategories customCategories) ->
          ExpenseContext.addCustomCategory customCategories cat
            (ExpenseContext.addCustomCategory customCategories cat customCategories)
          = customCategories ++ [cat; cat]).
Proof.
  intros stored added Hnd Hne. cbv zeta. unfold after_events.
  assert (Hinv : forall l cs,
    NoDup (ExpenseContext.allCategories cs) /\ ~ In [] cs ->
    let cs' := fold_left (fun cs cat => ExpenseContext.addCustomCategory cs cat cs)
                         l cs in
    (NoDup (ExpenseContext.allCategories cs') /\ ~ In [] cs')
    /\ (forall cat, In cat (ExpenseContext.allCategories cs) ->
          In cat (ExpenseContext.allCategories cs'))
    /\ (forall cat, In cat l -> cat <> [] ->
          In cat (ExpenseContext.allCategories cs'))).
  { induction l as [| x l IH]; intros cs Hcs; cbn [fold_left].
    - split; [exact Hcs|]. split; [tauto|]. intros cat [].
    - destruct (IH (ExpenseContext.addCustomCategory cs x cs)
                  (addCustomCategory_invariant x cs Hcs)) as (Hi & Hmono & Hall).
      cbv zeta in *.
      assert (Hstep : forall cat, In cat (ExpenseContext.allCategories cs) ->
                In cat (ExpenseContext.allCategories
                          (ExpenseContext.addCustomCategory cs x cs))).
      { intros cat Hin. unfold ExpenseContext.addCustomCategory.
        destruct x; [exact Hin|]. destruct (_ || _); [exact Hin|].
        unfold ExpenseContext.allCategories in *. rewrite app_assoc.
        apply in_app_iff. left. exact Hin. }
      split; [exact Hi|]. split.
      + intros cat Hin. apply Hmono, Hstep, Hin.
      + intros cat [<- | Hin] Hne'; [| apply Hall; assumption].
        apply Hmono. unfold ExpenseContext.addCustomCategory.
        destruct x as [| c x]; [congruence|].
        destruct (ExpenseContext.has cs (c :: x)) eqn:E1.
        { apply has_In in E1. unfold ExpenseContext.allCategories.
          apply in_app_iff. right. exact E1. }
        destruct (ExpenseContext.has ExpenseContext.DEFAULT_CATEGORIES (c :: x)) eqn:E2.
        { apply has_In in E2. unfold ExpenseContext.allCategories.
          apply in_app_iff. left. exact E2. }
        cbn [orb]. unfold ExpenseContext.allCategories.
        apply in_app_iff. right. apply in_app_iff. right. left. reflexivity. }
  destruct (Hinv added stored (conj Hnd Hne)) as ((H1 & H2) & _ & H3).
  cbv zeta in *.
  split; [exact H1 | split; [exact H2 | split; [exact H3|]]].
  intros cat Hcat Hnot.
  set (cs := fold_left _ added stored) in *.
  unfold ExpenseContext.addCustomCategory.
  destruct cat as [| c cat]; [congruence|].
  destruct (ExpenseContext.has cs (c :: cat)) eqn:E1.
  { exfalso. apply Hnot. apply has_In in E1. unfold ExpenseContext.allCategories.
    apply in_app_iff. right. exact E1. }
  destruct (ExpenseContext.has ExpenseContext.DEFAULT_CATEGORIES (c :: cat)) eqn:E2.
  { exfalso. apply Hnot. apply has_In in E2. unfold ExpenseContext.allCategories.
    apply in_app_iff. left. exact E2. }
  cbn [orb]. rewrite <- app_assoc. reflexivity.
Qed.

Lemma custom_categories_distinct_with_one_call_per_event_witness :
  NoDup (ExpenseContext.allCategories (after_events [] [js "Pets"; js "Pets"]))
  /\ ~ In [] (after_events [] [js "Pets"; js "Pets"])
  /\ (forall cat, In cat [js "Pets"; js "Pets"] -> cat <> [] ->
        In cat (ExpenseContext.allCategories
                  (after_events [] [js "Pets"; js "Pets"])))
  /\ (forall cat, cat <> [] ->
        ~ In cat (ExpenseContext.allCategories
                    (after_events [] [js "Pets"; js "Pets"])) ->
        ExpenseContext.addCustomCategory (after_events [] [js "Pets"; js "Pets"])
          cat
          (ExpenseContext.addCustomCategory
             (after_events [] [js "Pets"; js "Pets"]) cat
             (after_events [] [js "Pets"; js "Pets"]))
        = after_events [] [js "Pets"; js "Pets"] ++ [cat; cat]).
Proof.
  apply (custom_categories_distinct_with_one_call_per_event []
           [js "Pets"; js "Pets"]).
  - unfold ExpenseContext.allCategories. rewrite app_nil_r.
    unfold ExpenseContext.DEFAULT_CATEGORIES, Category.
    cbn [map]. repeat (constructor; [vm_compute; intuition discriminate|]).
    constructor.
  - intros [].
Defined.
